(** * Booking flow of the caravan rental platform

    A shallow embedding of [src/pages/BookingPage.tsx]: the price
    breakdown computed on every render of [BookingForm], its three submit
    handlers, the callbacks of its three mutations, and the default rate
    card chosen by [BookingPage].

    Conventions of the embedding.
    - A JavaScript [number] is [NaN], an infinity or a finite binary64
      value, held as a rational; every arithmetic operation rounds its
      exact result to the nearest binary64 value, as IEEE 754 prescribes.
    - The component's [useState] cells are the fields of [State]; a handler
      is a function from the state it closes over to the next state and
      the list of effects (toasts, remote calls, navigation) it performs.
    - An [await] splits a handler: the part before it runs on the click,
      the part after it runs on the event that carries the remote answer.
*)

From Stdlib Require Import ZArith QArith Qround Qabs Qpower Bool List String Ascii Lia Lqa.
From Stdlib Require Qcanon.
From Stdlib Require Import Permutation.
Import ListNotations.

Local Open Scope string_scope.
Local Open Scope Z_scope.
Local Open Scope list_scope.

(** ** JavaScript values *)

Module JS.

(** A [number]: [NaN], an infinity or a finite value of the binary64
    format, held as the rational it is.  The two zeros are one value here;
    the component never divides by a variable, which is the only way its
    code could tell them apart. *)
Inductive number : Type :=
| NaN
| Num (q : Q)
| Infinity (negative : bool).

Definition of_Z (z : Z) : number := Num (inject_Z z).

(** *** Rounding to binary64

    Every arithmetic operation of the language computes the exact result
    and rounds it to the nearest value of the format, a tie going to the
    value whose last bit is zero, and a result of magnitude [2 ^ 1024] or
    more becoming an infinity. *)

(** [floor (log2 q)] for a positive [q]. *)
Definition ilog2 (q : Q) : Z :=
  let k := Z.log2 (Qnum q) - Z.log2 (Zpos (Qden q)) in
  if Qle_bool (2 ^ k) q then k else k - 1.

(** The integer nearest to [x], a tie going to the even one. *)
Definition round_half_even (x : Q) : Z :=
  let f := Qfloor x in
  match (x - inject_Z f ?= 1 # 2)%Q with
  | Lt => f
  | Gt => f + 1
  | Eq => if Z.even f then f else f + 1
  end.

(** The exponent of the last bit kept for [q]: 53 significant bits, and
    [-1074] for the subnormal values. *)
Definition exponent (q : Q) : Z := Z.max (ilog2 (Qabs q) - 52) (-1074).

Definition round64 (q : Q) : number :=
  if Qeq_bool q 0 then Num 0
  else
    let e := exponent q in
    let r := (inject_Z (round_half_even (q / 2 ^ e)) * 2 ^ e)%Q in
    if Qle_bool (2 ^ 1024) (Qabs r)
    then Infinity (negb (Qle_bool 0 r))
    else Num (Qred r).

(** A decimal literal of the source, such as [0.12], is the value of the
    format nearest to it. *)
Definition literal (q : Q) : number := round64 q.

Definition negative (q : Q) : bool := negb (Qle_bool 0 q).

(** *** Arithmetic *)

Definition add (a b : number) : number :=
  match a, b with
  | Num x, Num y => round64 (x + y)
  | Infinity s, Num _ | Num _, Infinity s => Infinity s
  | Infinity s, Infinity t => if Bool.eqb s t then Infinity s else NaN
  | _, _ => NaN
  end.

Definition sub (a b : number) : number :=
  match a, b with
  | Num x, Num y => round64 (x - y)
  | Infinity s, Num _ => Infinity s
  | Num _, Infinity s => Infinity (negb s)
  | Infinity s, Infinity t => if Bool.eqb s t then NaN else Infinity s
  | _, _ => NaN
  end.

Definition mul (a b : number) : number :=
  match a, b with
  | Num x, Num y => round64 (x * y)
  | Infinity s, Num y | Num y, Infinity s =>
      if Qeq_bool y 0 then NaN else Infinity (xorb s (negative y))
  | Infinity s, Infinity t => Infinity (xorb s t)
  | _, _ => NaN
  end.

(** [a / b]; a zero divisor is taken to be the positive zero. *)
Definition div (a b : number) : number :=
  match a, b with
  | Num x, Num y =>
      if Qeq_bool y 0
      then (if Qeq_bool x 0 then NaN else Infinity (negative x))
      else round64 (x / y)
  | Num _, Infinity _ => Num 0
  | Infinity s, Num y => Infinity (xorb s (negative y))
  | _, _ => NaN
  end.

(** Relational operators: every comparison with [NaN] is [false]. *)
Definition lt (a b : number) : bool :=
  match a, b with
  | Num x, Num y => negb (Qle_bool y x)
  | Infinity true, Num _ | Num _, Infinity false
  | Infinity true, Infinity false => true
  | _, _ => false
  end.

Definition gt (a b : number) : bool := lt b a.

Definition ge (a b : number) : bool :=
  match a, b with
  | Num x, Num y => Qle_bool y x
  | Infinity false, (Num _ | Infinity _) | Num _, Infinity true
  | Infinity true, Infinity true => true
  | _, _ => false
  end.

(** [Math.ceil] and [Math.round]; the latter rounds a tie towards
    plus infinity, that is [floor (x + 1/2)].  Both results are integers of
    the format when the argument is a value of the format. *)
Definition Math_ceil (a : number) : number :=
  match a with
  | Num x => of_Z (Qceiling x)
  | Infinity s => Infinity s
  | NaN => NaN
  end.

Definition Math_round (a : number) : number :=
  match a with
  | Num x => of_Z (Qfloor (x + (1 # 2)))
  | Infinity s => Infinity s
  | NaN => NaN
  end.

(** Truthiness of a number ([0] and [NaN] are falsy) and of a string
    (the empty string is falsy). *)
Definition truthy (a : number) : bool :=
  match a with
  | Num x => negb (Qeq_bool x 0)
  | Infinity _ => true
  | NaN => false
  end.

Definition truthy_str (s : string) : bool :=
  match s with
  | EmptyString => false
  | String _ _ => true
  end.

(** [a || b] on numbers and on strings. *)
Definition or (a b : number) : number := if truthy a then a else b.

Definition or_str (a b : string) : string := if truthy_str a then a else b.

(** [x] denotes the rational [q]. *)
Definition denotes (x : number) (q : Q) : Prop :=
  match x with
  | Num p => p == q
  | _ => False
  end.

(** A finite value of the format: [m * 2 ^ j] with fewer than 54
    significant bits and an exponent of the format. *)
Definition binary64 (q : Q) : Prop :=
  exists m j : Z,
    q == inject_Z m * 2 ^ j /\ (Z.abs m < 2 ^ 53)%Z /\ (-1074 <= j <= 971)%Z.

End JS.

Import JS.

(** ** Time values of date-only strings

    [new Date(s).getTime()] for the strings an [<input type="date">]
    produces, [YYYY-MM-DD]: midnight UTC of that civil day, in
    milliseconds since the epoch.  Any other string is given [NaN]
    (an invalid date) by this function; the component itself is written
    against an arbitrary parser, see [Ctx]. *)

Definition digit (a : ascii) : option Z :=
  let n := Z.of_nat (nat_of_ascii a) in
  if (48 <=? n) && (n <=? 57) then Some (n - 48) else None.

Definition is_leap (y : Z) : bool :=
  ((y mod 4 =? 0) && negb (y mod 100 =? 0)) || (y mod 400 =? 0).

Definition days_in_month (y m : Z) : Z :=
  if m =? 2 then (if is_leap y then 29 else 28)
  else if (m =? 4) || (m =? 6) || (m =? 9) || (m =? 11) then 30
  else 31.

(** Days between 1970-01-01 and the civil day [y]-[m]-[d] of the
    proleptic Gregorian calendar. *)
Definition days_from_civil (y m d : Z) : Z :=
  let y' := if m <=? 2 then y - 1 else y in
  let era := y' / 400 in
  let yoe := y' - era * 400 in
  let mp := (m + 9) mod 12 in
  let doy := (153 * mp + 2) / 5 + d - 1 in
  let doe := yoe * 365 + yoe / 4 - yoe / 100 + doy in
  era * 146097 + doe - 719468.

Definition msPerDay : Z := 1000 * 60 * 60 * 24.

(** The greatest time value of the language: 100,000,000 days from the
    epoch.  [getTime] returns [NaN] or a whole number of milliseconds of at
    most this magnitude. *)
Definition maxTime : Z := 100000000 * msPerDay.

Definition iso_fields (s : string) : option (Z * Z * Z) :=
  match list_ascii_of_string s with
  | [y1; y2; y3; y4; h1; m1; m2; h2; d1; d2] =>
      match digit y1, digit y2, digit y3, digit y4,
            digit m1, digit m2, digit d1, digit d2 with
      | Some a, Some b, Some c, Some e, Some f, Some g, Some h, Some i =>
          if (Ascii.eqb h1 "-") && (Ascii.eqb h2 "-")
          then Some (1000 * a + 100 * b + 10 * c + e, 10 * f + g, 10 * h + i)
          else None
      | _, _, _, _, _, _, _, _ => None
      end
  | _ => None
  end.

Definition iso_date_only (s : string) : number :=
  match iso_fields s with
  | Some (y, m, d) =>
      if (1 <=? m) && (m <=? 12) && (1 <=? d) && (d <=? days_in_month y m)
      then of_Z (days_from_civil y m d * msPerDay)
      else NaN
  | None => NaN
  end.

(** ** Data of the page *)

(** [interface PricingRule]. *)
Record PricingRule : Type := {
  base_price_per_night : Q;
  cleaning_fee : Q;
  pet_fee : Q;
  security_deposit : Q;
  min_stay_nights : Q;
  check_in_time : string;
  check_out_time : string
}.

(** The fields of the fetched property record the booking logic reads
    (the others are only displayed). *)
Record Property : Type := {
  property_id : string;
  berths : Q;
  pet_friendly : bool;
  property_pricing_rules : option (list PricingRule)
}.

Record User : Type := {
  email : option string
}.

(** What the remote functions answer on success. *)
Record Availability : Type := {
  available : bool
}.

Record BookingRecord : Type := {
  booking_id : string;
  booking_status : string
}.

Record BookingData : Type := {
  booking : BookingRecord
}.

Record PaymentIntentData : Type := {
  clientSecret : string;
  intentId : string
}.

(** Result of [supabase.functions.invoke]: a transport error
    ([if (error) throw error]), an error reported in the body
    ([if (data.error) throw new Error(data.error.message)]) or the
    payload [data.data].  Either error is thrown with its message; a body
    that is [null] makes [data.error] throw a [TypeError], which is a
    thrown error with its message like the first.  The payload of
    create-booking is an [option]: the code stores [data.data] as it
    comes, and it may be [null]. *)
Inductive InvokeResult (A : Type) : Type :=
| FunctionsError (message : string)
| DataError (message : string)
| Data (d : A).

Arguments FunctionsError {A} message.
Arguments DataError {A} message.
Arguments Data {A} d.

(** Result of [stripe.confirmCardPayment]: [{ error }] or
    [{ paymentIntent }] with its [id] and [status]. *)
Inductive StripeResult : Type :=
| StripeError (message : option string)
| StripePaymentIntent (pi_id : string) (pi_status : string).

(** [new Error(m).message]: an undefined message gives the empty string. *)
Definition Error_message (m : option string) : string :=
  match m with
  | Some s => s
  | None => ""
  end.

(** What the component closes over besides its own state: the runtime's
    date parser and [parseInt], its two props and the results of the
    [useAuth], [useStripe] and [useElements] hooks. *)
Record Ctx : Type := {
  Date_parse : string -> number;
  parseInt : string -> number;
  property : Property;
  pricing : PricingRule;
  user : option User;
  stripe : bool;
  elements : bool
}.

(** [TimeClip]: the time value a [Date] holds is [NaN] or a whole number
    of milliseconds of magnitude at most [maxTime]. *)
Definition TimeClip (t : number) : number :=
  match t with
  | Num q =>
      if Qle_bool (Qabs q) (inject_Z maxTime)
      then of_Z (Z.quot (Qnum q) (Zpos (Qden q)))
      else NaN
  | NaN | Infinity _ => NaN
  end.

(** [new Date(s).getTime()]: the constructor clips what the parser
    returns. *)
Definition Date_getTime (E : Ctx) (s : string) : number :=
  TimeClip (Date_parse E s).

Arguments Date_getTime : simpl never.

(** A [useMutation] observer: [isPending], which the markup reads, and
    the number of requests that have not settled yet. *)
Record Mutation : Type := {
  isPending : bool;
  inFlight : nat
}.

(** An execution of [handlePaymentSubmit] suspended at one of its three
    [await]s.  The card and confirm steps carry the [bookingData] the
    handler closed over when the button was pressed. *)
Inductive PayTask : Type :=
| AwaitIntent
| AwaitCard (closure_bookingData : option BookingData)
| AwaitConfirm (closure_bookingData : option BookingData).

(** The [useState] cells of [BookingForm] (lines 71-81), followed by what
    is in flight: the two mutations whose [isPending] the markup reads and
    the suspended executions of [handlePaymentSubmit], oldest first. *)
Record State : Type := {
  startDate : string;
  endDate : string;
  adults : number;
  children : number;
  infants : number;
  pets : number;
  specialRequests : string;
  currentStep : Z;
  bookingData : option BookingData;
  paymentIntent : option PaymentIntentData;
  isProcessing : bool;
  checkAvailabilityMutation : Mutation;
  createBookingMutation : Mutation;
  paymentTasks : list PayTask
}.

Definition setStartDate (v : string) (st : State) : State :=
  {| startDate := v; endDate := endDate st; adults := adults st;
     children := children st; infants := infants st; pets := pets st;
     specialRequests := specialRequests st; currentStep := currentStep st;
     bookingData := bookingData st; paymentIntent := paymentIntent st;
     isProcessing := isProcessing st;
     checkAvailabilityMutation := checkAvailabilityMutation st;
     createBookingMutation := createBookingMutation st;
     paymentTasks := paymentTasks st |}.

Definition setEndDate (v : string) (st : State) : State :=
  {| startDate := startDate st; endDate := v; adults := adults st;
     children := children st; infants := infants st; pets := pets st;
     specialRequests := specialRequests st; currentStep := currentStep st;
     bookingData := bookingData st; paymentIntent := paymentIntent st;
     isProcessing := isProcessing st;
     checkAvailabilityMutation := checkAvailabilityMutation st;
     createBookingMutation := createBookingMutation st;
     paymentTasks := paymentTasks st |}.

Definition setAdults (v : number) (st : State) : State :=
  {| startDate := startDate st; endDate := endDate st; adults := v;
     children := children st; infants := infants st; pets := pets st;
     specialRequests := specialRequests st; currentStep := currentStep st;
     bookingData := bookingData st; paymentIntent := paymentIntent st;
     isProcessing := isProcessing st;
     checkAvailabilityMutation := checkAvailabilityMutation st;
     createBookingMutation := createBookingMutation st;
     paymentTasks := paymentTasks st |}.

Definition setChildren (v : number) (st : State) : State :=
  {| startDate := startDate st; endDate := endDate st; adults := adults st;
     children := v; infants := infants st; pets := pets st;
     specialRequests := specialRequests st; currentStep := currentStep st;
     bookingData := bookingData st; paymentIntent := paymentIntent st;
     isProcessing := isProcessing st;
     checkAvailabilityMutation := checkAvailabilityMutation st;
     createBookingMutation := createBookingMutation st;
     paymentTasks := paymentTasks st |}.

Definition setInfants (v : number) (st : State) : State :=
  {| startDate := startDate st; endDate := endDate st; adults := adults st;
     children := children st; infants := v; pets := pets st;
     specialRequests := specialRequests st; currentStep := currentStep st;
     bookingData := bookingData st; paymentIntent := paymentIntent st;
     isProcessing := isProcessing st;
     checkAvailabilityMutation := checkAvailabilityMutation st;
     createBookingMutation := createBookingMutation st;
     paymentTasks := paymentTasks st |}.

Definition setPets (v : number) (st : State) : State :=
  {| startDate := startDate st; endDate := endDate st; adults := adults st;
     children := children st; infants := infants st; pets := v;
     specialRequests := specialRequests st; currentStep := currentStep st;
     bookingData := bookingData st; paymentIntent := paymentIntent st;
     isProcessing := isProcessing st;
     checkAvailabilityMutation := checkAvailabilityMutation st;
     createBookingMutation := createBookingMutation st;
     paymentTasks := paymentTasks st |}.

Definition setSpecialRequests (v : string) (st : State) : State :=
  {| startDate := startDate st; endDate := endDate st; adults := adults st;
     children := children st; infants := infants st; pets := pets st;
     specialRequests := v; currentStep := currentStep st;
     bookingData := bookingData st; paymentIntent := paymentIntent st;
     isProcessing := isProcessing st;
     checkAvailabilityMutation := checkAvailabilityMutation st;
     createBookingMutation := createBookingMutation st;
     paymentTasks := paymentTasks st |}.

Definition setCurrentStep (v : Z) (st : State) : State :=
  {| startDate := startDate st; endDate := endDate st; adults := adults st;
     children := children st; infants := infants st; pets := pets st;
     specialRequests := specialRequests st; currentStep := v;
     bookingData := bookingData st; paymentIntent := paymentIntent st;
     isProcessing := isProcessing st;
     checkAvailabilityMutation := checkAvailabilityMutation st;
     createBookingMutation := createBookingMutation st;
     paymentTasks := paymentTasks st |}.

Definition setBookingData (v : option BookingData) (st : State) : State :=
  {| startDate := startDate st; endDate := endDate st; adults := adults st;
     children := children st; infants := infants st; pets := pets st;
     specialRequests := specialRequests st; currentStep := currentStep st;
     bookingData := v; paymentIntent := paymentIntent st;
     isProcessing := isProcessing st;
     checkAvailabilityMutation := checkAvailabilityMutation st;
     createBookingMutation := createBookingMutation st;
     paymentTasks := paymentTasks st |}.

Definition setPaymentIntent (v : option PaymentIntentData) (st : State) : State :=
  {| startDate := startDate st; endDate := endDate st; adults := adults st;
     children := children st; infants := infants st; pets := pets st;
     specialRequests := specialRequests st; currentStep := currentStep st;
     bookingData := bookingData st; paymentIntent := v;
     isProcessing := isProcessing st;
     checkAvailabilityMutation := checkAvailabilityMutation st;
     createBookingMutation := createBookingMutation st;
     paymentTasks := paymentTasks st |}.

Definition setIsProcessing (v : bool) (st : State) : State :=
  {| startDate := startDate st; endDate := endDate st; adults := adults st;
     children := children st; infants := infants st; pets := pets st;
     specialRequests := specialRequests st; currentStep := currentStep st;
     bookingData := bookingData st; paymentIntent := paymentIntent st;
     isProcessing := v;
     checkAvailabilityMutation := checkAvailabilityMutation st;
     createBookingMutation := createBookingMutation st;
     paymentTasks := paymentTasks st |}.

Definition withCheckAvailabilityMutation (v : Mutation) (st : State) : State :=
  {| startDate := startDate st; endDate := endDate st; adults := adults st;
     children := children st; infants := infants st; pets := pets st;
     specialRequests := specialRequests st; currentStep := currentStep st;
     bookingData := bookingData st; paymentIntent := paymentIntent st;
     isProcessing := isProcessing st;
     checkAvailabilityMutation := v;
     createBookingMutation := createBookingMutation st;
     paymentTasks := paymentTasks st |}.

Definition withCreateBookingMutation (v : Mutation) (st : State) : State :=
  {| startDate := startDate st; endDate := endDate st; adults := adults st;
     children := children st; infants := infants st; pets := pets st;
     specialRequests := specialRequests st; currentStep := currentStep st;
     bookingData := bookingData st; paymentIntent := paymentIntent st;
     isProcessing := isProcessing st;
     checkAvailabilityMutation := checkAvailabilityMutation st;
     createBookingMutation := v;
     paymentTasks := paymentTasks st |}.

Definition withPaymentTasks (v : list PayTask) (st : State) : State :=
  {| startDate := startDate st; endDate := endDate st; adults := adults st;
     children := children st; infants := infants st; pets := pets st;
     specialRequests := specialRequests st; currentStep := currentStep st;
     bookingData := bookingData st; paymentIntent := paymentIntent st;
     isProcessing := isProcessing st;
     checkAvailabilityMutation := checkAvailabilityMutation st;
     createBookingMutation := createBookingMutation st;
     paymentTasks := v |}.

(** [mutate()] starts a request and makes the mutation pending; the
    request that settles last makes it idle again. *)
Definition mutate (m : Mutation) : Mutation :=
  {| isPending := true; inFlight := S (inFlight m) |}.

Definition settle (m : Mutation) : Mutation :=
  {| isPending := match inFlight m with
                  | 1%nat => false
                  | _ => isPending m
                  end;
     inFlight := pred (inFlight m) |}.

Definition idle : Mutation := {| isPending := false; inFlight := 0 |}.

(** ** Effects *)

(** Toast texts: the literals of the source and its two template
    literals. *)
Inductive Text : Type :=
| Lit (s : string)
| Minimum_stay_is_nights (n : Q)
| Property_sleeps_maximum_guests (n : Q).

(** Body of the [create_booking] request. *)
Record BookingRequest : Type := {
  req_property_id : string;
  req_start_date : string;
  req_end_date : string;
  req_adults : number;
  req_children : number;
  req_infants : number;
  req_pets : number;
  req_special_requests : string;
  req_pricing : PricingRule
}.

Inductive RemoteCall : Type :=
| Check_availability (prop start_date end_date : string)
| Create_booking (body : BookingRequest)
| Create_payment_intent (booking : string) (amount : number) (currency : string)
| Stripe_confirmCardPayment (secret : string) (billing_email : option string)
| Confirm_payment (payment_intent booking : string).

Inductive Effect : Type :=
| Toast_success (t : Text)
| Toast_error (t : Text)
| Console_error (label message : string)
| Navigate (path : string)
| Remote (c : RemoteCall).

(** ** The render-time price breakdown (lines 84-91) *)

Definition nights (E : Ctx) (st : State) : number :=
  if truthy_str (startDate st) && truthy_str (endDate st)
  then Math_ceil
         (div (sub (Date_getTime E (endDate st)) (Date_getTime E (startDate st)))
              (of_Z (1000 * 60 * 60 * 24)))
  else of_Z 0.

Definition basePrice (E : Ctx) (st : State) : number :=
  mul (Num (base_price_per_night (pricing E))) (nights E st).

Definition cleaningFee (E : Ctx) : number :=
  or (Num (cleaning_fee (pricing E))) (of_Z 0).

Definition petFee (E : Ctx) (st : State) : number :=
  if gt (pets st) (of_Z 0) then or (Num (pet_fee (pricing E))) (of_Z 0) else of_Z 0.

Definition serviceFee (E : Ctx) (st : State) : number :=
  Math_round (mul (basePrice E st) (literal (12 # 100))).

Definition totalPrice (E : Ctx) (st : State) : number :=
  add (add (add (basePrice E st) (cleaningFee E)) (petFee E st)) (serviceFee E st).

(** ** The mutations (lines 93-174) *)

Definition checkAvailabilityMutation_mutate (E : Ctx) (st : State)
  : State * list Effect :=
  (withCheckAvailabilityMutation (mutate (checkAvailabilityMutation st)) st,
   [Remote (Check_availability (property_id (property E)) (startDate st) (endDate st))]).

Definition checkAvailabilityMutation_settled (st : State) (r : InvokeResult Availability)
  : State * list Effect :=
  let st := withCheckAvailabilityMutation (settle (checkAvailabilityMutation st)) st in
  match r with
  | Data d =>
      if available d
      then (setCurrentStep 2 st,
            [Toast_success (Lit "Property is available for your dates!")])
      else (st, [Toast_error (Lit "Property is not available for selected dates")])
  | FunctionsError m | DataError m =>
      (st, [Toast_error (Lit (or_str m "Failed to check availability"))])
  end.

Definition createBookingMutation_mutate (E : Ctx) (st : State)
  : State * list Effect :=
  (withCreateBookingMutation (mutate (createBookingMutation st)) st,
   [Remote (Create_booking
              {| req_property_id := property_id (property E);
                 req_start_date := startDate st;
                 req_end_date := endDate st;
                 req_adults := adults st;
                 req_children := children st;
                 req_infants := infants st;
                 req_pets := pets st;
                 req_special_requests := specialRequests st;
                 req_pricing := pricing E |})]).

Definition createBookingMutation_settled (st : State)
  (r : InvokeResult (option BookingData)) : State * list Effect :=
  let st := withCreateBookingMutation (settle (createBookingMutation st)) st in
  match r with
  | Data d =>
      (setCurrentStep 3 (setBookingData d st),
       [Toast_success (Lit "Booking created! Proceed to payment.")])
  | FunctionsError m | DataError m =>
      (st, [Toast_error (Lit (or_str m "Failed to create booking"))])
  end.

(** ** The submit handlers (lines 176-257) *)

Definition handleDateSubmit (E : Ctx) (st : State) : State * list Effect :=
  if negb (truthy_str (startDate st)) || negb (truthy_str (endDate st))
  then (st, [Toast_error (Lit "Please select check-in and check-out dates")])
  else if ge (Date_getTime E (startDate st)) (Date_getTime E (endDate st))
  then (st, [Toast_error (Lit "Check-out date must be after check-in date")])
  else if lt (nights E st) (Num (min_stay_nights (pricing E)))
  then (st, [Toast_error (Minimum_stay_is_nights (min_stay_nights (pricing E)))])
  else checkAvailabilityMutation_mutate E st.

Definition handleBookingSubmit (E : Ctx) (st : State) : State * list Effect :=
  match user E with
  | None => (st, [Toast_error (Lit "Please log in to make a booking"); Navigate "/auth"])
  | Some _ =>
      if gt (add (adults st) (children st)) (Num (berths (property E)))
      then (st, [Toast_error (Property_sleeps_maximum_guests (berths (property E)))])
      else createBookingMutation_mutate E st
  end.

(** The [catch] and [finally] blocks of [handlePaymentSubmit]. *)
Definition catch_payment (message : string) : list Effect :=
  [Console_error "Payment error:" message;
   Toast_error (Lit (or_str message "Payment failed"))].

Definition finally_payment (rest : list PayTask) (st : State) : State :=
  setIsProcessing false (withPaymentTasks rest st).

(** Message of the [TypeError] raised by [bookingData.booking] when
    [bookingData] is [null]. *)
Definition TypeError_booking : string :=
  "Cannot read properties of null (reading 'booking')".

(** [handlePaymentSubmit] up to its first [await].  [cardElement] tells
    whether [elements.getElement(CardElement)] is non-null. *)
Definition handlePaymentSubmit (E : Ctx) (st : State) (cardElement : bool)
  : State * list Effect :=
  if negb (stripe E) || negb (elements E) then (st, [])
  else
    match paymentIntent st with
    | None =>
        match bookingData st with
        | Some bd =>
            (withPaymentTasks (paymentTasks st ++ [AwaitIntent]) (setIsProcessing true st),
             [Remote (Create_payment_intent (booking_id (booking bd)) (totalPrice E st) "gbp")])
        | None =>
            (setIsProcessing false st,
             Toast_error (Lit (or_str TypeError_booking "Failed to create payment intent"))
               :: catch_payment TypeError_booking)
        end
    | Some intent =>
        if cardElement
        then (withPaymentTasks (paymentTasks st ++ [AwaitCard (bookingData st)])
                (setIsProcessing true st),
              [Remote (Stripe_confirmCardPayment (clientSecret intent)
                         (match user E with
                          | Some u => email u
                          | None => None
                          end))])
        else (setIsProcessing false st, catch_payment "Card element not found")
    end.

(** After [await createPaymentIntentMutation.mutateAsync()]: the
    mutation's [onSuccess] or [onError], then [return] or [catch]. *)
Definition handlePaymentSubmit_afterIntent
  (st : State) (rest : list PayTask) (r : InvokeResult PaymentIntentData)
  : State * list Effect :=
  match r with
  | Data d =>
      (finally_payment rest (setPaymentIntent (Some d) st),
       [Toast_success (Lit "Ready to process payment")])
  | FunctionsError m | DataError m =>
      (finally_payment rest st,
       Toast_error (Lit (or_str m "Failed to create payment intent")) :: catch_payment m)
  end.

(** After [await stripe.confirmCardPayment(...)]. *)
Definition handlePaymentSubmit_afterCard
  (st : State) (closure_bookingData : option BookingData) (rest : list PayTask)
  (r : StripeResult) : State * list Effect :=
  match r with
  | StripeError m => (finally_payment rest st, catch_payment (Error_message m))
  | StripePaymentIntent pid status =>
      if String.eqb status "succeeded"
      then match closure_bookingData with
           | Some bd =>
               (withPaymentTasks (AwaitConfirm closure_bookingData :: rest) st,
                [Remote (Confirm_payment pid (booking_id (booking bd)))])
           | None => (finally_payment rest st, catch_payment TypeError_booking)
           end
      else (finally_payment rest st, [])
  end.

(** After [await supabase.functions.invoke(... confirm_payment ...)]. *)
Definition handlePaymentSubmit_afterConfirm
  (st : State) (rest : list PayTask) (r : InvokeResult unit)
  : State * list Effect :=
  match r with
  | Data _ =>
      (finally_payment rest (setCurrentStep 4 st),
       [Toast_success (Lit "Payment successful! Booking confirmed!")])
  | FunctionsError m | DataError m => (finally_payment rest st, catch_payment m)
  end.

(** ** Events and the markup that enables them (lines 365-575) *)

Inductive Event : Type :=
| Change_startDate (v : string)
| Change_endDate (v : string)
| Click_checkAvailability
| Change_adults (n : Z)
| Change_children (n : Z)
| Change_infants (n : Z)
| Change_pets (n : Z)
| Change_specialRequests (v : string)
| Click_back
| Click_continueToPayment
| Click_pay (cardElement : bool)
| Click_viewMyBookings
| Settled_checkAvailability (r : InvokeResult Availability)
| Settled_createBooking (r : InvokeResult (option BookingData))
| Settled_createPaymentIntent (r : InvokeResult PaymentIntentData)
| Settled_confirmCardPayment (r : StripeResult)
| Settled_confirmPayment (r : InvokeResult unit).

(** A [<select>] only offers its [<option>] values. *)
Definition offers (options : list Z) (n : Z) : bool := existsb (Z.eqb n) options.

(** One event of the component: [None] when the control is not rendered
    at the current step, is disabled, or nothing of that kind is in
    flight. *)
Definition step (E : Ctx) (st : State) (ev : Event) : option (State * list Effect) :=
  match ev with
  | Change_startDate v =>
      if currentStep st =? 1 then Some (setStartDate v st, []) else None
  | Change_endDate v =>
      if currentStep st =? 1 then Some (setEndDate v st, []) else None
  | Click_checkAvailability =>
      if (currentStep st =? 1)
         && negb (negb (truthy_str (startDate st)) || negb (truthy_str (endDate st))
                  || isPending (checkAvailabilityMutation st))
      then Some (handleDateSubmit E st) else None
  | Change_adults n =>
      if (currentStep st =? 2) && offers [1; 2; 3; 4; 5; 6; 7; 8] n
      then Some (setAdults (of_Z n) st, []) else None
  | Change_children n =>
      if (currentStep st =? 2) && offers [0; 1; 2; 3; 4; 5; 6] n
      then Some (setChildren (of_Z n) st, []) else None
  | Change_infants n =>
      if (currentStep st =? 2) && offers [0; 1; 2; 3] n
      then Some (setInfants (of_Z n) st, []) else None
  | Change_pets n =>
      if (currentStep st =? 2) && offers [0; 1; 2; 3] n
         && negb (negb (pet_friendly (property E)))
      then Some (setPets (of_Z n) st, []) else None
  | Change_specialRequests v =>
      if currentStep st =? 2 then Some (setSpecialRequests v st, []) else None
  | Click_back =>
      if currentStep st =? 2 then Some (setCurrentStep 1 st, [])
      else if currentStep st =? 3 then Some (setCurrentStep 2 st, [])
      else None
  | Click_continueToPayment =>
      if (currentStep st =? 2) && negb (isPending (createBookingMutation st))
      then Some (handleBookingSubmit E st) else None
  | Click_pay cardElement =>
      if (currentStep st =? 3)
         && negb (isProcessing st || negb (stripe E) || negb (elements E))
      then Some (handlePaymentSubmit E st cardElement) else None
  | Click_viewMyBookings =>
      if currentStep st =? 4 then Some (st, [Navigate "/dashboard"]) else None
  | Settled_checkAvailability r =>
      match inFlight (checkAvailabilityMutation st) with
      | O => None
      | S _ => Some (checkAvailabilityMutation_settled st r)
      end
  | Settled_createBooking r =>
      match inFlight (createBookingMutation st) with
      | O => None
      | S _ => Some (createBookingMutation_settled st r)
      end
  | Settled_createPaymentIntent r =>
      match paymentTasks st with
      | AwaitIntent :: rest => Some (handlePaymentSubmit_afterIntent st rest r)
      | _ => None
      end
  | Settled_confirmCardPayment r =>
      match paymentTasks st with
      | AwaitCard bd :: rest => Some (handlePaymentSubmit_afterCard st bd rest r)
      | _ => None
      end
  | Settled_confirmPayment r =>
      match paymentTasks st with
      | AwaitConfirm _ :: rest => Some (handlePaymentSubmit_afterConfirm st rest r)
      | _ => None
      end
  end.

(** A run of events, with the effects in the order they happen. *)
Fixpoint exec (E : Ctx) (st : State) (evs : list Event) : option (State * list Effect) :=
  match evs with
  | [] => Some (st, [])
  | ev :: evs' =>
      match step E st ev with
      | None => None
      | Some (st', eff) =>
          match exec E st' evs' with
          | None => None
          | Some (st'', eff') => Some (st'', (eff ++ eff')%list)
          end
      end
  end.

(** ** Mounting the form (lines 70-81 and 640-669) *)

Record SearchParams : Type := {
  sp_start_date : option string;
  sp_end_date : option string;
  sp_adults : option string;
  sp_children : option string
}.

(** [searchParams.get(k) || d]. *)
Definition get_or (v : option string) (d : string) : string :=
  match v with
  | Some s => or_str s d
  | None => d
  end.

Definition initialState (E : Ctx) (sp : SearchParams) : State :=
  {| startDate := get_or (sp_start_date sp) "";
     endDate := get_or (sp_end_date sp) "";
     adults := parseInt E (get_or (sp_adults sp) "2");
     children := parseInt E (get_or (sp_children sp) "0");
     infants := of_Z 0;
     pets := of_Z 0;
     specialRequests := "";
     currentStep := 1;
     bookingData := None;
     paymentIntent := None;
     isProcessing := false;
     checkAvailabilityMutation := idle;
     createBookingMutation := idle;
     paymentTasks := [] |}.

Definition default_pricing : PricingRule :=
  {| base_price_per_night := 100;
     cleaning_fee := 25;
     pet_fee := 15;
     security_deposit := 100;
     min_stay_nights := 2;
     check_in_time := "15:00";
     check_out_time := "11:00" |}.

(** [property.property_pricing_rules?.[0] || { ... }]. *)
Definition BookingPage_pricing (p : Property) : PricingRule :=
  match property_pricing_rules p with
  | Some (r :: _) => r
  | Some [] | None => default_pricing
  end.

(** [<BookingForm property={property} pricing={pricing} />]. *)
Definition BookingPage
  (getTime parse_int : string -> number) (p : Property)
  (u : option User) (stripe_loaded elements_loaded : bool) : Ctx :=
  {| Date_parse := getTime;
     parseInt := parse_int;
     property := p;
     pricing := BookingPage_pricing p;
     user := u;
     stripe := stripe_loaded;
     elements := elements_loaded |}.

(** [parseInt] on a string of decimal digits; any other string is given
    [NaN] by this function (the component is written against an arbitrary
    [parseInt], see [Ctx]). *)
Fixpoint digits_value (acc : Z) (l : list ascii) : option Z :=
  match l with
  | [] => Some acc
  | a :: l' =>
      match digit a with
      | Some d => digits_value (10 * acc + d) l'
      | None => None
      end
  end.

Definition parseInt_decimal (s : string) : number :=
  match list_ascii_of_string s with
  | [] => NaN
  | l => match digits_value 0 l with
         | Some z => of_Z z
         | None => NaN
         end
  end.

(** ** The validation contract in the words of the specification

    Section 4.3 of the specification: one validation before submission,
    five rules, the first violated rule wins.  It is compared below with
    what [handleDateSubmit] and [handleBookingSubmit] check. *)

Inductive ValidationError : Type :=
| DatesMissingError
| InvalidDateRangeError
| StayTooShortError
| OccupancyExceededError
| PetsNotAllowedError.

Definition spec_validate (E : Ctx) (st : State) : option ValidationError :=
  if negb (truthy_str (startDate st) && truthy_str (endDate st))
  then Some DatesMissingError
  else if negb (gt (Date_getTime E (endDate st)) (Date_getTime E (startDate st)))
  then Some InvalidDateRangeError
  else if negb (ge (nights E st) (Num (min_stay_nights (pricing E))))
  then Some StayTooShortError
  else if negb (ge (Num (berths (property E))) (add (adults st) (children st)))
  then Some OccupancyExceededError
  else if gt (pets st) (of_Z 0) && negb (pet_friendly (property E))
  then Some PetsNotAllowedError
  else None.


(** ** Vocabulary of the statements *)

Definition is_error_toast (e : Effect) : bool :=
  match e with
  | Toast_error _ => true
  | _ => false
  end.

(** What the user sees of a list of effects: its toasts. *)
Definition toasts (l : list Effect) : list Effect :=
  filter (fun e => match e with
                   | Toast_success _ | Toast_error _ => true
                   | _ => false
                   end) l.

(** The calls of the payment step, and the booking they name. *)
Definition payment_call (c : RemoteCall) : bool :=
  match c with
  | Create_payment_intent _ _ _ | Stripe_confirmCardPayment _ _
  | Confirm_payment _ _ => true
  | Check_availability _ _ _ | Create_booking _ => false
  end.

Definition call_booking (c : RemoteCall) : option string :=
  match c with
  | Create_payment_intent b _ _ => Some b
  | Confirm_payment _ b => Some b
  | _ => None
  end.

(** The events that run a part of [handlePaymentSubmit]. *)
Definition payment_event (ev : Event) : bool :=
  match ev with
  | Click_pay _ | Settled_createPaymentIntent _
  | Settled_confirmCardPayment _ | Settled_confirmPayment _ => true
  | _ => false
  end.

(** The provider answered without an error and with a status other than
    ["succeeded"]. *)
Definition other_status (ev : Event) : bool :=
  match ev with
  | Settled_confirmCardPayment (StripePaymentIntent _ status) =>
      negb (String.eqb status "succeeded")
  | _ => false
  end.

(** Number of payment intents the remote system has handed to the flow. *)
Fixpoint intents_received (evs : list Event) : nat :=
  match evs with
  | [] => 0
  | Settled_createPaymentIntent (Data _) :: evs' => S (intents_received evs')
  | _ :: evs' => intents_received evs'
  end.

(** Invariants of the reachable states. *)

(** A create-booking call has returned the booking record [d]. *)
Definition record_returned (evs : list Event) (d : BookingData) : Prop :=
  In (Settled_createBooking (Data (Some d))) evs.

Definition booking_known (evs : list Event) (o : option BookingData) : Prop :=
  exists d, o = Some d /\ record_returned evs d.

(** A suspended execution of the payment handler was started for a
    booking record that create-booking returned; the one that waits for
    the card closed over whatever the state held, record or [null]. *)
Definition task_ok (evs : list Event) (t : PayTask) : Prop :=
  match t with
  | AwaitIntent => exists d, record_returned evs d
  | AwaitCard bd => forall d, bd = Some d -> record_returned evs d
  | AwaitConfirm bd => booking_known evs bd
  end.

Definition booking_inv (evs : list Event) (st : State) : Prop :=
  (3 <= currentStep st -> exists p, In (Settled_createBooking (Data p)) evs)
  /\ ((exists p, In (Settled_createBooking (Data p)) evs) ->
      In (Settled_createBooking (Data (bookingData st))) evs)
  /\ (forall d, bookingData st = Some d -> record_returned evs d)
  /\ (paymentIntent st <> None -> exists d, record_returned evs d)
  /\ Forall (task_ok evs) (paymentTasks st).

Definition single_flight (m : Mutation) : Prop :=
  (isPending m = true /\ inFlight m = 1%nat)
  \/ (isPending m = false /\ inFlight m = 0%nat).

Definition payment_inv (evs : list Event) (st : State) : Prop :=
  (paymentTasks st = []
   \/ (isProcessing st = true
       /\ exists t, paymentTasks st = [t]
                    /\ (t = AwaitIntent -> paymentIntent st = None)))
  /\ intents_received evs = match paymentIntent st with
                            | Some _ => 1%nat
                            | None => 0%nat
                            end.

(** ** Sample values *)

Definition sample_user : User := {| email := Some "guest@example.com" |}.

Definition sample_property : Property :=
  {| property_id := "prop-1";
     berths := 4;
     pet_friendly := true;
     property_pricing_rules := None |}.

Definition sample_ctx : Ctx :=
  BookingPage iso_date_only parseInt_decimal sample_property (Some sample_user) true true.

Definition sample_params : SearchParams :=
  {| sp_start_date := Some "2025-06-01";
     sp_end_date := Some "2025-06-04";
     sp_adults := None;
     sp_children := None |}.

Definition sample_state : State := initialState sample_ctx sample_params.


Definition sample_booking : BookingData :=
  {| booking := {| booking_id := "bk-1"; booking_status := "pending" |} |}.

Definition sample_intent : PaymentIntentData :=
  {| clientSecret := "pi_1_secret"; intentId := "pi_1" |}.

(** The sample page for a property with one rate card. *)
Definition sample_ctx_with (r : PricingRule) : Ctx :=
  BookingPage iso_date_only parseInt_decimal
    {| property_id := "prop-1";
       berths := 4;
       pet_friendly := true;
       property_pricing_rules := Some [r] |}
    (Some sample_user) true true.

(** A rate card with the nightly rate 89.99, that is the binary64 value
    the number denotes. *)
Definition sample_fractional_rate : PricingRule :=
  {| base_price_per_night := 6332483288547983 # 70368744177664;
     cleaning_fee := 25;
     pet_fee := 15;
     security_deposit := 100;
     min_stay_nights := 2;
     check_in_time := "15:00";
     check_out_time := "11:00" |}.

(** A rate card with the cleaning fee 24.99 and the pet fee 14.99. *)
Definition sample_fractional_fees : PricingRule :=
  {| base_price_per_night := 100;
     cleaning_fee := 7034059667999293 # 281474976710656;
     pet_fee := 8438619801785467 # 562949953421312;
     security_deposit := 100;
     min_stay_nights := 2;
     check_in_time := "15:00";
     check_out_time := "11:00" |}.

(** A rate card whose nightly rate is the whole number [2 ^ 53 - 1]. *)
Definition sample_huge_rate : PricingRule :=
  {| base_price_per_night := 9007199254740991;
     cleaning_fee := 25;
     pet_fee := 15;
     security_deposit := 100;
     min_stay_nights := 2;
     check_in_time := "15:00";
     check_out_time := "11:00" |}.

(** A parser that also knows two instants written with expanded years:
    midnight UTC of 1 January of the year -100000, and one millisecond
    past midnight UTC of 14 October of the year 185426. *)
Definition far_apart_getTime (s : string) : number :=
  if String.eqb s "-100000-01-01T00:00:00.000Z"
  then of_Z (days_from_civil (-100000) 1 1 * msPerDay)
  else if String.eqb s "+185426-10-14T00:00:00.001Z"
  then of_Z (days_from_civil 185426 10 14 * msPerDay + 1)
  else iso_date_only s.

Definition sample_far_apart_ctx : Ctx :=
  BookingPage far_apart_getTime parseInt_decimal sample_property
    (Some sample_user) true true.

Definition sample_far_apart_state : State :=
  setEndDate "+185426-10-14T00:00:00.001Z"
    (setStartDate "-100000-01-01T00:00:00.000Z" sample_state).

(** The form at the payment step, a booking created, no intent yet. *)
Definition sample_paying : State :=
  setCurrentStep 3 (setBookingData (Some sample_booking) sample_state).

(** The same with the intent stored. *)
Definition sample_intent_held : State :=
  setPaymentIntent (Some sample_intent) sample_paying.

(** A complete run on [sample_ctx]. *)
Definition sample_run : list Event :=
  [ Click_checkAvailability;
    Settled_checkAvailability (Data {| available := true |});
    Click_continueToPayment;
    Settled_createBooking (Data (Some sample_booking));
    Click_pay true;
    Settled_createPaymentIntent (Data sample_intent);
    Click_pay true;
    Settled_confirmCardPayment (StripePaymentIntent "pi_1" "succeeded");
    Settled_confirmPayment (Data tt) ].




(** The texts of the error toasts of a list of effects, in order. *)
Fixpoint error_texts (l : list Effect) : list Text :=
  match l with
  | [] => []
  | Toast_error t :: l' => t :: error_texts l'
  | _ :: l' => error_texts l'
  end.

(** The message of the error a remote answer makes the code throw,
    with the fallback texts of the places that catch it, in the order in
    which they report: [onError] of the mutation (lines 117, 148 and 172)
    and the [catch] block of [handlePaymentSubmit] (line 252). *)
Definition caught (ev : Event) : option (string * list string) :=
  match ev with
  | Settled_checkAvailability (FunctionsError m | DataError m) =>
      Some (m, ["Failed to check availability"])
  | Settled_createBooking (FunctionsError m | DataError m) =>
      Some (m, ["Failed to create booking"])
  | Settled_createPaymentIntent (FunctionsError m | DataError m) =>
      Some (m, ["Failed to create payment intent"; "Payment failed"])
  | Settled_confirmCardPayment (StripeError m) =>
      Some (Error_message m, ["Payment failed"])
  | Settled_confirmPayment (FunctionsError m | DataError m) =>
      Some (m, ["Payment failed"])
  | _ => None
  end.

(** ** Further invariants of the flow *)

Definition availability_confirmed (evs : list Event) : Prop :=
  In (Settled_checkAvailability (Data {| available := true |})) evs.

Definition gate_inv (evs : list Event) (st : State) : Prop :=
  1 <= currentStep st <= 4
  /\ (2 <= currentStep st
      \/ inFlight (createBookingMutation st) <> 0%nat
      \/ paymentTasks st <> []
      -> availability_confirmed evs).

Definition processing_inv (st : State) : Prop :=
  (isProcessing st = true /\ exists t, paymentTasks st = [t])
  \/ (isProcessing st = false /\ paymentTasks st = []).

(** ** Strings, URLs and routes of the browser

    [split] is [String.prototype.split] with a one-character separator.
    A query string is parsed as [URLSearchParams] does, without the
    decoding of ["%"] and ["+"]: names and values free of these two
    characters are not changed by it. *)

Module Browser.

Fixpoint split (c : ascii) (s : string) : list string :=
  match s with
  | EmptyString => [EmptyString]
  | String a s' =>
      if Ascii.eqb a c then EmptyString :: split c s'
      else match split c s' with
           | piece :: pieces => String a piece :: pieces
           | [] => [String a EmptyString]
           end
  end.

(** [s.split(c)[0]]. *)
Definition split_head (c : ascii) (s : string) : string :=
  hd EmptyString (split c s).

(** The text after the first [c], if [c] occurs. *)
Fixpoint after_first (c : ascii) (s : string) : option string :=
  match s with
  | EmptyString => None
  | String a s' => if Ascii.eqb a c then Some s' else after_first c s'
  end.

Fixpoint occurs (c : ascii) (s : string) : bool :=
  match s with
  | EmptyString => false
  | String a s' => Ascii.eqb a c || occurs c s'
  end.

(** No character that ends the path, a parameter or the query. *)
Definition url_safe (s : string) : bool :=
  negb (occurs "?" s || occurs "#" s || occurs "&" s).

(** [URLSearchParams]: the list of name-value pairs, in order. *)
Definition URLSearchParams : Type := list (string * string).

Fixpoint get (ps : URLSearchParams) (name : string) : option string :=
  match ps with
  | [] => None
  | (k, v) :: ps' => if String.eqb k name then Some v else get ps' name
  end.

Definition remove_all (name : string) (ps : URLSearchParams) : URLSearchParams :=
  filter (fun kv => negb (String.eqb (fst kv) name)) ps.

(** [set]: the first pair of that name takes the value and the others
    of that name are removed; without such a pair one is appended. *)
Fixpoint set (name value : string) (ps : URLSearchParams) : URLSearchParams :=
  match ps with
  | [] => [(name, value)]
  | (k, v) :: ps' =>
      if String.eqb k name then (name, value) :: remove_all name ps'
      else (k, v) :: set name value ps'
  end.

Definition parse_pair (piece : string) : string * string :=
  (split_head "=" piece,
   match after_first "=" piece with
   | Some v => v
   | None => EmptyString
   end).

(** [new URLSearchParams(query)], for a query without its ["?"]. *)
Definition parse_query (query : string) : URLSearchParams :=
  map parse_pair (filter truthy_str (split "&" query)).

(** [pathname] and [search] (without the ["?"]) of a relative URL. *)
Definition pathname (href : string) : string :=
  split_head "?" (split_head "#" href).

Definition search (href : string) : string :=
  match after_first "?" (split_head "#" href) with
  | Some q => q
  | None => EmptyString
  end.

(** *** Route matching

    [matchPath] of the router for a pattern without [*]: the pattern is
    compiled to the regular expression

      [^/] segments joined by [/], then [\/*$], case-insensitive,

    where the segments of the pattern are those between its leading and
    trailing slashes, and a segment [:name] stands for [[^/]+] and binds
    [name].  So the path must start with a slash, may end with any number
    of slashes, and its letters may differ in case from the pattern's. *)

Definition param_of (segment : string) : option string :=
  match segment with
  | String a name => if Ascii.eqb a ":" then Some name else None
  | EmptyString => None
  end.

(** An ASCII letter in lower case; the flag [i] relates no other
    characters of a path to the letters of a pattern. *)
Definition lower (a : ascii) : ascii :=
  let n := nat_of_ascii a in
  if Nat.leb 65 n && Nat.leb n 90 then ascii_of_nat (n + 32) else a.

Fixpoint eqb_nocase (s t : string) : bool :=
  match s, t with
  | EmptyString, EmptyString => true
  | String a s', String b t' => Ascii.eqb (lower a) (lower b) && eqb_nocase s' t'
  | _, _ => false
  end.

Fixpoint strip_leading (c : ascii) (s : string) : string :=
  match s with
  | EmptyString => EmptyString
  | String a s' => if Ascii.eqb a c then strip_leading c s' else s
  end.

Fixpoint strip_trailing (c : ascii) (s : string) : string :=
  match s with
  | EmptyString => EmptyString
  | String a s' =>
      match strip_trailing c s' with
      | EmptyString => if Ascii.eqb a c then EmptyString else String a EmptyString
      | t => String a t
      end
  end.

(** The segments of a path without leading and trailing slashes; the
    empty path has none. *)
Definition segments (s : string) : list string :=
  match s with
  | EmptyString => []
  | _ => split "/" s
  end.

Fixpoint match_segments (pattern path : list string) : option (list (string * string)) :=
  match pattern, path with
  | [], [] => Some []
  | p :: pattern', x :: path' =>
      match param_of p with
      | Some name =>
          if truthy_str x
          then match match_segments pattern' path' with
               | Some params => Some ((name, x) :: params)
               | None => None
               end
          else None
      | None => if eqb_nocase p x then match_segments pattern' path' else None
      end
  | _, _ => None
  end.

Definition matchPath (pattern path : string) : option (list (string * string)) :=
  match path with
  | String a rest =>
      if Ascii.eqb a "/"
      then match_segments
             (segments (strip_leading "/" (strip_trailing "/" pattern)))
             (segments (strip_trailing "/" rest))
      else None
  | EmptyString => None
  end.

(** The names a pattern binds. *)
Fixpoint param_names (pattern : list string) : list string :=
  match pattern with
  | [] => []
  | p :: pattern' =>
      match param_of p with
      | Some name => name :: param_names pattern'
      | None => param_names pattern'
      end
  end.

End Browser.

(** ** The routes of the application (App.tsx, lines 30-38) *)

Inductive Page : Type :=
| HomePage_route
| SearchPage_route
| PropertyDetailPage_route
| BookingPage_route
| DashboardPage_route
| AuthPage_route
| AuthCallback_route.

Definition App_routes : list (string * Page) :=
  [ ("/", HomePage_route);
    ("/search", SearchPage_route);
    ("/property/:id", PropertyDetailPage_route);
    ("/booking/:id", BookingPage_route);
    ("/dashboard", DashboardPage_route);
    ("/auth", AuthPage_route);
    ("/auth/callback", AuthCallback_route) ].

(** Effects of the pages other than the booking form. *)
Inductive PageEffect : Type :=
| Page_toast_error (message : string)
| Page_toast_success (message : string)
| Location_href (href : string)
| Location_search (path : string) (params : Browser.URLSearchParams)
| Router_navigate (to : string)
| Remote_signIn (email password : string)
| Remote_signUp (email password fullName userType : string).

(** ** The booking page around the form (BookingPage.tsx, lines 582-673) *)

(** What [useQuery] returns to the page. *)
Record QueryResult : Type := {
  query_data : option Property;
  query_isLoading : bool
}.

(** [const { propertyId } = useParams()] and [enabled: !!propertyId]. *)
Definition BookingPage_propertyId (params : list (string * string)) : option string :=
  Browser.get params "propertyId".

Definition BookingPage_enabled (params : list (string * string)) : bool :=
  match BookingPage_propertyId params with
  | Some s => truthy_str s
  | None => false
  end.

Inductive BookingPage_View : Type :=
| Render_spinner
| Render_PropertyNotFound
| Render_BookingForm (form_property : Property) (form_pricing : PricingRule).

Definition BookingPage_render (q : QueryResult) : BookingPage_View :=
  if query_isLoading q then Render_spinner
  else match query_data q with
       | None => Render_PropertyNotFound
       | Some p => Render_BookingForm p (BookingPage_pricing p)
       end.

(** The four search parameters the form reads (lines 71-74). *)
Definition BookingForm_searchParams (ps : Browser.URLSearchParams) : SearchParams :=
  {| sp_start_date := Browser.get ps "start_date";
     sp_end_date := Browser.get ps "end_date";
     sp_adults := Browser.get ps "adults";
     sp_children := Browser.get ps "children" |}.

(** ** The property page's "Book now" (PropertyDetailPage.tsx, lines 82-96) *)

Module PropertyDetailPage.

Record State : Type := {
  id : option string;
  user : option User;
  checkIn : string;
  checkOut : string;
  guests : number
}.

(** [`${id}`]. *)
Definition template_id (v : option string) : string :=
  match v with
  | Some s => s
  | None => "undefined"
  end.

Definition handleBookNow (Number_toString : number -> string) (st : State)
  : list PageEffect :=
  match user st with
  | None => [Page_toast_error "Please sign in to make a booking"]
  | Some _ =>
      if negb (truthy_str (checkIn st)) || negb (truthy_str (checkOut st))
      then [Page_toast_error "Please select your dates"]
      else [Location_href
              ("/booking/" ++ template_id (id st)
               ++ "?checkin=" ++ checkIn st
               ++ "&checkout=" ++ checkOut st
               ++ "&guests=" ++ Number_toString (guests st))%string]
  end.

End PropertyDetailPage.

(** ** Search from the home page (HomePage.tsx, lines 101-109) and the
    filters of the search page (PropertyDetailPage.tsx, lines 423-432) *)

Module HomePage.

Record State : Type := {
  searchLocation : string;
  checkIn : string;
  checkOut : string;
  guests : number
}.

Definition set_if (cond : bool) (name value : string) (ps : Browser.URLSearchParams)
  : Browser.URLSearchParams :=
  if cond then Browser.set name value ps else ps.

Definition handleSearch (Number_toString : number -> string) (st : State)
  : list PageEffect :=
  let searchParams := [] in
  let searchParams :=
    set_if (truthy_str (searchLocation st)) "location" (searchLocation st) searchParams in
  let searchParams :=
    set_if (truthy_str (checkIn st)) "checkin" (checkIn st) searchParams in
  let searchParams :=
    set_if (truthy_str (checkOut st)) "checkout" (checkOut st) searchParams in
  let searchParams :=
    set_if (truthy (guests st)) "guests" (Number_toString (guests st)) searchParams in
  [Location_search "/search" searchParams].

End HomePage.

Module SearchPage.

Record Filters : Type := {
  location : string;
  checkIn : string;
  checkOut : string;
  guests : number;
  petFriendly : bool;
  priceRange : Q * Q
}.

Definition initialFilters (parse_int : string -> number)
  (searchParams : Browser.URLSearchParams) : Filters :=
  {| location := get_or (Browser.get searchParams "location") "";
     checkIn := get_or (Browser.get searchParams "checkin") "";
     checkOut := get_or (Browser.get searchParams "checkout") "";
     guests := parse_int (get_or (Browser.get searchParams "guests") "2");
     petFriendly := match Browser.get searchParams "pet_friendly" with
                    | Some v => String.eqb v "true"
                    | None => false
                    end;
     priceRange := (50, 300)%Q |}.

End SearchPage.

(** ** The dashboard (DashboardPage in BookingPage.tsx, lines 692-857;
    useUserProfile.ts, lines 57-62; OwnerDashboard.tsx) *)

Module Dashboard.

Record AuthUser : Type := {
  email : option string;
  metadata_full_name : option string;
  metadata_user_type : option string;
  metadata_role : option string
}.

Record UserProfile : Type := {
  full_name : option string;
  user_type : string
}.

(** [v === 'owner'] for a value that may be undefined. *)
Definition is_owner_value (v : option string) : bool :=
  match v with
  | Some s => String.eqb s "owner"
  | None => false
  end.

Definition isOwner (profile : option UserProfile) (user : option AuthUser) : bool :=
  match profile with
  | Some p => String.eqb (user_type p) "owner"
  | None => false
  end
  || match user with
     | Some u => is_owner_value (metadata_user_type u)
     | None => false
     end
  || match user with
     | Some u => is_owner_value (metadata_role u)
     | None => false
     end.

Inductive OwnerContent : Type :=
| DashboardOverview
| PropertiesPage
| OwnerBookingsPage
| MessagesPage
| AnalyticsPage.

Definition renderContent (activeSection : string) : OwnerContent :=
  if String.eqb activeSection "overview" then DashboardOverview
  else if String.eqb activeSection "properties" then PropertiesPage
  else if String.eqb activeSection "bookings" then OwnerBookingsPage
  else if String.eqb activeSection "messages" then MessagesPage
  else if String.eqb activeSection "analytics" then AnalyticsPage
  else DashboardOverview.

Inductive OwnerDashboard_View : Type :=
| SignInPrompt
| Content (c : OwnerContent).

Definition OwnerDashboard (user : option AuthUser) (activeSection : string)
  : OwnerDashboard_View :=
  match user with
  | None => SignInPrompt
  | Some _ => Content (renderContent activeSection)
  end.

(** [searchParams.get('section') || 'overview']. *)
Definition initialSection (searchParams : Browser.URLSearchParams) : string :=
  get_or (Browser.get searchParams "section") "overview".

(** [handleSectionChange]: the new [activeSection] and the new search
    parameters, [{ section }]. *)
Definition handleSectionChange (section : string) : string * Browser.URLSearchParams :=
  (section, [("section", section)]).

(** The ids of [ownerNavigation]. *)
Definition ownerNavigation : list string :=
  ["overview"; "properties"; "bookings"; "messages"; "analytics"].

(** [profile?.full_name || user.user_metadata?.full_name ||
    user.email?.split('@')[0] || 'User']. *)
Definition welcomeName (profile : option UserProfile) (user : AuthUser) : string :=
  get_or (match profile with
          | Some p => full_name p
          | None => None
          end)
    (get_or (metadata_full_name user)
       (get_or (option_map (Browser.split_head "@") (email user)) "User")).

Inductive View : Type :=
| Spinner
| AccessDenied
| OwnerView (v : OwnerDashboard_View)
| GuestView (name : string).

Definition render (loading profileLoading : bool) (user : option AuthUser)
  (profile : option UserProfile) (activeSection : string) : View :=
  if loading || profileLoading then Spinner
  else match user with
       | None => AccessDenied
       | Some u =>
           if isOwner profile user
           then OwnerView (OwnerDashboard user activeSection)
           else GuestView (welcomeName profile u)
       end.

End Dashboard.

(** ** The media gallery of the property form (MediaUploadSection,
    lines 30-81 of its file) *)

Module Media.

Inductive MediaType : Type :=
| image
| video
| photo360.

Record MediaFile : Type := {
  id : string;
  url : string;
  type : MediaType;
  caption : string;
  isPrimary : bool
}.

(** A dropped file with the id and the object URL generated for it. *)
Record DroppedFile : Type := {
  generated_id : string;
  object_url : string;
  file_type : string
}.

Definition withPrimary (v : bool) (m : MediaFile) : MediaFile :=
  {| id := id m; url := url m; type := type m; caption := caption m;
     isPrimary := v |}.

Definition withCaption (v : string) (m : MediaFile) : MediaFile :=
  {| id := id m; url := url m; type := type m; caption := v;
     isPrimary := isPrimary m |}.

Definition onDrop (media : list MediaFile) (acceptedFiles : list DroppedFile)
  : list MediaFile :=
  let newMedia :=
    map (fun file =>
           {| id := generated_id file;
              url := object_url file;
              type := if String.prefix "video/" (file_type file) then video else image;
              caption := "";
              isPrimary := Nat.eqb (List.length media) 0 |})
        acceptedFiles in
  media ++ newMedia.

Definition removeMedia (media : list MediaFile) (target : string) : list MediaFile :=
  let updated := filter (fun m => negb (String.eqb (id m) target)) media in
  if Nat.ltb 0 (List.length updated) && negb (existsb isPrimary updated)
  then match updated with
       | first :: rest => withPrimary true first :: rest
       | [] => []
       end
  else updated.

Definition setPrimary (media : list MediaFile) (target : string) : list MediaFile :=
  map (fun m => withPrimary (String.eqb (id m) target) m) media.

Definition updateCaption (media : list MediaFile) (target caption' : string)
  : list MediaFile :=
  map (fun m => if String.eqb (id m) target then withCaption caption' m else m) media.

(** [findIndex]: the first position that satisfies the test, or -1. *)
Fixpoint findIndex {A : Type} (test : A -> bool) (l : list A) : Z :=
  match l with
  | [] => -1
  | x :: l' =>
      if test x then 0
      else let i := findIndex test l' in
           if i <? 0 then -1 else i + 1
  end.

(** [l[i]], undefined out of range. *)
Definition at_index {A : Type} (l : list A) (i : Z) : option A :=
  if i <? 0 then None else nth_error l (Z.to_nat i).

(** The start position [splice] computes: a negative start counts from
    the end, and the result is clamped to the array. *)
Definition splice_start (len : nat) (start : Z) : nat :=
  if start <? 0 then Z.to_nat (Z.max (Z.of_nat len + start) 0)
  else Nat.min (Z.to_nat start) len.

(** [l.splice(start, 1)] and [l.splice(start, 0, x)]: the array left. *)
Definition splice_delete1 {A : Type} (start : Z) (l : list A) : list A :=
  let s := splice_start (List.length l) start in
  firstn s l ++ skipn (S s) l.

Definition splice_insert {A : Type} (start : Z) (x : A) (l : list A) : list A :=
  let s := splice_start (List.length l) start in
  firstn s l ++ x :: skipn s l.

(** [reorderMedia]; an entry [None] is an [undefined] slot. *)
Definition reorderMedia (media : list MediaFile) (dragId hoverId : string)
  : list (option MediaFile) :=
  let dragIndex := findIndex (fun m => String.eqb (id m) dragId) media in
  let hoverIndex := findIndex (fun m => String.eqb (id m) hoverId) media in
  let updated := map Some media in
  let dragItem := match at_index updated dragIndex with
                  | Some item => item
                  | None => None
                  end in
  let updated := splice_delete1 dragIndex updated in
  splice_insert hoverIndex dragItem updated.

End Media.

(** ** Preparing files for upload (lib/supabase.ts, in the file of
    useUserProfile.ts, lines 133-153) *)

Module Upload.

Record File : Type := {
  name : string;
  type : string
}.

Record PreparedFile : Type := {
  fileData : string;
  fileName : string;
  fileType : string;
  caption : string;
  isPrimary : bool;
  mediaType : string
}.

(** The object pushed for [files[i]], once [fileToBase64] has resolved
    with [base64Data]. *)
Definition prepare (base64Data : string) (captions : list string)
  (i : nat) (file : File) : PreparedFile :=
  {| fileData := base64Data;
     fileName := name file;
     fileType := type file;
     caption := get_or (nth_error captions i) "";
     isPrimary := Nat.eqb i 0;
     mediaType := if String.prefix "video/" (type file) then "video"
                  else if String.prefix "image/" (type file) then "image"
                  else "document" |}.

(** The loop [for (let i = 0; i < files.length; i++)], from index [i]
    with [mediaFiles] collected so far.  [fileToBase64 file] is [None]
    when the reader fails: the awaited promise rejects and so does
    [prepareMediaFiles], which is the result [None]. *)
Fixpoint prepare_from (fileToBase64 : File -> option string)
  (captions : list string) (i : nat) (files : list File)
  (mediaFiles : list PreparedFile) : option (list PreparedFile) :=
  match files with
  | [] => Some mediaFiles
  | file :: files' =>
      match fileToBase64 file with
      | None => None
      | Some base64Data =>
          prepare_from fileToBase64 captions (S i) files'
            (mediaFiles ++ [prepare base64Data captions i file])
      end
  end.

Definition prepareMediaFiles (fileToBase64 : File -> option string)
  (files : list File) (captions : list string) : option (list PreparedFile) :=
  prepare_from fileToBase64 captions 0 files [].

End Upload.

(** ** Amenities of the property form (PropertyForm.tsx, lines 87-93) *)

Definition handleAmenityToggle (amenityName : string) (prev : list string)
  : list string :=
  if existsb (String.eqb amenityName) prev
  then filter (fun a => negb (String.eqb a amenityName)) prev
  else prev ++ [amenityName].

(** ** Proof tactics *)

(** Case analysis of a hypothesis [f args = Some (st', eff)] or
    [f args = (st', eff)] on the tests the code makes. *)
Ltac break_tests H :=
  repeat match type of H with
         | context [if ?c then _ else _] => destruct c eqn:?
         | context [match ?x with _ => _ end] => destruct x eqn:?
         end.

Ltac step_cases H :=
  unfold step, handleDateSubmit, handleBookingSubmit, handlePaymentSubmit,
    handlePaymentSubmit_afterIntent, handlePaymentSubmit_afterCard,
    handlePaymentSubmit_afterConfirm, checkAvailabilityMutation_mutate,
    checkAvailabilityMutation_settled, createBookingMutation_mutate,
    createBookingMutation_settled in H;
  break_tests H; try discriminate H;
  inversion H; subst; clear H.

(** The pay button is disabled while Stripe is not loaded, so the first
    test of [handlePaymentSubmit] cannot succeed on a click. *)
Ltac pay_button_enabled :=
  match goal with
  | H1 : (_ && negb (?a || negb ?b || negb ?c))%bool = true,
    H2 : (negb ?b || negb ?c)%bool = true |- _ =>
      destruct a, b, c; rewrite andb_comm in H1; simpl in H1, H2; discriminate
  end.

(** Turns the tests recorded by [step_cases] into propositions. *)
Ltac tests_to_props :=
  repeat match goal with
         | H : (_ && _)%bool = true |- _ => apply andb_true_iff in H; destruct H
         | H : (_ =? _) = true |- _ => apply Z.eqb_eq in H
         | H : negb _ = true |- _ => apply negb_true_iff in H
         | H : (_ || _)%bool = false |- _ => apply orb_false_iff in H; destruct H
         end.

(** Closes a conjunction of closed equations by evaluation, the first
    conjuncts giving the witnesses the later ones are about. *)
Ltac compute_conjuncts :=
  repeat match goal with
         | |- _ /\ _ => split; [vm_compute; reflexivity|]
         end;
  vm_compute; reflexivity.

(** * Properties *)

(** ** Numbers *)

(** *** Rounding to binary64 *)

Section Binary64.

Local Open Scope Q_scope.

Lemma pow2_pos (e : Z) : 0 < 2 ^ e.
Proof. apply Qpower_0_lt. reflexivity. Qed.

Lemma pow2_nonzero (e : Z) : ~ 2 ^ e == 0.
Proof. pose proof (pow2_pos e). lra. Qed.

Lemma pow2_add (a b : Z) : 2 ^ (a + b) == 2 ^ a * 2 ^ b.
Proof. apply Qpower_plus. discriminate. Qed.

Lemma pow2_sub (a b : Z) : 2 ^ (a - b) == 2 ^ a / 2 ^ b.
Proof. apply Qpower_minus. discriminate. Qed.

Lemma pow2_le (a b : Z) : (a <= b)%Z -> 2 ^ a <= 2 ^ b.
Proof. intros H. apply Qpower_le_compat_l; [exact H|discriminate]. Qed.

Lemma pow2_lt (a b : Z) : (a < b)%Z -> 2 ^ a < 2 ^ b.
Proof. intros H. apply Qpower_lt_compat_l; [exact H|reflexivity]. Qed.

Lemma pow2_lt_inv (a b : Z) : 2 ^ a < 2 ^ b -> (a < b)%Z.
Proof. intros H. apply (Qpower_lt_compat_l_inv 2); [exact H|reflexivity]. Qed.

Lemma pow2_Z (n : Z) : (0 <= n)%Z -> 2 ^ n == inject_Z (2 ^ n).
Proof. intros H. now rewrite Zpower_Qpower. Qed.

Lemma pow2_succ (a : Z) : 2 ^ (a + 1) == 2 * 2 ^ a.
Proof. rewrite pow2_add. change (2 ^ 1) with 2. ring. Qed.

(** [ilog2 q] is the binary order of magnitude of a positive [q]. *)
Lemma ilog2_spec (q : Q) :
  0 < q -> 2 ^ ilog2 q <= q /\ q < 2 ^ (ilog2 q + 1).
Proof.
  intros Hq. unfold ilog2.
  destruct q as [n d]. cbn [Qnum Qden].
  assert (Hn : (0 < n)%Z).
  { unfold Qlt in Hq. simpl in Hq. lia. }
  destruct (Z.log2_spec n Hn) as [Hn1 Hn2].
  destruct (Z.log2_spec (Zpos d) (Pos2Z.is_pos d)) as [Hd1 Hd2].
  set (a := Z.log2 n) in *. set (b := Z.log2 (Zpos d)) in *.
  assert (Ha : (0 <= a)%Z) by apply Z.log2_nonneg.
  assert (Hb : (0 <= b)%Z) by apply Z.log2_nonneg.
  assert (Hq' : n # d == inject_Z n / inject_Z (Zpos d)) by apply Qmake_Qdiv.
  assert (Hdpos : 0 < inject_Z (Zpos d)) by reflexivity.
  assert (Qn1 : 2 ^ a <= inject_Z n).
  { rewrite pow2_Z by exact Ha. now rewrite <- Zle_Qle. }
  assert (Qn2 : inject_Z n < 2 ^ (a + 1)).
  { rewrite pow2_Z by lia. rewrite <- Zlt_Qlt. now rewrite <- Z.add_1_r in Hn2. }
  assert (Qd1 : 2 ^ b <= inject_Z (Zpos d)).
  { rewrite pow2_Z by exact Hb. now rewrite <- Zle_Qle. }
  assert (Qd2 : inject_Z (Zpos d) < 2 ^ (b + 1)).
  { rewrite pow2_Z by lia. rewrite <- Zlt_Qlt. now rewrite <- Z.add_1_r in Hd2. }
  pose proof (pow2_pos a) as Pa. pose proof (pow2_pos b) as Pb.
  assert (Hup : n # d < 2 ^ (a - b + 1)).
  { rewrite Hq'. apply Qlt_shift_div_r; [exact Hdpos|].
    replace (a - b + 1)%Z with ((a + 1) - b)%Z by ring.
    rewrite pow2_sub.
    apply Qlt_le_trans with (2 ^ (a + 1)); [exact Qn2|].
    pose proof (pow2_pos (a + 1)) as Pa1.
    assert (H1 : 2 ^ (a + 1) == 2 ^ (a + 1) / 2 ^ b * 2 ^ b) by (field; lra).
    rewrite H1 at 1.
    apply Qmult_le_l; [|exact Qd1].
    apply Qlt_shift_div_l; lra. }
  assert (Hlo : 2 ^ (a - b - 1) <= n # d).
  { rewrite Hq'. apply Qle_shift_div_l; [exact Hdpos|].
    replace (a - b - 1)%Z with (a - (b + 1))%Z by ring.
    rewrite pow2_sub.
    pose proof (pow2_pos (b + 1)) as Pb1.
    apply Qle_trans with (2 ^ a); [|exact Qn1].
    assert (H1 : 2 ^ a == 2 ^ a / 2 ^ (b + 1) * 2 ^ (b + 1)) by (field; lra).
    rewrite H1 at 2.
    apply Qmult_le_l; [|lra].
    apply Qlt_shift_div_l; lra. }
  destruct (Qle_bool (2 ^ (a - b)) (n # d)) eqn:Htest.
  - apply Qle_bool_iff in Htest. split; [exact Htest|exact Hup].
  - split; [exact Hlo|].
    replace (a - b - 1 + 1)%Z with (a - b)%Z by ring.
    apply Qnot_le_lt. intros Hle. apply Qle_bool_iff in Hle. congruence.
Qed.

Lemma ilog2_lt (q : Q) (k : Z) : 0 < q -> q < 2 ^ k -> (ilog2 q < k)%Z.
Proof.
  intros Hq Hk. destruct (ilog2_spec q Hq) as [Hlo _].
  apply pow2_lt_inv. lra.
Qed.

Lemma ilog2_ge (q : Q) (k : Z) : 0 < q -> 2 ^ k <= q -> (k <= ilog2 q)%Z.
Proof.
  intros Hq Hk. destruct (ilog2_spec q Hq) as [_ Hhi].
  assert (H : (k < ilog2 q + 1)%Z) by (apply pow2_lt_inv; lra).
  lia.
Qed.

Lemma ilog2_eq (p q : Q) : 0 < p -> p == q -> ilog2 p = ilog2 q.
Proof.
  intros Hp Hpq.
  assert (Hq : 0 < q) by lra.
  destruct (ilog2_spec p Hp) as [P1 P2].
  destruct (ilog2_spec q Hq) as [Q1 Q2].
  assert (ilog2 p < ilog2 q + 1)%Z by (apply pow2_lt_inv; lra).
  assert (ilog2 q < ilog2 p + 1)%Z by (apply pow2_lt_inv; lra).
  lia.
Qed.

(** Rounding to an integer. *)

Lemma round_half_even_eq (x y : Q) : x == y -> round_half_even x = round_half_even y.
Proof.
  intros H. unfold round_half_even.
  rewrite (Qfloor_comp x y H).
  assert (Hc : (x - inject_Z (Qfloor y) ?= 1 # 2) = (y - inject_Z (Qfloor y) ?= 1 # 2)).
  { apply Qcompare_comp; [now rewrite H|reflexivity]. }
  now rewrite Hc.
Qed.

Lemma round_half_even_Z (n : Z) : round_half_even (inject_Z n) = n.
Proof.
  unfold round_half_even. rewrite Qfloor_Z.
  assert (Hc : (inject_Z n - inject_Z n ?= 1 # 2) = Lt).
  { apply Qlt_alt. setoid_replace (inject_Z n - inject_Z n) with 0 by ring. reflexivity. }
  now rewrite Hc.
Qed.

Lemma round_half_even_near (x : Q) :
  inject_Z (round_half_even x) - (1 # 2) <= x
  /\ x <= inject_Z (round_half_even x) + (1 # 2).
Proof.
  unfold round_half_even.
  pose proof (Qfloor_le x) as Hlo.
  pose proof (Qlt_floor x) as Hhi.
  rewrite inject_Z_plus in Hhi. change (inject_Z 1) with 1 in Hhi.
  destruct (x - inject_Z (Qfloor x) ?= 1 # 2) eqn:Hc.
  - rewrite <- Qeq_alt in Hc.
    destruct (Z.even (Qfloor x)); [|rewrite inject_Z_plus; change (inject_Z 1) with 1];
      split; lra.
  - rewrite <- Qlt_alt in Hc. split; lra.
  - rewrite <- Qgt_alt in Hc. rewrite inject_Z_plus. change (inject_Z 1) with 1. split; lra.
Qed.

Lemma round_half_even_le (x : Q) (n : Z) : x <= inject_Z n -> (round_half_even x <= n)%Z.
Proof.
  intros H.
  destruct (Qlt_le_dec x (inject_Z n)) as [Hlt|Hge].
  - pose proof (round_half_even_near x) as [Hn _].
    destruct (Z_le_gt_dec (round_half_even x) n) as [Hle|Hgt]; [exact Hle|].
    exfalso.
    assert (Hz : (n + 1 <= round_half_even x)%Z) by lia.
    rewrite Zle_Qle, inject_Z_plus in Hz. change (inject_Z 1) with 1 in Hz.
    (* x >= r - 1/2 >= n + 1/2 > n, still x < n *)
    lra.
  - assert (Hx : x == inject_Z n) by lra.
    rewrite (round_half_even_eq _ _ Hx), round_half_even_Z. lia.
Qed.

Lemma round_half_even_ge (x : Q) (n : Z) : inject_Z n <= x -> (n <= round_half_even x)%Z.
Proof.
  intros H.
  destruct (Qlt_le_dec (inject_Z n) x) as [Hlt|Hge].
  - pose proof (round_half_even_near x) as [_ Hn].
    destruct (Z_le_gt_dec n (round_half_even x)) as [Hle|Hgt]; [exact Hle|].
    exfalso.
    assert (Hz : (round_half_even x + 1 <= n)%Z) by lia.
    rewrite Zle_Qle, inject_Z_plus in Hz. change (inject_Z 1) with 1 in Hz.
    lra.
  - assert (Hx : x == inject_Z n) by lra.
    rewrite (round_half_even_eq _ _ Hx), round_half_even_Z. lia.
Qed.

Lemma Qabs_scaled (m j : Z) : Qabs (inject_Z m * 2 ^ j) == inject_Z (Z.abs m) * 2 ^ j.
Proof.
  rewrite Qabs_Qmult, (Qabs_pos (2 ^ j)) by (apply Qlt_le_weak, pow2_pos).
  reflexivity.
Qed.

Lemma scaled_lt (m j : Z) (b : Z) :
  (Z.abs m < 2 ^ b)%Z -> (0 <= b)%Z -> Qabs (inject_Z m * 2 ^ j) < 2 ^ (b + j).
Proof.
  intros Hm Hb. rewrite Qabs_scaled, pow2_add, (pow2_Z b Hb).
  apply Qmult_lt_r; [apply pow2_pos|]. now rewrite <- Zlt_Qlt.
Qed.

Lemma Qabs_pos_nonzero (q : Q) : ~ q == 0 -> 0 < Qabs q.
Proof.
  intros H. apply Qabs_case; intros Hq.
  - destruct (Qlt_le_dec 0 q); [assumption|]. exfalso. apply H. lra.
  - destruct (Qlt_le_dec 0 (- q)); [assumption|]. exfalso. apply H. lra.
Qed.

Lemma exponent_eq (p q : Q) : ~ p == 0 -> p == q -> exponent p = exponent q.
Proof.
  intros Hp Hpq. unfold exponent.
  rewrite (ilog2_eq (Qabs p) (Qabs q)); [reflexivity|now apply Qabs_pos_nonzero|].
  now rewrite Hpq.
Qed.

Lemma exponent_le (q : Q) (b : Z) :
  ~ q == 0 -> Qabs q < 2 ^ (b + 53) -> (-1074 <= b)%Z -> (exponent q <= b)%Z.
Proof.
  intros Hq Hlt Hb. unfold exponent.
  pose proof (ilog2_lt (Qabs q) (b + 53) (Qabs_pos_nonzero q Hq) Hlt). lia.
Qed.

Lemma exponent_ge (q : Q) : (-1074 <= exponent q)%Z.
Proof. unfold exponent. lia. Qed.

Lemma scaled_integer (m j e : Z) :
  (e <= j)%Z -> inject_Z m * 2 ^ j / 2 ^ e == inject_Z (m * 2 ^ (j - e)).
Proof.
  intros H. rewrite inject_Z_mult, <- (pow2_Z (j - e)) by lia.
  rewrite pow2_sub. field. apply pow2_nonzero.
Qed.

(** What [round64] computes for a non-zero argument. *)
Lemma round64_nonzero (q : Q) :
  ~ q == 0 ->
  let r := inject_Z (round_half_even (q / 2 ^ exponent q)) * 2 ^ exponent q in
  round64 q = if Qle_bool (2 ^ 1024) (Qabs r)
              then Infinity (negb (Qle_bool 0 r))
              else Num (Qred r).
Proof.
  intros Hq r. unfold round64.
  destruct (Qeq_bool q 0) eqn:Hz; [apply Qeq_bool_eq in Hz; contradiction|].
  reflexivity.
Qed.

Lemma not_overflow (r : Q) : Qabs r < 2 ^ 1024 -> Qle_bool (2 ^ 1024) (Qabs r) = false.
Proof.
  intros H. destruct (Qle_bool (2 ^ 1024) (Qabs r)) eqn:Hle; [|reflexivity].
  apply Qle_bool_iff in Hle. lra.
Qed.

(** [round64] leaves the values of the format unchanged. *)
Lemma round64_binary64 (q : Q) : binary64 q -> round64 q = Num (Qred q).
Proof.
  intros (m & j & Hq & Hm & Hj).
  destruct (Qeq_dec q 0) as [Hz|Hnz].
  - unfold round64. rewrite (proj2 (Qeq_bool_iff q 0) Hz).
    f_equal. symmetry. now apply (Qred_complete q 0).
  - rewrite round64_nonzero by exact Hnz. cbv zeta.
    assert (He : (exponent q <= j)%Z).
    { apply exponent_le; [exact Hnz| |lia].
      rewrite Hq, Z.add_comm. apply scaled_lt; [exact Hm|lia]. }
    set (e := exponent q) in *.
    assert (Hs : q / 2 ^ e == inject_Z (m * 2 ^ (j - e))).
    { rewrite Hq. now apply scaled_integer. }
    rewrite (round_half_even_eq _ _ Hs), round_half_even_Z.
    assert (Hr : inject_Z (m * 2 ^ (j - e)) * 2 ^ e == q).
    { rewrite <- Hs. field. apply pow2_nonzero. }
    rewrite not_overflow.
    + f_equal. now apply Qred_complete.
    + rewrite Hr, Hq.
      apply Qlt_le_trans with (2 ^ (53 + j)); [apply scaled_lt; [exact Hm|lia]|].
      apply pow2_le. lia.
Qed.

Lemma Qred_inject_Z (z : Z) : Qred (inject_Z z) = inject_Z z.
Proof. apply Qcanon.Qred_identity. simpl. apply Z.gcd_1_r. Qed.

Lemma binary64_of_Z (z : Z) : (Z.abs z < 2 ^ 53)%Z -> binary64 (inject_Z z).
Proof.
  intros H. exists z, 0%Z. split; [|split; [exact H|lia]].
  change (2 ^ 0) with 1. ring.
Qed.

(** Integers of fewer than 54 bits are computed exactly. *)
Lemma round64_of_Z (z : Z) : (Z.abs z < 2 ^ 53)%Z -> round64 (inject_Z z) = of_Z z.
Proof.
  intros H. rewrite round64_binary64 by now apply binary64_of_Z.
  unfold of_Z. now rewrite Qred_inject_Z.
Qed.

Lemma round64_eq (p q : Q) : p == q -> round64 p = round64 q.
Proof.
  intros Hpq.
  destruct (Qeq_dec p 0) as [Hz|Hnz].
  - unfold round64.
    rewrite (proj2 (Qeq_bool_iff p 0) Hz).
    assert (Hq : q == 0) by lra.
    now rewrite (proj2 (Qeq_bool_iff q 0) Hq).
  - assert (Hnq : ~ q == 0) by (intros H; apply Hnz; lra).
    rewrite (round64_nonzero p Hnz), (round64_nonzero q Hnq). cbv zeta.
    rewrite (exponent_eq p q Hnz Hpq).
    assert (Hs : p / 2 ^ exponent q == q / 2 ^ exponent q) by now rewrite Hpq.
    now rewrite (round_half_even_eq _ _ Hs).
Qed.

(** A positive argument below a value of the format is rounded to at
    most that value. *)
Lemma round64_le (q x : Q) :
  0 < q -> q <= x -> binary64 x ->
  exists r, round64 q = Num r /\ 0 <= r /\ r <= x.
Proof.
  intros Hq Hqx (k & j & Hx & Hk & Hj).
  assert (Hnz : ~ q == 0) by lra.
  rewrite round64_nonzero by exact Hnz. cbv zeta.
  assert (Habs : Qabs q == q) by (apply Qabs_pos; lra).
  assert (Hxabs : Qabs x == x) by (apply Qabs_pos; lra).
  assert (Hxlt : x < 2 ^ (53 + j)).
  { rewrite <- Hxabs, Hx. apply scaled_lt; [exact Hk|lia]. }
  assert (He : (exponent q <= j)%Z).
  { apply exponent_le; [exact Hnz| |lia]. rewrite Habs, Z.add_comm. lra. }
  set (e := exponent q) in *.
  pose proof (pow2_pos e) as Pe.
  assert (Hs : x / 2 ^ e == inject_Z (k * 2 ^ (j - e))).
  { rewrite Hx. now apply scaled_integer. }
  assert (Hup : (round_half_even (q / 2 ^ e) <= k * 2 ^ (j - e))%Z).
  { apply round_half_even_le. rewrite <- Hs.
    apply Qmult_le_r; [apply Qinv_lt_0_compat; exact Pe|exact Hqx]. }
  assert (Hlo : (0 <= round_half_even (q / 2 ^ e))%Z).
  { apply round_half_even_ge. change (inject_Z 0) with 0.
    apply Qle_shift_div_l; lra. }
  set (m := round_half_even (q / 2 ^ e)) in *.
  assert (Hr0 : 0 <= inject_Z m * 2 ^ e).
  { apply Qmult_le_0_compat; [|lra]. now rewrite <- (Zle_Qle 0). }
  assert (Hrx : inject_Z m * 2 ^ e <= x).
  { assert (Hx' : x == inject_Z (k * 2 ^ (j - e)) * 2 ^ e).
    { rewrite <- Hs. field. lra. }
    rewrite Hx'. apply Qmult_le_r; [exact Pe|]. now rewrite <- Zle_Qle. }
  rewrite not_overflow.
  - eexists. split; [reflexivity|]. rewrite Qred_correct. split; assumption.
  - rewrite Qabs_pos by exact Hr0.
    apply Qle_lt_trans with x; [exact Hrx|].
    apply Qlt_le_trans with (2 ^ (53 + j)); [exact Hxlt|]. apply pow2_le. lia.
Qed.

(** The error of rounding a positive argument below [2 ^ k]. *)
Lemma round64_error (q : Q) (k : Z) :
  0 < q -> q < 2 ^ k -> (-1021 <= k <= 1023)%Z ->
  exists r, round64 q = Num r /\ 0 <= r
            /\ q - 2 ^ (k - 54) <= r /\ r <= q + 2 ^ (k - 54).
Proof.
  intros Hq Hk Hrange.
  assert (Hnz : ~ q == 0) by lra.
  rewrite round64_nonzero by exact Hnz. cbv zeta.
  assert (Habs : Qabs q == q) by (apply Qabs_pos; lra).
  assert (He : (exponent q <= k - 53)%Z).
  { apply exponent_le; [exact Hnz| |lia].
    replace (k - 53 + 53)%Z with k by ring. lra. }
  set (e := exponent q) in *.
  pose proof (pow2_pos e) as Pe.
  pose proof (round_half_even_near (q / 2 ^ e)) as [N1 N2].
  assert (Hlo : (0 <= round_half_even (q / 2 ^ e))%Z).
  { apply round_half_even_ge. change (inject_Z 0) with 0.
    apply Qle_shift_div_l; lra. }
  set (m := round_half_even (q / 2 ^ e)) in *.
  assert (Hq' : q == q / 2 ^ e * 2 ^ e) by (field; lra).
  assert (Hhalf : 2 ^ e * (1 # 2) <= 2 ^ (k - 54)).
  { replace (k - 54)%Z with ((k - 53) - 1)%Z by ring.
    rewrite (pow2_sub (k - 53) 1). change (2 ^ 1) with 2.
    pose proof (pow2_le e (k - 53) He). 
    apply Qle_trans with (2 ^ (k - 53) * (1 # 2)); [|apply Qle_lteq; right; field].
    apply Qmult_le_r; [reflexivity|assumption]. }
  assert (Hr0 : 0 <= inject_Z m * 2 ^ e).
  { apply Qmult_le_0_compat; [|lra]. now rewrite <- (Zle_Qle 0). }
  assert (B1 : q - 2 ^ e * (1 # 2) <= inject_Z m * 2 ^ e).
  { rewrite Hq' at 1.
    setoid_replace (q / 2 ^ e * 2 ^ e - 2 ^ e * (1 # 2))
      with ((q / 2 ^ e - (1 # 2)) * 2 ^ e) by ring.
    apply Qmult_le_r; [exact Pe|lra]. }
  assert (B2 : inject_Z m * 2 ^ e <= q + 2 ^ e * (1 # 2)).
  { rewrite Hq' at 1.
    setoid_replace (q / 2 ^ e * 2 ^ e + 2 ^ e * (1 # 2))
      with ((q / 2 ^ e + (1 # 2)) * 2 ^ e) by ring.
    apply Qmult_le_r; [exact Pe|lra]. }
  rewrite not_overflow.
  - eexists. split; [reflexivity|]. rewrite Qred_correct.
    split; [exact Hr0|]. split; lra.
  - rewrite Qabs_pos by exact Hr0.
    assert (H54 : 2 ^ (k - 54) < 2 ^ k) by (apply pow2_lt; lia).
    assert (Hk1 : 2 ^ (k + 1) <= 2 ^ 1024) by (apply pow2_le; lia).
    rewrite pow2_succ in Hk1. lra.
Qed.

Lemma Num_inj (p q : Q) : Num p = Num q -> p = q.
Proof. intros H. now injection H. Qed.

Lemma binary64_eq (p q : Q) : p == q -> binary64 p -> binary64 q.
Proof.
  intros Hpq (m & j & H & Hm & Hj). exists m, j.
  split; [now rewrite <- Hpq|]. split; assumption.
Qed.

Lemma binary64_scaled (m e : Z) :
  (Z.abs m <= 2 ^ 53)%Z -> (-1074 <= e)%Z ->
  Qabs (inject_Z m * 2 ^ e) < 2 ^ 1024 ->
  ((2 ^ 52 <= Z.abs m)%Z \/ e = (-1074)%Z) ->
  binary64 (inject_Z m * 2 ^ e).
Proof.
  intros Hm He Hfin Hnorm.
  rewrite Qabs_scaled in Hfin.
  pose proof (pow2_pos e) as Pe.
  assert (Hbig : (2 ^ 52 <= Z.abs m)%Z -> (e < 972)%Z).
  { intros H52. apply pow2_lt_inv.
    assert (H1 : 2 ^ 52 * 2 ^ e <= inject_Z (Z.abs m) * 2 ^ e).
    { apply Qmult_le_r; [exact Pe|].
      rewrite (pow2_Z 52) by lia. now rewrite <- Zle_Qle. }
    assert (H2 : 2 ^ 1024 == 2 ^ 52 * 2 ^ 972) by (rewrite <- pow2_add; reflexivity).
    assert (P52 : (0 < 2 ^ 52)%Q) by apply pow2_pos.
    apply (Qmult_lt_l _ _ (2 ^ 52) P52). lra. }
  destruct (Z_lt_le_dec (Z.abs m) (2 ^ 53)) as [Hlt|Hge].
  - exists m, e. split; [reflexivity|]. split; [exact Hlt|].
    destruct Hnorm as [H52| ->]; [specialize (Hbig H52)|]; lia.
  - assert (Heq : Z.abs m = (2 ^ 53)%Z) by lia.
    assert (He' : (e < 972)%Z) by (apply Hbig; lia).
    assert (He'' : (e < 971)%Z).
    { apply pow2_lt_inv.
      assert (H1 : inject_Z (Z.abs m) * 2 ^ e == 2 ^ 53 * 2 ^ e).
      { rewrite Heq, (pow2_Z 53) by lia. reflexivity. }
      assert (H2 : 2 ^ 1024 == 2 ^ 53 * 2 ^ 971) by (rewrite <- pow2_add; reflexivity).
      assert (P53 : (0 < 2 ^ 53)%Q) by apply pow2_pos.
      apply (Qmult_lt_l _ _ (2 ^ 53) P53). lra. }
    exists (m / 2)%Z, (e + 1)%Z.
    assert (Hm2 : m = (2 * (m / 2))%Z).
    { destruct (Z.abs_eq_or_opp m) as [Ha|Ha]; rewrite Ha in Heq.
      - rewrite Heq. reflexivity.
      - assert (m = - 2 ^ 53)%Z by lia. subst m. reflexivity. }
    split; [|split; [|lia]].
    + rewrite pow2_succ. rewrite Hm2 at 1. rewrite inject_Z_mult.
      change (inject_Z 2) with 2. ring.
    + destruct (Z.abs_eq_or_opp m) as [Ha|Ha]; rewrite Ha in Heq.
      * rewrite Heq. reflexivity.
      * assert (m = - 2 ^ 53)%Z by lia. subst m. reflexivity.
Qed.

(** [round64] returns values of the format (or an infinity). *)
Lemma round64_is_binary64 (q r : Q) : round64 q = Num r -> binary64 r.
Proof.
  destruct (Qeq_dec q 0) as [Hz|Hnz].
  - unfold round64. rewrite (proj2 (Qeq_bool_iff q 0) Hz).
    intros H. apply Num_inj in H. subst r. exists 0%Z, 0%Z. split; [reflexivity|]. split; [reflexivity|lia].
  - rewrite round64_nonzero by exact Hnz. cbv zeta.
    destruct (Qle_bool (2 ^ 1024) _) eqn:Hov; [discriminate|].
    intros H. apply Num_inj in H. subst r.
    apply (binary64_eq (inject_Z (round_half_even (q / 2 ^ exponent q)) * 2 ^ exponent q));
      [symmetry; apply Qred_correct|].
    assert (Hfin : Qabs (inject_Z (round_half_even (q / 2 ^ exponent q)) * 2 ^ exponent q)
                   < 2 ^ 1024).
    { apply Qnot_le_lt. intros Hle. apply Qle_bool_iff in Hle. congruence. }
    pose proof (Qabs_pos_nonzero q Hnz) as Hapos.
    destruct (ilog2_spec (Qabs q) Hapos) as [L1 L2].
    pose proof (exponent_ge q) as Hge.
    assert (Hel : (ilog2 (Qabs q) - 52 <= exponent q)%Z) by (unfold exponent; lia).
    assert (Hnorm : exponent q = (ilog2 (Qabs q) - 52)%Z \/ exponent q = (-1074)%Z)
      by (unfold exponent; lia).
    set (e := exponent q) in *.
    pose proof (pow2_pos e) as Pe.
    assert (Hup : Qabs q <= 2 ^ 53 * 2 ^ e).
    { rewrite <- pow2_add. apply Qle_trans with (2 ^ (ilog2 (Qabs q) + 1)); [lra|].
      apply pow2_le. lia. }
    assert (Hlow : e = (ilog2 (Qabs q) - 52)%Z -> 2 ^ 52 * 2 ^ e <= Qabs q).
    { intros ->. rewrite <- pow2_add.
      replace (52 + (ilog2 (Qabs q) - 52))%Z with (ilog2 (Qabs q)) by ring. exact L1. }
    assert (I53 : inject_Z (2 ^ 53) == 2 ^ 53) by (rewrite pow2_Z by lia; reflexivity).
    assert (I52 : inject_Z (2 ^ 52) == 2 ^ 52) by (rewrite pow2_Z by lia; reflexivity).
    assert (Hdiv : forall a, a * 2 ^ e / 2 ^ e == a) by (intros a; field; lra).
    destruct (Qlt_le_dec 0 q) as [Hpos|Hneg].
    + assert (Habs : Qabs q == q) by (apply Qabs_pos; lra).
      assert (Hup' : q <= 2 ^ 53 * 2 ^ e) by (rewrite <- Habs; exact Hup).
      assert (Hlow' : e = (ilog2 (Qabs q) - 52)%Z -> 2 ^ 52 * 2 ^ e <= q).
      { intros He. specialize (Hlow He). now rewrite Habs in Hlow. }
      assert (M1 : (round_half_even (q / 2 ^ e) <= 2 ^ 53)%Z).
      { apply round_half_even_le. rewrite I53, <- (Hdiv (2 ^ 53)).
        apply Qmult_le_r; [apply Qinv_lt_0_compat; exact Pe|exact Hup']. }
      assert (M0 : (0 <= round_half_even (q / 2 ^ e))%Z).
      { apply round_half_even_ge. change (inject_Z 0) with 0.
        apply Qle_shift_div_l; lra. }
      assert (M2 : e = (ilog2 (Qabs q) - 52)%Z -> (2 ^ 52 <= round_half_even (q / 2 ^ e))%Z).
      { intros He. apply round_half_even_ge. rewrite I52, <- (Hdiv (2 ^ 52)).
        apply Qmult_le_r; [apply Qinv_lt_0_compat; exact Pe|now apply Hlow']. }
      apply binary64_scaled; [lia|exact Hge|exact Hfin|].
      destruct Hnorm as [Hn|Hn]; [left; specialize (M2 Hn); lia|now right].
    + assert (Habs : Qabs q == - q) by (apply Qabs_neg; exact Hneg).
      assert (Hup' : - q <= 2 ^ 53 * 2 ^ e) by (rewrite <- Habs; exact Hup).
      assert (Hlow' : e = (ilog2 (Qabs q) - 52)%Z -> 2 ^ 52 * 2 ^ e <= - q).
      { intros He. specialize (Hlow He). now rewrite Habs in Hlow. }
      assert (M1 : (- 2 ^ 53 <= round_half_even (q / 2 ^ e))%Z).
      { apply round_half_even_ge.
        change (inject_Z (- 2 ^ 53)) with (- inject_Z (2 ^ 53)).
        rewrite I53, <- (Hdiv (- 2 ^ 53)).
        apply Qmult_le_r; [apply Qinv_lt_0_compat; exact Pe|lra]. }
      assert (M0 : (round_half_even (q / 2 ^ e) <= 0)%Z).
      { apply round_half_even_le. change (inject_Z 0) with 0.
        apply Qle_shift_div_r; lra. }
      assert (M2 : e = (ilog2 (Qabs q) - 52)%Z -> (round_half_even (q / 2 ^ e) <= - 2 ^ 52)%Z).
      { intros He. apply round_half_even_le.
        change (inject_Z (- 2 ^ 52)) with (- inject_Z (2 ^ 52)).
        rewrite I52, <- (Hdiv (- 2 ^ 52)).
        apply Qmult_le_r; [apply Qinv_lt_0_compat; exact Pe|]. specialize (Hlow' He). lra. }
      apply binary64_scaled; [lia|exact Hge|exact Hfin|].
      destruct Hnorm as [Hn|Hn]; [left; specialize (M2 Hn); lia|now right].
Qed.

(** Rounding twice is rounding once. *)
Lemma round64_idempotent (q r : Q) : round64 q = Num r -> round64 r = Num r.
Proof.
  intros H. rewrite (round64_binary64 r (round64_is_binary64 q r H)).
  f_equal.
  unfold round64 in H.
  destruct (Qeq_bool q 0); [apply Num_inj in H; subst r; reflexivity|].
  destruct (Qle_bool _ _); [discriminate|].
  apply Num_inj in H. subst r. apply Qcanon.Qred_involutive.
Qed.

End Binary64.

(** *** Arithmetic on integers and comparisons *)

Lemma denotes_Qeq (x : number) (p q : Q) :
  denotes x p -> (p == q)%Q -> denotes x q.
Proof.
  destruct x as [|r|s]; cbn [denotes]; try tauto.
  intros H1 H2. now transitivity p.
Qed.

Lemma denotes_of_Z (z : Z) : denotes (of_Z z) (inject_Z z).
Proof. cbn [of_Z denotes]. reflexivity. Qed.

(** Sums, differences and products of integers are exact as long as the
    result has fewer than 54 bits. *)
Lemma add_integers (x y : number) (a b : Z) :
  denotes x (inject_Z a) -> denotes y (inject_Z b) ->
  Z.abs (a + b) < 2 ^ 53 ->
  add x y = of_Z (a + b).
Proof.
  destruct x as [|p|s]; cbn [denotes]; try tauto.
  destruct y as [|q|s]; cbn [denotes]; try tauto.
  intros Hp Hq Hsmall. cbn [add].
  rewrite (round64_eq (p + q) (inject_Z (a + b))).
  - now apply round64_of_Z.
  - rewrite Hp, Hq, inject_Z_plus. reflexivity.
Qed.

Lemma sub_integers (x y : number) (a b : Z) :
  denotes x (inject_Z a) -> denotes y (inject_Z b) ->
  Z.abs (a - b) < 2 ^ 53 ->
  sub x y = of_Z (a - b).
Proof.
  destruct x as [|p|s]; cbn [denotes]; try tauto.
  destruct y as [|q|s]; cbn [denotes]; try tauto.
  intros Hp Hq Hsmall. cbn [sub].
  rewrite (round64_eq (p - q) (inject_Z (a - b))).
  - now apply round64_of_Z.
  - rewrite Hp, Hq. unfold Z.sub. rewrite inject_Z_plus, inject_Z_opp. reflexivity.
Qed.

Lemma mul_integers (x y : number) (a b : Z) :
  denotes x (inject_Z a) -> denotes y (inject_Z b) ->
  Z.abs (a * b) < 2 ^ 53 ->
  mul x y = of_Z (a * b).
Proof.
  destruct x as [|p|s]; cbn [denotes]; try tauto.
  destruct y as [|q|s]; cbn [denotes]; try tauto.
  intros Hp Hq Hsmall. cbn [mul].
  rewrite (round64_eq (p * q) (inject_Z (a * b))).
  - now apply round64_of_Z.
  - rewrite Hp, Hq, inject_Z_mult. reflexivity.
Qed.

Lemma denotes_or_zero (q : Q) : denotes (or (Num q) (of_Z 0)) q.
Proof.
  unfold or, truthy.
  destruct (Qeq_bool q 0) eqn:H; cbn [negb denotes of_Z].
  - apply Qeq_bool_eq in H. now rewrite H.
  - reflexivity.
Qed.

Lemma denotes_round (a : number) (q : Q) :
  denotes a q ->
  denotes (Math_round a) (inject_Z (Qfloor (q + (1 # 2)))).
Proof.
  destruct a as [|x|s]; cbn [denotes Math_round of_Z]; try tauto.
  intros H. now rewrite H.
Qed.

(** [floor (x + 1/2)] is the integer nearest to [x], a tie going up. *)
Lemma round_half_up (x : Q) :
  (inject_Z (Qfloor (x + (1 # 2))) - (1 # 2) <= x
   /\ x < inject_Z (Qfloor (x + (1 # 2))) + (1 # 2))%Q.
Proof.
  pose proof (Qfloor_le (x + (1 # 2))) as Hlo.
  pose proof (Qlt_floor (x + (1 # 2))) as Hhi.
  rewrite inject_Z_plus in Hhi.
  change (inject_Z 1) with 1%Q in Hhi.
  split; lra.
Qed.

Lemma gt_zero_false (x : number) : denotes x 0 -> gt x (of_Z 0) = false.
Proof.
  destruct x as [|p|s]; cbn [denotes]; try tauto.
  intros H. unfold gt, lt, of_Z.
  apply negb_false_iff, Qle_bool_iff. rewrite H. apply Qle_refl.
Qed.

Lemma gt_zero_true (x : number) (q : Q) :
  denotes x q -> (0 < q)%Q -> gt x (of_Z 0) = true.
Proof.
  destruct x as [|p|s]; cbn [denotes]; try tauto.
  intros H Hq. unfold gt, lt, of_Z.
  apply negb_true_iff.
  destruct (Qle_bool p (inject_Z 0)) eqn:Hle; [|reflexivity].
  apply Qle_bool_iff in Hle. rewrite H in Hle.
  change (inject_Z 0) with 0%Q in Hle. lra.
Qed.

(** ** The price breakdown *)

Lemma Qceiling_unique (x : Q) (n : Z) :
  (inject_Z n - 1 < x)%Q -> (x <= inject_Z n)%Q -> Qceiling x = n.
Proof.
  intros Hlo Hhi.
  pose proof (Qle_ceiling x) as H1.
  pose proof (Qceiling_lt x) as H2.
  unfold Z.sub in H2. rewrite inject_Z_plus in H2.
  change (inject_Z (- (1))) with (- (1))%Q in H2.
  assert (A : (inject_Z (n - 1) < inject_Z (Qceiling x))%Q).
  { unfold Z.sub. rewrite inject_Z_plus. change (inject_Z (- (1))) with (- (1))%Q. lra. }
  assert (B : (inject_Z (Qceiling x - 1) < inject_Z n)%Q).
  { unfold Z.sub. rewrite inject_Z_plus. change (inject_Z (- (1))) with (- (1))%Q. lra. }
  rewrite <- Zlt_Qlt in A, B. lia.
Qed.

Lemma Qfloor_unique (x : Q) (n : Z) :
  (inject_Z n <= x)%Q -> (x < inject_Z n + 1)%Q -> Qfloor x = n.
Proof.
  intros Hlo Hhi.
  pose proof (Qfloor_le x) as H1.
  pose proof (Qlt_floor x) as H2.
  rewrite inject_Z_plus in H2. change (inject_Z 1) with 1%Q in H2.
  assert (A : (inject_Z n < inject_Z (Qfloor x + 1))%Q).
  { rewrite inject_Z_plus. change (inject_Z 1) with 1%Q. lra. }
  assert (B : (inject_Z (Qfloor x) < inject_Z (n + 1))%Q).
  { rewrite inject_Z_plus. change (inject_Z 1) with 1%Q. lra. }
  rewrite <- Zlt_Qlt in A, B. lia.
Qed.

Lemma binary64_days (n : Z) :
  0 <= n -> n * 84375 < 2 ^ 53 -> binary64 (inject_Z (n * msPerDay)).
Proof.
  intros H0 H. exists (n * 84375), 10. split; [|split; lia].
  change msPerDay with (84375 * 2 ^ 10).
  rewrite Z.mul_assoc, inject_Z_mult. rewrite <- (pow2_Z 10) by lia. reflexivity.
Qed.

(** The quotient of a time difference by the milliseconds of a day,
    rounded, does not exceed a whole number of days that the difference
    does not exceed. *)
Lemma div_days_upper (r : Q) (n : Z) :
  (0 <= r)%Q -> (r <= inject_Z (n * msPerDay))%Q -> 0 <= n -> n < 2 ^ 53 ->
  exists r2, div (Num r) (of_Z (1000 * 60 * 60 * 24)) = Num r2
             /\ (0 <= r2)%Q /\ (r2 <= inject_Z n)%Q.
Proof.
  intros Hr Hle H0 Hn. cbn [div of_Z].
  change (Qeq_bool (inject_Z (1000 * 60 * 60 * 24)) 0) with false. cbv iota.
  change (1000 * 60 * 60 * 24) with msPerDay.
  assert (HD : (0 < inject_Z msPerDay)%Q) by reflexivity.
  destruct (Qeq_dec r 0) as [Hz|Hnz].
  - rewrite (round64_eq (r / inject_Z msPerDay) 0) by (rewrite Hz; reflexivity).
    exists 0%Q. split; [reflexivity|]. split; [lra|].
    rewrite <- (Zle_Qle 0). exact H0.
  - destruct (round64_le (r / inject_Z msPerDay) (inject_Z n)) as (r2 & H2 & Hlo & Hhi).
    + apply Qlt_shift_div_l; lra.
    + apply Qle_shift_div_r; [exact HD|]. now rewrite <- inject_Z_mult.
    + apply binary64_of_Z. lia.
    + exists r2. auto.
Qed.

(** The nights the code computes never exceed a whole number of days
    that covers the stay. *)
Lemma nights_upper (E : Ctx) (st : State) (a b : Q) (n : Z) :
  truthy_str (startDate st) = true ->
  truthy_str (endDate st) = true ->
  Date_getTime E (startDate st) = Num a ->
  Date_getTime E (endDate st) = Num b ->
  (a < b)%Q ->
  (b - a <= inject_Z (n * msPerDay))%Q ->
  n * 84375 < 2 ^ 53 ->
  exists k, nights E st = of_Z k /\ 0 <= k <= n.
Proof.
  intros H1 H2 Ha Hb Hlt Hle Hn. unfold nights.
  rewrite H1, H2, Ha, Hb. cbn [andb sub].
  assert (H0 : 0 < n).
  { assert (H : (inject_Z 0 < inject_Z (n * msPerDay))%Q).
    { change (inject_Z 0) with 0%Q. lra. }
    rewrite <- Zlt_Qlt in H. unfold msPerDay in H. lia. }
  destruct (round64_le (b - a) (inject_Z (n * msPerDay))) as (r & Hr & Hr0 & Hrn).
  - lra.
  - exact Hle.
  - apply binary64_days; lia.
  - rewrite Hr.
    destruct (div_days_upper r n Hr0 Hrn) as (r2 & H3 & Hlo & Hhi); [lia|lia|].
    rewrite H3. cbn [Math_ceil]. eexists. split; [reflexivity|].
    split.
    + rewrite <- (Qceiling_Z 0). now apply Qceiling_resp_le.
    + rewrite <- (Qceiling_Z n). now apply Qceiling_resp_le.
Qed.

Lemma days_positive (s e : Z) :
  s < e -> 1 <= Qceiling (inject_Z (e - s) / inject_Z msPerDay).
Proof.
  intros Hlt.
  assert (Hpos : (0 < inject_Z (e - s) / inject_Z msPerDay)%Q).
  { apply Qlt_shift_div_l; [reflexivity|].
    rewrite Qmult_0_l. rewrite <- (Zlt_Qlt 0). lia. }
  pose proof (Qle_ceiling (inject_Z (e - s) / inject_Z msPerDay)) as Hc.
  assert (Hz : (inject_Z 0 < inject_Z (Qceiling (inject_Z (e - s) / inject_Z msPerDay)))%Q).
  { change (inject_Z 0) with 0%Q. lra. }
  rewrite <- Zlt_Qlt in Hz. lia.
Qed.

(** For time values less than [2 ^ 53] milliseconds apart the nights are
    the exact ceiling of the difference in days. *)
Lemma nights_exact (E : Ctx) (st : State) (s e : Z) :
  truthy_str (startDate st) = true ->
  truthy_str (endDate st) = true ->
  Date_getTime E (startDate st) = of_Z s ->
  Date_getTime E (endDate st) = of_Z e ->
  s < e -> e - s < 2 ^ 53 ->
  nights E st = of_Z (Qceiling (inject_Z (e - s) / inject_Z msPerDay))
  /\ Qceiling (inject_Z (e - s) / inject_Z msPerDay) <= 2 ^ 27.
Proof.
  intros H1 H2 Hs He Hlt Hsmall.
  set (d := e - s) in *.
  set (q := (inject_Z d / inject_Z msPerDay)%Q).
  set (n := Qceiling q).
  assert (HD : (0 < inject_Z msPerDay)%Q) by reflexivity.
  assert (Hd : (0 < inject_Z d)%Q) by (rewrite <- (Zlt_Qlt 0); lia).
  assert (Hq0 : (0 < q)%Q) by (apply Qlt_shift_div_l; lra).
  assert (Hq27 : (q < 2 ^ 27)%Q).
  { apply Qlt_shift_div_r; [exact HD|].
    rewrite (pow2_Z 27), <- inject_Z_mult by lia.
    rewrite <- Zlt_Qlt. unfold msPerDay. lia. }
  pose proof (Qle_ceiling q) as Hc1. fold n in Hc1.
  pose proof (Qceiling_lt q) as Hc2. fold n in Hc2.
  assert (Hn1 : 1 <= n) by (apply days_positive; lia).
  assert (Hn27 : n <= 2 ^ 27).
  { assert (H : (inject_Z (n - 1) < inject_Z (2 ^ 27))%Q).
    { rewrite <- (pow2_Z 27) by lia. lra. }
    rewrite <- Zlt_Qlt in H. lia. }
  split; [|exact Hn27].
  assert (Hdq : (inject_Z d == q * inject_Z msPerDay)%Q) by (unfold q; field; lra).
  (* the stay is more than [n - 1] days by at least one millisecond *)
  assert (Hgap : (inject_Z (n - 1) + 1 / inject_Z msPerDay <= q)%Q).
  { assert (Hz : (n - 1) * msPerDay < d).
    { rewrite Zlt_Qlt, inject_Z_mult, Hdq.
      apply Qmult_lt_r; [exact HD|exact Hc2]. }
    assert (Hz' : (inject_Z ((n - 1) * msPerDay + 1) <= inject_Z d)%Q).
    { rewrite <- Zle_Qle. lia. }
    rewrite inject_Z_plus, inject_Z_mult in Hz'. change (inject_Z 1) with 1%Q in Hz'.
    unfold q. apply Qle_shift_div_l; [exact HD|].
    setoid_replace ((inject_Z (n - 1) + 1 / inject_Z msPerDay) * inject_Z msPerDay)%Q
      with (inject_Z (n - 1) * inject_Z msPerDay + 1)%Q by (field; lra).
    exact Hz'. }
  unfold nights. rewrite H1, H2, Hs, He. cbn [andb].
  rewrite (sub_integers (of_Z e) (of_Z s) e s) by (try apply denotes_of_Z; fold d; lia).
  fold d. cbn [div of_Z].
  change (Qeq_bool (inject_Z (1000 * 60 * 60 * 24)) 0) with false. cbv iota.
  change (1000 * 60 * 60 * 24) with msPerDay. fold q.
  destruct (round64_error q 27 Hq0 Hq27) as (r & Hr & _ & Hlo & _); [lia|].
  destruct (round64_le q (inject_Z n) Hq0 Hc1) as (r' & Hr' & _ & Hhi).
  { apply binary64_of_Z. lia. }
  rewrite Hr in Hr'. apply Num_inj in Hr'. subst r'.
  rewrite Hr. cbn [Math_ceil]. f_equal.
  apply Qceiling_unique; [|exact Hhi].
  assert (Hsmall27 : (2 ^ (27 - 54) < 1 / inject_Z msPerDay)%Q) by reflexivity.
  unfold Z.sub in Hgap. rewrite inject_Z_plus in Hgap.
  change (inject_Z (- (1))) with (- (1))%Q in Hgap. lra.
Qed.

(** The constant [0.12] of the source. *)
Lemma literal_0_12 :
  literal (12 # 100) = Num (1080863910568919 # 9007199254740992).
Proof. vm_compute. reflexivity. Qed.

(** For a whole base price below [2 ^ 47] the service fee is the integer
    nearest to 12% of it, a tie going up: the two roundings of the product
    are too small to move it across a half. *)
Lemma service_fee_exact (bp : Z) :
  0 <= bp -> bp < 2 ^ 47 ->
  Math_round (mul (of_Z bp) (literal (12 # 100)))
  = of_Z (Qfloor (inject_Z bp * (12 # 100) + (1 # 2))).
Proof.
  intros H0 Hbig. rewrite literal_0_12. cbn [mul of_Z].
  set (c := (1080863910568919 # 9007199254740992)%Q).
  set (x := inject_Z bp).
  set (F := Qfloor (x * (12 # 100) + (1 # 2))).
  assert (Hx0 : (0 <= x)%Q) by (unfold x; rewrite <- (Zle_Qle 0); exact H0).
  assert (Hx47 : (x < 2 ^ 47)%Q).
  { unfold x. rewrite (pow2_Z 47) by lia. now rewrite <- Zlt_Qlt. }
  (* 12% of a whole amount is never within 1/50 of a half *)
  assert (Hfrac : (inject_Z F + (1 # 50) <= x * (12 # 100) + (1 # 2)
                   /\ x * (12 # 100) + (1 # 2) <= inject_Z F + (49 # 50))%Q).
  { pose proof (Qfloor_le (x * (12 # 100) + (1 # 2))) as F1.
    pose proof (Qlt_floor (x * (12 # 100) + (1 # 2))) as F2.
    fold F in F1, F2. rewrite inject_Z_plus in F2. change (inject_Z 1) with 1%Q in F2.
    assert (Z1 : 50 * F <= 6 * bp + 25).
    { rewrite Zle_Qle, inject_Z_plus, !inject_Z_mult. fold x.
      change (inject_Z 50) with 50%Q. change (inject_Z 6) with 6%Q.
      change (inject_Z 25) with 25%Q. lra. }
    assert (Z2 : 6 * bp + 25 < 50 * F + 50).
    { rewrite Zlt_Qlt, !inject_Z_plus, !inject_Z_mult. fold x.
      change (inject_Z 50) with 50%Q. change (inject_Z 6) with 6%Q.
      change (inject_Z 25) with 25%Q. lra. }
    assert (Z3 : 50 * F + 1 <= 6 * bp + 25) by lia.
    assert (Z4 : 6 * bp + 25 <= 50 * F + 49) by lia.
    rewrite Zle_Qle, !inject_Z_plus, !inject_Z_mult in Z3, Z4. fold x in Z3, Z4.
    change (inject_Z 50) with 50%Q in Z3, Z4. change (inject_Z 6) with 6%Q in Z3, Z4.
    change (inject_Z 25) with 25%Q in Z3, Z4. change (inject_Z 1) with 1%Q in Z3.
    change (inject_Z 49) with 49%Q in Z4.
    split; lra. }
  destruct (Qeq_dec x 0) as [Hz|Hnz].
  - rewrite (round64_eq (x * c) 0) by (rewrite Hz; ring).
    change (round64 0) with (Num 0). cbn [Math_round of_Z]. f_equal.
    apply Qfloor_unique; lra.
  - assert (Hc : (c < 2 ^ (-3))%Q) by reflexivity.
    assert (Hc0 : (0 < c)%Q) by reflexivity.
    assert (Hcerr : ((12 # 100) - 2 ^ (-57) <= c /\ c <= 12 # 100)%Q).
    { split; unfold Qle; simpl; lia. }
    assert (P57 : (2 ^ 47 * 2 ^ (-57) == 2 ^ (-10))%Q) by (rewrite <- pow2_add; reflexivity).
    assert (P44 : (2 ^ 47 * 2 ^ (-3) == 2 ^ 44)%Q) by (rewrite <- pow2_add; reflexivity).
    assert (Hprod : (0 < x * c /\ x * c < 2 ^ 44)%Q).
    { split; [apply Qmult_lt_0_compat; lra|].
      rewrite <- P44.
      apply Qle_lt_trans with (x * 2 ^ (-3))%Q.
      - apply Qmult_le_l; lra.
      - apply Qmult_lt_r; [reflexivity|exact Hx47]. }
    destruct (round64_error (x * c) 44 (proj1 Hprod) (proj2 Hprod)) as (r & Hr & _ & R1 & R2);
      [lia|].
    rewrite Hr. cbn [Math_round of_Z]. f_equal.
    assert (E1 : (x * (12 # 100) - 2 ^ (-10) <= x * c)%Q).
    { assert (H : (x * 2 ^ (-57) <= 2 ^ (-10))%Q).
      { rewrite <- P57. apply Qmult_le_r; [reflexivity|lra]. }
      assert (H' : (x * ((12 # 100) - 2 ^ (-57)) <= x * c)%Q)
        by (apply Qmult_le_l; lra).
      lra. }
    assert (E2 : (x * c <= x * (12 # 100))%Q) by (apply Qmult_le_l; lra).
    assert (P10 : (2 ^ (-10) == 1 # 1024)%Q) by reflexivity.
    assert (P54 : (2 ^ (44 - 54) == 1 # 1024)%Q) by reflexivity.
    apply Qfloor_unique; lra.
Qed.

(** The breakdown for a whole number of nights and whole amounts. *)
Lemma breakdown_of_nights (E : Ctx) (st : State) (n rate cf pfee : Z) :
  nights E st = of_Z n ->
  0 <= n <= 2 ^ 27 ->
  (base_price_per_night (pricing E) == inject_Z rate)%Q ->
  0 <= rate <= 1000000 ->
  (cleaning_fee (pricing E) == inject_Z cf)%Q ->
  0 <= cf <= 1000000 ->
  denotes (petFee E st) (inject_Z pfee) ->
  0 <= pfee <= 1000000 ->
  let bp := rate * n in
  let fee := Qfloor (inject_Z bp * (12 # 100) + (1 # 2)) in
  basePrice E st = of_Z bp
  /\ serviceFee E st = of_Z fee
  /\ totalPrice E st = of_Z (bp + cf + pfee + fee).
Proof.
  intros Hn Hnb Hrate Hrb Hcf Hcb Hpet Hpb bp fee.
  assert (Hbp0 : 0 <= bp) by (unfold bp; lia).
  assert (Hbp47 : bp < 2 ^ 47).
  { unfold bp. apply Z.le_lt_trans with (1000000 * 2 ^ 27); [|reflexivity].
    apply Z.mul_le_mono_nonneg; lia. }
  assert (Hbase : basePrice E st = of_Z bp).
  { unfold basePrice. rewrite Hn.
    apply mul_integers; [exact Hrate|apply denotes_of_Z|fold bp; lia]. }
  assert (Hfee : serviceFee E st = of_Z fee).
  { unfold serviceFee. rewrite Hbase. now apply service_fee_exact. }
  assert (Hfeeb : 0 <= fee <= 2 ^ 47).
  { pose proof (Qfloor_le (inject_Z bp * (12 # 100) + (1 # 2))) as F1.
    pose proof (Qlt_floor (inject_Z bp * (12 # 100) + (1 # 2))) as F2.
    fold fee in F1, F2. rewrite inject_Z_plus in F2. change (inject_Z 1) with 1%Q in F2.
    assert (B0 : (0 <= inject_Z bp)%Q) by (rewrite <- (Zle_Qle 0); exact Hbp0).
    assert (B1 : (inject_Z bp < inject_Z (2 ^ 47))%Q) by (rewrite <- Zlt_Qlt; exact Hbp47).
    split.
    - assert (H : (inject_Z (- (1)) < inject_Z fee)%Q).
      { change (inject_Z (- (1))) with (- (1))%Q. lra. }
      rewrite <- Zlt_Qlt in H. lia.
    - rewrite Zle_Qle. change (inject_Z (2 ^ 47)) with 140737488355328%Q in *. lra. }
  split; [exact Hbase|]. split; [exact Hfee|].
  unfold totalPrice. rewrite Hbase, Hfee.
  rewrite (add_integers (of_Z bp) (cleaningFee E) bp cf);
    [|apply denotes_of_Z
     |unfold cleaningFee; eapply denotes_Qeq; [apply denotes_or_zero|exact Hcf]
     |lia].
  rewrite (add_integers (of_Z (bp + cf)) (petFee E st) (bp + cf) pfee);
    [|apply denotes_of_Z|exact Hpet|lia].
  apply add_integers; [apply denotes_of_Z|apply denotes_of_Z|lia].
Qed.

Lemma petFee_denotes (E : Ctx) (st : State) (pf : Z) :
  (pet_fee (pricing E) == inject_Z pf)%Q ->
  denotes (petFee E st) (inject_Z (if gt (pets st) (of_Z 0) then pf else 0)).
Proof.
  intros Hpf. unfold petFee. destruct (gt (pets st) (of_Z 0)).
  - eapply denotes_Qeq; [apply denotes_or_zero|exact Hpf].
  - apply denotes_of_Z.
Qed.

(** C1 (as amended). For a stay whose dates parse to time values less
    than [2 ^ 53] milliseconds apart, check-out after check-in, and a rate
    card whose nightly rate, cleaning fee and pet fee are whole numbers
    between 0 and 1,000,000, the rendered breakdown is exact: [nights] is
    the ceiling of the difference in days (at least one), [basePrice] is
    the nightly rate times [nights], [petFee] is the rule's pet fee when
    [pets > 0] and zero otherwise, [serviceFee] is the integer nearest to
    12% of [basePrice] with ties rounded up, and [totalPrice] is the sum of
    base price, cleaning fee, pet fee and service fee (the security
    deposit is not part of it).  For 2025-06-01 to 2025-06-04, parsed as
    the language prescribes for date-only strings (midnight UTC, the time
    values 1748736000000 and 1748995200000), at 100 per night with
    cleaning fee 25 and no pets: 3 nights, base price 300, service fee 36,
    total 361; with one pet and pet fee 15 the total is 376. *)
Theorem price_breakdown_correct :
  (forall (E : Ctx) (st : State) (s e rate cf pf : Z),
      truthy_str (startDate st) = true ->
      truthy_str (endDate st) = true ->
      Date_getTime E (startDate st) = of_Z s ->
      Date_getTime E (endDate st) = of_Z e ->
      s < e -> e - s < 2 ^ 53 ->
      (base_price_per_night (pricing E) == inject_Z rate)%Q -> 0 <= rate <= 1000000 ->
      (cleaning_fee (pricing E) == inject_Z cf)%Q -> 0 <= cf <= 1000000 ->
      (pet_fee (pricing E) == inject_Z pf)%Q -> 0 <= pf <= 1000000 ->
      exists n fee : Z,
        n = Qceiling (inject_Z (e - s) / inject_Z msPerDay) /\ 1 <= n /\
        let bp := rate * n in
        let pfee := if gt (pets st) (of_Z 0) then pf else 0 in
        nights E st = of_Z n
        /\ basePrice E st = of_Z bp
        /\ denotes (petFee E st) (inject_Z pfee)
        /\ serviceFee E st = of_Z fee
        /\ (inject_Z fee - (1 # 2) <= inject_Z bp * (12 # 100)
            < inject_Z fee + (1 # 2))%Q
        /\ totalPrice E st = of_Z (bp + cf + pfee + fee))
  /\
  (forall (E : Ctx) (st : State),
      startDate st = "2025-06-01" ->
      endDate st = "2025-06-04" ->
      Date_getTime E "2025-06-01" = of_Z 1748736000000 ->
      Date_getTime E "2025-06-04" = of_Z 1748995200000 ->
      (base_price_per_night (pricing E) == 100)%Q ->
      (cleaning_fee (pricing E) == 25)%Q ->
      (denotes (pets st) 0 ->
       nights E st = of_Z 3 /\ basePrice E st = of_Z 300
       /\ serviceFee E st = of_Z 36 /\ totalPrice E st = of_Z 361)
      /\ (denotes (pets st) 1 -> (pet_fee (pricing E) == 15)%Q ->
          totalPrice E st = of_Z 376)).
Proof.
  split.
  - intros E st s e rate cf pf H1 H2 Hs He Hlt Hsmall Hrate Hrb Hcf Hcb Hpf Hpb.
    destruct (nights_exact E st s e H1 H2 Hs He Hlt Hsmall) as [Hn Hn27].
    pose proof (days_positive s e Hlt) as Hn1.
    pose proof (petFee_denotes E st pf Hpf) as Hpet.
    destruct (breakdown_of_nights E st _ rate cf
                (if gt (pets st) (of_Z 0) then pf else 0)
                Hn ltac:(lia) Hrate Hrb Hcf Hcb Hpet
                ltac:(destruct (gt (pets st) (of_Z 0)); lia))
      as (Hbp & Hfee & Htot).
    eexists. eexists. split; [reflexivity|]. split; [exact Hn1|].
    cbv zeta.
    split; [exact Hn|]. split; [exact Hbp|]. split; [exact Hpet|].
    split; [exact Hfee|]. split; [apply round_half_up|exact Htot].
  - intros E st Hsd Hed Hs He Hrate Hclean.
    assert (H1 : truthy_str (startDate st) = true) by now rewrite Hsd.
    assert (H2 : truthy_str (endDate st) = true) by now rewrite Hed.
    rewrite <- Hsd in Hs. rewrite <- Hed in He.
    destruct (nights_exact E st _ _ H1 H2 Hs He) as [Hn _]; [lia|lia|].
    change (Qceiling (inject_Z (1748995200000 - 1748736000000) / inject_Z msPerDay))
      with 3 in Hn.
    split.
    + intros Hpets.
      assert (Hpet : denotes (petFee E st) (inject_Z 0)).
      { unfold petFee. rewrite (gt_zero_false _ Hpets). apply denotes_of_Z. }
      destruct (breakdown_of_nights E st 3 100 25 0 Hn ltac:(lia) Hrate ltac:(lia)
                  Hclean ltac:(lia) Hpet ltac:(lia)) as (Hbp & Hfee & Htot).
      split; [exact Hn|]. split; [exact Hbp|]. split; [exact Hfee|exact Htot].
    + intros Hpets Hpetfee.
      assert (Hpet : denotes (petFee E st) (inject_Z 15)).
      { unfold petFee. rewrite (gt_zero_true _ 1 Hpets) by reflexivity.
        eapply denotes_Qeq; [apply denotes_or_zero|exact Hpetfee]. }
      destruct (breakdown_of_nights E st 3 100 25 15 Hn ltac:(lia) Hrate ltac:(lia)
                  Hclean ltac:(lia) Hpet ltac:(lia)) as (_ & _ & Htot).
      exact Htot.
Qed.

(** The statement of C1 applied to the sample stay. *)
Lemma price_breakdown_correct_witness :
  nights sample_ctx sample_state = of_Z 3
  /\ totalPrice sample_ctx sample_state = of_Z 361
  /\ totalPrice sample_ctx (setPets (of_Z 1) sample_state) = of_Z 376
  /\ exists n fee : Z,
       1 <= n /\ nights sample_ctx sample_state = of_Z n
       /\ serviceFee sample_ctx sample_state = of_Z fee.
Proof.
  destruct price_breakdown_correct as [Hgen Hex].
  destruct (Hex sample_ctx sample_state eq_refl eq_refl eq_refl eq_refl
              (Qeq_refl _) (Qeq_refl _)) as [H0 _].
  destruct (Hex sample_ctx (setPets (of_Z 1) sample_state) eq_refl eq_refl eq_refl eq_refl
              (Qeq_refl _) (Qeq_refl _)) as [_ H1].
  destruct (Hgen sample_ctx sample_state 1748736000000 1748995200000 100 25 15
              eq_refl eq_refl eq_refl eq_refl)
    as (n & fee & _ & Hpos & Hn & _ & _ & Hfee & _);
    try reflexivity; try lia.
  destruct (H0 (Qeq_refl _)) as (Hn3 & _ & _ & Ht).
  split; [exact Hn3|]. split; [exact Ht|].
  split; [exact (H1 (Qeq_refl _) (Qeq_refl _))|].
  exists n, fee. auto.
Defined.

(** C1 as stated fails for amounts that are not whole numbers, because
    products and sums are rounded to binary64.  At the nightly rate 89.99
    for three nights the base price is 269.96999999999997, which is not
    the rate times three.  With a cleaning fee of 24.99 and a pet fee of
    14.99 at 100 per night, the total is not the sum of base price,
    cleaning fee, pet fee and service fee.  It also fails for whole
    numbers that are large: at the nightly rate [2 ^ 53 - 1] the base
    price for three nights is one less than the rate times three; and for
    two instants more than [2 ^ 53] milliseconds apart, 104249992 days and
    one millisecond, the stay has 104249992 nights, not 104249993. *)
Lemma price_breakdown_counterexample :
  (let E := sample_ctx_with sample_fractional_rate in
   literal (8999 # 100) = Num (base_price_per_night (pricing E))
   /\ nights E sample_state = of_Z 3
   /\ basePrice E sample_state = Num (4749362466410987 # 17592186044416)
   /\ ~ denotes (basePrice E sample_state)
          (base_price_per_night (pricing E) * 3))
  /\ (let E := sample_ctx_with sample_fractional_fees in
      let st := setPets (of_Z 1) sample_state in
      literal (2499 # 100) = Num (cleaning_fee (pricing E))
      /\ literal (1499 # 100) = Num (pet_fee (pricing E))
      /\ exists bp cf pf fee total,
           basePrice E st = Num bp /\ cleaningFee E = Num cf
           /\ petFee E st = Num pf /\ serviceFee E st = Num fee
           /\ totalPrice E st = Num total
           /\ ~ (total == bp + cf + pf + fee)%Q)
  /\ (let E := sample_ctx_with sample_huge_rate in
      nights E sample_state = of_Z 3
      /\ basePrice E sample_state = of_Z 27021597764222972
      /\ (base_price_per_night (pricing E) * 3 == inject_Z 27021597764222973)%Q)
  /\ (let E := sample_far_apart_ctx in
      let st := sample_far_apart_state in
      Date_getTime E (startDate st) = of_Z (-3217862419200000)
      /\ Date_getTime E (endDate st) = of_Z 5789336889600001
      /\ nights E st = of_Z 104249992
      /\ Qceiling (inject_Z (5789336889600001 - -3217862419200000)
                   / inject_Z msPerDay) = 104249993).
Proof.
  split; [|split; [|split]].
  3: cbv zeta; compute_conjuncts.
  3: cbv zeta; compute_conjuncts.
  - cbv zeta. split; [vm_compute; reflexivity|]. split; [vm_compute; reflexivity|].
    split; [vm_compute; reflexivity|].
    intros H. vm_compute in H. discriminate H.
  - cbv zeta. split; [vm_compute; reflexivity|]. split; [vm_compute; reflexivity|].
    do 5 eexists.
    split; [vm_compute; reflexivity|]. split; [vm_compute; reflexivity|].
    split; [vm_compute; reflexivity|]. split; [vm_compute; reflexivity|].
    split; [vm_compute; reflexivity|].
    intros H. vm_compute in H. discriminate H.
Qed.

(** ** Runs *)

Lemma exec_snoc (E : Ctx) (evs : list Event) :
  forall (st : State) (ev : Event),
    exec E st (evs ++ [ev]) =
    match exec E st evs with
    | None => None
    | Some (st1, eff1) =>
        match step E st1 ev with
        | None => None
        | Some (st2, eff2) => Some (st2, (eff1 ++ eff2)%list)
        end
    end.
Proof.
  induction evs as [|e evs IH]; intros st ev; simpl.
  - destruct (step E st ev) as [[st2 eff2]|]; [|reflexivity].
    now rewrite app_nil_r.
  - destruct (step E st e) as [[st1 eff1]|]; [|reflexivity].
    rewrite IH.
    destruct (exec E st1 evs) as [[st2 eff2]|]; [|reflexivity].
    destruct (step E st2 ev) as [[st3 eff3]|]; [|reflexivity].
    now rewrite app_assoc.
Qed.

(** Induction over the states a run reaches. *)
Lemma run_invariant (E : Ctx) (st0 : State) (P : list Event -> State -> Prop) :
  P [] st0 ->
  (forall evs st ev st' eff,
      P evs st -> step E st ev = Some (st', eff) -> P (evs ++ [ev]) st') ->
  forall evs st effs, exec E st0 evs = Some (st, effs) -> P evs st.
Proof.
  intros Hinit Hstep evs.
  induction evs as [|ev evs IH] using rev_ind; intros st effs Hrun.
  - simpl in Hrun. now inversion Hrun; subst.
  - rewrite exec_snoc in Hrun.
    destruct (exec E st0 evs) as [[st1 eff1]|] eqn:Hpre; [|discriminate].
    destruct (step E st1 ev) as [[st2 eff2]|] eqn:Hev; [|discriminate].
    inversion Hrun; subst.
    eapply Hstep; [eapply IH; reflexivity|exact Hev].
Qed.

(** ** Validation *)

Lemma pets_need_pet_friendly (E : Ctx) (sp : SearchParams) :
  forall evs st effs,
    exec E (initialState E sp) evs = Some (st, effs) ->
    pets st = of_Z 0 \/ pet_friendly (property E) = true.
Proof.
  apply (run_invariant E (initialState E sp)
           (fun _ st => pets st = of_Z 0 \/ pet_friendly (property E) = true)).
  - left. reflexivity.
  - intros evs st ev st' eff IH Hstep.
    destruct ev; step_cases Hstep; simpl; try exact IH.
    right.
    repeat match goal with
           | H : (_ && _)%bool = true |- _ => apply andb_true_iff in H; destruct H
           end.
    now rewrite negb_involutive in *.
Qed.







(** The occupancy test on a party of whole numbers. *)
Lemma occupancy_test (x y : number) (a c : Z) (b : Q) :
  denotes x (inject_Z a) -> denotes y (inject_Z c) ->
  Z.abs (a + c) < 2 ^ 53 ->
  gt (add x y) (Num b) = negb (Qle_bool (inject_Z (a + c)) b).
Proof.
  intros Hx Hy Hsmall. now rewrite (add_integers x y a c Hx Hy Hsmall).
Qed.




(** ** Failures of the payment step *)

Lemma thrown_cases {A : Type} (r : InvokeResult A) (m : string) :
  r = FunctionsError m \/ r = DataError m ->
  match r with
  | Data _ => False
  | FunctionsError m' | DataError m' => m' = m
  end.
Proof. intros [H|H]; now rewrite H. Qed.

(** C3 (as amended). When the provider has confirmed the card and the
    remote confirm-payment call fails, the handler logs the error, shows
    one error toast with the remote error's message (or "Payment failed"
    when it is empty), clears the processing flag and leaves step, booking
    and payment intent as they were: state and effects are exactly those
    of a card declined with the same message.  There is no failed state,
    and the pay button is enabled again: pressing it submits the card once
    more against the same intent. *)
Theorem confirmation_failure_handled_as_payment_error
  (E : Ctx) (st : State) (bd : option BookingData) (rest : list PayTask)
  (r : InvokeResult unit) (m : string) :
  paymentTasks st = AwaitConfirm bd :: rest ->
  r = FunctionsError m \/ r = DataError m ->
  exists st',
    step E st (Settled_confirmPayment r) = Some (st', catch_payment m)
    /\ toasts (catch_payment m) = [Toast_error (Lit (or_str m "Payment failed"))]
    /\ currentStep st' = currentStep st
    /\ bookingData st' = bookingData st
    /\ paymentIntent st' = paymentIntent st
    /\ isProcessing st' = false
    /\ paymentTasks st' = rest
    /\ handlePaymentSubmit_afterCard st bd rest (StripeError (Some m))
       = (st', catch_payment m)
    /\ (forall intent,
           currentStep st = 3 -> stripe E = true -> elements E = true ->
           paymentIntent st = Some intent ->
           exists st'',
             step E st' (Click_pay true)
             = Some (st'', [Remote (Stripe_confirmCardPayment (clientSecret intent)
                                      (match user E with
                                       | Some u => email u
                                       | None => None
                                       end))])).
Proof.
  intros Htasks Hr.
  exists (finally_payment rest st).
  pose proof (thrown_cases r m Hr) as Hm.
  split.
  { unfold step. rewrite Htasks. unfold handlePaymentSubmit_afterConfirm.
    destruct r; try contradiction; now subst. }
  repeat split; try reflexivity.
  intros intent Hstep Hstripe Helements Hintent.
  eexists. unfold step, handlePaymentSubmit.
  cbn [finally_payment setIsProcessing withPaymentTasks currentStep isProcessing
         paymentIntent bookingData paymentTasks].
  rewrite Hstep, Hstripe, Helements, Hintent. reflexivity.
Qed.

(** The statement of C3 applied to the sample booking: the card is
    confirmed, confirm-payment fails with "boom", and the guest presses
    the pay button again. *)
Lemma confirmation_failure_handled_as_payment_error_witness :
  exists st' st'',
    step sample_ctx
      (withPaymentTasks [AwaitConfirm (Some sample_booking)]
         (setIsProcessing true sample_intent_held))
      (Settled_confirmPayment (FunctionsError "boom"))
    = Some (st', catch_payment "boom")
    /\ currentStep st' = 3
    /\ isProcessing st' = false
    /\ step sample_ctx st' (Click_pay true)
       = Some (st'', [Remote (Stripe_confirmCardPayment "pi_1_secret"
                                (Some "guest@example.com"))]).
Proof.
  destruct (confirmation_failure_handled_as_payment_error sample_ctx
              (withPaymentTasks [AwaitConfirm (Some sample_booking)]
                 (setIsProcessing true sample_intent_held))
              (Some sample_booking) [] (FunctionsError "boom") "boom"
              eq_refl (or_introl eq_refl))
    as (st' & Hstep & _ & Hcur & _ & _ & Hproc & _ & _ & Hretry).
  destruct (Hretry sample_intent eq_refl eq_refl eq_refl eq_refl) as (st'' & Hagain).
  exists st', st''.
  split; [exact Hstep|]. split; [exact Hcur|]. split; [exact Hproc|exact Hagain].
Defined.

(** C3 as stated fails.  From the sample state with a booking and an
    intent, a confirmed card followed by a failed confirm-payment call and
    a declined card with the same message end in the same state, the one
    the guest started from, with the same single toast; and the pay button
    then submits the card again. *)
Lemma confirmation_mismatch_counterexample :
  exists stA effA stB effB st'',
    exec sample_ctx sample_intent_held
      [ Click_pay true;
        Settled_confirmCardPayment (StripePaymentIntent "pi_1" "succeeded");
        Settled_confirmPayment (FunctionsError "boom") ] = Some (stA, effA)
    /\ exec sample_ctx sample_intent_held
         [ Click_pay true;
           Settled_confirmCardPayment (StripeError (Some "boom")) ] = Some (stB, effB)
    /\ stA = stB
    /\ stA = sample_intent_held
    /\ toasts effA = [Toast_error (Lit "boom")]
    /\ toasts effB = [Toast_error (Lit "boom")]
    /\ step sample_ctx stA (Click_pay true)
       = Some (st'', [Remote (Stripe_confirmCardPayment "pi_1_secret"
                                (Some "guest@example.com"))]).
Proof.
  do 5 eexists. compute_conjuncts.
Qed.

(** The sample state with the intent held is the one the flow reaches
    after the first six events of the sample run. *)
Lemma sample_intent_held_reached :
  exists effs,
    exec sample_ctx sample_state (firstn 6 sample_run) = Some (sample_intent_held, effs).
Proof. eexists. vm_compute. reflexivity. Qed.

(** C7 (as amended). Every part of the payment handler that runs ends in
    one of four ways: it suspends on exactly one remote call; or it
    confirms, moving to step 4 with a success toast; or it shows an error
    toast, clears the processing flag and leaves the step and the intent
    unchanged; or, having received a new intent, it stores it and shows
    the toast "Ready to process payment" with the step unchanged.  An
    answer of the provider without error and with a status other than
    "succeeded" is not covered. *)
Theorem payment_handler_outcomes
  (E : Ctx) (st st' : State) (ev : Event) (eff : list Effect) :
  step E st ev = Some (st', eff) ->
  payment_event ev = true ->
  other_status ev = false ->
  (exists c, eff = [Remote c] /\ payment_call c = true
             /\ currentStep st' = currentStep st)
  \/ (currentStep st' = 4
      /\ eff = [Toast_success (Lit "Payment successful! Booking confirmed!")]
      /\ isProcessing st' = false)
  \/ (existsb is_error_toast eff = true
      /\ currentStep st' = currentStep st
      /\ paymentIntent st' = paymentIntent st
      /\ isProcessing st' = false)
  \/ (exists d, ev = Settled_createPaymentIntent (Data d)
                /\ paymentIntent st' = Some d
                /\ eff = [Toast_success (Lit "Ready to process payment")]
                /\ currentStep st' = currentStep st
                /\ isProcessing st' = false).
Proof.
  intros Hstep Hpay Hother.
  destruct ev; try discriminate Hpay; step_cases Hstep;
    try (exfalso; pay_button_enabled);
    try (left; eexists; repeat split; reflexivity);
    try (right; left; repeat split; reflexivity);
    try (right; right; left; repeat split; solve [reflexivity | assumption]);
    try (right; right; right; eexists; repeat split; reflexivity).
  simpl in Hother.
  match goal with
  | H : String.eqb _ _ = false |- _ => rewrite H in Hother
  end.
  discriminate Hother.
Qed.

(** The statement of C7 applied to a declined card. *)
Lemma payment_handler_outcomes_witness :
  existsb is_error_toast (catch_payment "Your card was declined.") = true
  /\ currentStep (finally_payment [] sample_intent_held) = 3.
Proof.
  destruct (payment_handler_outcomes sample_ctx
              (withPaymentTasks [AwaitCard (Some sample_booking)]
                 (setIsProcessing true sample_intent_held))
              (finally_payment [] sample_intent_held)
              (Settled_confirmCardPayment (StripeError (Some "Your card was declined.")))
              (catch_payment "Your card was declined.")
              eq_refl eq_refl eq_refl)
    as [(c & Heff & _)|[(_ & Heff & _)|[(Hshown & Hstep & _)|(d & Hev & _)]]].
  - discriminate Heff.
  - discriminate Heff.
  - split; [exact Hshown|exact Hstep].
  - discriminate Hev.
Defined.

(** C7 as stated fails.  Invoked without an intent, the handler
    completes after creating one: the step is still 3 and no error is
    shown.  And when the provider answers without error with the status
    "requires_capture", the handler completes with no toast at all. *)
Lemma payment_handler_counterexample :
  (exists st effs,
      exec sample_ctx sample_paying
        [ Click_pay true; Settled_createPaymentIntent (Data sample_intent) ]
      = Some (st, effs)
      /\ paymentTasks st = [] /\ isProcessing st = false
      /\ currentStep st = 3
      /\ existsb is_error_toast effs = false)
  /\ (exists st effs,
         exec sample_ctx sample_intent_held
           [ Click_pay true;
             Settled_confirmCardPayment (StripePaymentIntent "pi_1" "requires_capture") ]
         = Some (st, effs)
         /\ paymentTasks st = [] /\ isProcessing st = false
         /\ currentStep st = 3
         /\ toasts effs = []).
Proof.
  split; do 2 eexists; compute_conjuncts.
Qed.

(** ** Invariants of the flow *)

Lemma record_returned_mono (evs more : list Event) (d : BookingData) :
  record_returned evs d -> record_returned (evs ++ more) d.
Proof. intros H. apply in_or_app. now left. Qed.

Lemma task_ok_mono (evs more : list Event) (t : PayTask) :
  task_ok evs t -> task_ok (evs ++ more) t.
Proof.
  destruct t; simpl.
  - intros (d & Hd). exists d. now apply record_returned_mono.
  - intros H d Hd. apply record_returned_mono. now apply H.
  - intros (d & Ho & Hd). exists d. split; [exact Ho|now apply record_returned_mono].
Qed.

Lemma tasks_ok_mono (evs more : list Event) (l : list PayTask) :
  Forall (task_ok evs) l -> Forall (task_ok (evs ++ more)) l.
Proof.
  intros H. eapply Forall_impl; [|exact H].
  intros t. apply task_ok_mono.
Qed.

(** Only the settlement of a create-booking call adds a create-booking
    answer to the run. *)
Lemma answered_before (evs : list Event) (ev : Event) (p : option BookingData) :
  In (Settled_createBooking (Data p)) (evs ++ [ev]) ->
  ev <> Settled_createBooking (Data p) ->
  In (Settled_createBooking (Data p)) evs.
Proof.
  intros Hin Hne. apply in_app_or in Hin. destruct Hin as [H|[H|[]]]; [exact H|].
  congruence.
Qed.

Lemma booking_inv_step (E : Ctx) (evs : list Event) (st st' : State)
  (ev : Event) (eff : list Effect) :
  booking_inv evs st ->
  step E st ev = Some (st', eff) ->
  booking_inv (evs ++ [ev]) st'.
Proof.
  intros (I0 & I1 & I2 & I4 & I3) Hstep.
  assert (I3' := tasks_ok_mono evs [ev] _ I3).
  assert (I0' : 3 <= currentStep st ->
                exists p, In (Settled_createBooking (Data p)) (evs ++ [ev])).
  { intros H. destruct (I0 H) as (p & Hp). exists p. apply in_or_app. now left. }
  assert (I2' : forall d, bookingData st = Some d -> record_returned (evs ++ [ev]) d).
  { intros d Hd. apply record_returned_mono. now apply I2. }
  assert (I4' : paymentIntent st <> None -> exists d, record_returned (evs ++ [ev]) d).
  { intros H. destruct (I4 H) as (d & Hd). exists d. now apply record_returned_mono. }
  assert (I1' : (forall p, ev <> Settled_createBooking (Data p)) ->
                (exists p, In (Settled_createBooking (Data p)) (evs ++ [ev])) ->
                In (Settled_createBooking (Data (bookingData st))) (evs ++ [ev])).
  { intros Hne (p & Hp). apply in_or_app. left. apply I1.
    exists p. apply (answered_before evs ev p Hp). apply Hne. }
  destruct ev; step_cases Hstep; tests_to_props;
    (split; [|split; [|split; [|split]]]);
    cbn [setStartDate setEndDate setAdults setChildren setInfants setPets
           setSpecialRequests setCurrentStep setBookingData setPaymentIntent
           setIsProcessing withCheckAvailabilityMutation withCreateBookingMutation
           withPaymentTasks finally_payment
           currentStep bookingData paymentTasks paymentIntent];
    try exact I0'; try exact I2'; try exact I3'; try exact I4';
    try solve [apply I1'; intros; discriminate];
    try solve [intros Hge; apply I0'; lia].
  all: try solve [eapply Forall_inv_tail; exact I3'].
  all: try solve [inversion I3'; subst; constructor; assumption].
  all: try solve [apply Forall_app; split; [exact I3'|repeat constructor]].
  all: try solve [intros _; eexists; apply in_or_app; right; left; reflexivity].
  all: try solve [intros; apply in_or_app; right; left; reflexivity].
  all: try solve [intros d' Hd'; subst; apply in_or_app; right; left; reflexivity].
  all: try solve [intros _; apply Forall_inv in I3'; exact I3'].
  all: try solve [intros _; apply Forall_inv in I3'; destruct I3' as (d' & _ & Hd');
                  exists (Some d'); exact Hd'].
  all: try solve [intros Hne; first [congruence | apply I4'; congruence]].
  all: try solve [intros d' Hd'; apply I2'; congruence].
  all: try solve [intros Hex;
                  match goal with
                  | H : bookingData _ = _ |- _ => rewrite H
                  end; apply I1'; [intros; discriminate|exact Hex]].
  all: try solve [apply Forall_app; split; [exact I3'|];
                  constructor; [|constructor]; simpl;
                  first [ intros d' Hd'; apply I2'; congruence
                        | eexists; apply I2'; reflexivity ]].
  inversion I3' as [|t l' Hhead Htail]; subst. constructor; [|exact Htail].
  eexists. split; [reflexivity|]. now apply Hhead.
Qed.

Lemma booking_inv_reachable (E : Ctx) (sp : SearchParams) :
  forall evs st effs,
    exec E (initialState E sp) evs = Some (st, effs) -> booking_inv evs st.
Proof.
  apply run_invariant.
  - split; [|split; [|split; [|split]]]; simpl.
    + lia.
    + intros (p & []).
    + discriminate.
    + congruence.
    + constructor.
  - intros evs st ev st' eff. apply booking_inv_step.
Qed.

(** C4 (as amended). In every state the flow reaches, step 3 or 4
    implies that a create-booking call has succeeded earlier in the run,
    and the booking the state holds is the payload of such a call, stored
    as it came: a booking record or [null].  Whenever an event makes a call
    of the payment step (create-payment-intent, card confirmation,
    confirm-payment), a create-booking call has returned a booking record
    before, and the booking the call names is one that was returned. *)
Theorem payment_requires_booking
  (E : Ctx) (sp : SearchParams) (evs : list Event) (st : State)
  (effs : list Effect) :
  exec E (initialState E sp) evs = Some (st, effs) ->
  (3 <= currentStep st ->
   exists payload,
     In (Settled_createBooking (Data payload)) evs /\ bookingData st = payload)
  /\ (forall d, bookingData st = Some d ->
                In (Settled_createBooking (Data (Some d))) evs)
  /\ (forall ev st' eff c,
         step E st ev = Some (st', eff) ->
         In (Remote c) eff ->
         payment_call c = true ->
         exists d, In (Settled_createBooking (Data (Some d))) evs
                   /\ forall b, call_booking c = Some b -> b = booking_id (booking d)).
Proof.
  intros Hrun.
  destruct (booking_inv_reachable E sp evs st effs Hrun) as (I0 & I1 & I2 & I4 & I3).
  split.
  { intros Hge. exists (bookingData st). split; [|reflexivity]. apply I1. now apply I0. }
  split; [exact I2|].
  intros ev st' eff c Hstep Hin Hpay.
  destruct ev; step_cases Hstep; tests_to_props;
    simpl in Hin;
    repeat match goal with
           | H : _ \/ _ |- _ => destruct H
           | H : False |- _ => contradiction
           | H : Remote _ = Remote _ |- _ => inversion H; subst; clear H
           | H : _ = Remote _ |- _ => discriminate H
           end;
    try discriminate Hpay.
  all: try solve [ destruct I4 as (d & Hd); [discriminate|];
                   exists d; split; [exact Hd|simpl; discriminate] ].
  all: try solve [ match goal with
                   | Hb : bookingData _ = Some ?b |- _ =>
                       exists b; split; [now apply I2|simpl; intros; congruence]
                   end ].
  try match goal with
      | Ht : paymentTasks _ = _ :: _ |- _ => rewrite Ht in I3
      end.
  apply Forall_inv in I3. simpl in I3.
  eexists. split; [apply I3; reflexivity|]. simpl. intros; congruence.
Qed.

(** The statement of C4 applied to the sample run: at its end, and at
    its first press of the pay button. *)
Lemma payment_requires_booking_witness :
  (exists st effs payload,
      exec sample_ctx sample_state sample_run = Some (st, effs)
      /\ In (Settled_createBooking (Data payload)) sample_run
      /\ bookingData st = payload)
  /\ exists d,
       In (Settled_createBooking (Data (Some d))) (firstn 4 sample_run)
       /\ "bk-1" = booking_id (booking d).
Proof.
  split.
  - destruct (exec sample_ctx sample_state sample_run) as [[st effs]|] eqn:Hrun;
      [|vm_compute in Hrun; discriminate Hrun].
    destruct (payment_requires_booking sample_ctx sample_params sample_run st effs Hrun)
      as [Hbooked _].
    destruct Hbooked as (payload & Hin & Hd).
    { vm_compute in Hrun. inversion Hrun. simpl. lia. }
    exists st, effs, payload. auto.
  - destruct (exec sample_ctx sample_state (firstn 4 sample_run))
      as [[st effs]|] eqn:Hrun; [|vm_compute in Hrun; discriminate Hrun].
    destruct (payment_requires_booking sample_ctx sample_params _ st effs Hrun)
      as (_ & _ & Hcalls).
    destruct (step sample_ctx st (Click_pay true)) as [[st' eff]|] eqn:Hstep;
      [|vm_compute in Hrun; inversion Hrun; subst; vm_compute in Hstep;
        discriminate Hstep].
    assert (Hin : In (Remote (Create_payment_intent "bk-1" (of_Z 361) "gbp")) eff).
    { vm_compute in Hrun. inversion Hrun; subst. vm_compute in Hstep.
      inversion Hstep. left. reflexivity. }
    destruct (Hcalls (Click_pay true) st' eff _ Hstep Hin eq_refl) as (d & Hd & Hid).
    exists d. split; [exact Hd|]. now apply Hid.
Defined.

(** C4 as stated fails.  The code stores the payload of a successful
    create-booking call without looking at it and moves to step 3; when
    that payload is [null] the flow is at the payment step and holds no
    booking record.  Pressing the pay button there makes no remote call:
    reading the booking's id fails and the error is reported. *)
Lemma payment_requires_booking_counterexample :
  exists st effs st' eff,
    exec sample_ctx sample_state
      (firstn 3 sample_run ++ [Settled_createBooking (Data None)]) = Some (st, effs)
    /\ currentStep st = 3
    /\ bookingData st = None
    /\ step sample_ctx st (Click_pay true) = Some (st', eff)
    /\ eff = [Toast_error (Lit TypeError_booking);
              Console_error "Payment error:" TypeError_booking;
              Toast_error (Lit TypeError_booking)]
    /\ currentStep st' = 3.
Proof. do 4 eexists. compute_conjuncts. Qed.

Lemma intents_received_snoc (evs : list Event) (ev : Event) :
  intents_received (evs ++ [ev]) =
  (intents_received evs
   + match ev with
     | Settled_createPaymentIntent (Data _) => 1
     | _ => 0
     end)%nat.
Proof.
  induction evs as [|e evs IH]; simpl.
  - destruct ev; reflexivity.
  - destruct e; try exact IH. destruct r; try exact IH. now rewrite IH.
Qed.

Lemma payment_inv_step (E : Ctx) (evs : list Event) (st st' : State)
  (ev : Event) (eff : list Effect) :
  payment_inv evs st ->
  step E st ev = Some (st', eff) ->
  payment_inv (evs ++ [ev]) st'.
Proof.
  intros (T & C) Hstep.
  unfold payment_inv. rewrite intents_received_snoc.
  destruct ev; step_cases Hstep; tests_to_props;
    cbn [setStartDate setEndDate setAdults setChildren setInfants setPets
           setSpecialRequests setCurrentStep setBookingData setPaymentIntent
           setIsProcessing withCheckAvailabilityMutation withCreateBookingMutation
           withPaymentTasks finally_payment
           currentStep bookingData paymentTasks paymentIntent isProcessing];
    rewrite ?Nat.add_0_r;
    try (split; [exact T|exact C]).
  all: destruct T as [T|(Tp & t & Tt & Ti)]; try congruence;
    try (inversion Tt; subst; clear Tt);
    try rewrite T; cbn [app].
  all: split;
    [ first [ left; reflexivity
            | right; split;
              [ solve [reflexivity | assumption]
              | eexists; split;
                [ reflexivity | intros; solve [assumption | discriminate | congruence] ] ] ]
    | try solve [assumption | reflexivity] ].
  all: try solve [ match goal with
                   | Hp : paymentIntent _ = _ |- _ => rewrite Hp
                   end; exact C ].
  specialize (Ti eq_refl). try rewrite Ti in C. rewrite C. reflexivity.
Qed.

Lemma payment_inv_reachable (E : Ctx) (sp : SearchParams) :
  forall evs st effs,
    exec E (initialState E sp) evs = Some (st, effs) -> payment_inv evs st.
Proof.
  apply run_invariant.
  - split; [now left|reflexivity].
  - intros evs st ev st' eff. apply payment_inv_step.
Qed.

Lemma idle_when_not_processing (E : Ctx) (sp : SearchParams) :
  forall evs st effs,
    exec E (initialState E sp) evs = Some (st, effs) ->
    isProcessing st = false -> paymentTasks st = [].
Proof.
  intros evs st effs Hrun Hidle.
  destruct (payment_inv_reachable E sp evs st effs Hrun) as ([T|(Tp & _)] & _).
  - exact T.
  - congruence.
Qed.



Lemma single_flight_step (E : Ctx) (st st' : State) (ev : Event) (eff : list Effect) :
  single_flight (createBookingMutation st) ->
  step E st ev = Some (st', eff) ->
  single_flight (createBookingMutation st').
Proof.
  intros Hinv Hstep.
  destruct ev; step_cases Hstep; tests_to_props;
    cbn [setStartDate setEndDate setAdults setChildren setInfants setPets
           setSpecialRequests setCurrentStep setBookingData setPaymentIntent
           setIsProcessing withCheckAvailabilityMutation withCreateBookingMutation
           withPaymentTasks finally_payment createBookingMutation];
    try exact Hinv;
    unfold single_flight, mutate, settle in *;
    cbn [isPending inFlight] in *;
    destruct Hinv as [[Hp Hn]|[Hp Hn]]; try congruence;
    try (rewrite Hn in *); cbn [pred]; auto.
  all: match goal with
       | H : 1%nat = S ?n |- _ => inversion H; subst; auto
       end.
Qed.

Lemma single_flight_reachable (E : Ctx) (sp : SearchParams) :
  forall evs st effs,
    exec E (initialState E sp) evs = Some (st, effs) ->
    single_flight (createBookingMutation st).
Proof.
  apply (run_invariant E (initialState E sp)
           (fun _ st => single_flight (createBookingMutation st))).
  - right. split; reflexivity.
  - intros evs st ev st' eff. apply single_flight_step.
Qed.

(** C6. At most one create-booking request is in flight.  While one is
    in flight the mutation is pending and the submit button is disabled,
    so the click is not an event of the flow; an event that makes a
    create-booking call finds none in flight and leaves exactly one. *)
Theorem create_booking_single_flight
  (E : Ctx) (sp : SearchParams) (evs : list Event) (st : State)
  (effs : list Effect) :
  exec E (initialState E sp) evs = Some (st, effs) ->
  (inFlight (createBookingMutation st) <= 1)%nat
  /\ (inFlight (createBookingMutation st) = 1%nat ->
      isPending (createBookingMutation st) = true
      /\ step E st Click_continueToPayment = None)
  /\ (forall ev st' eff body,
         step E st ev = Some (st', eff) ->
         In (Remote (Create_booking body)) eff ->
         ev = Click_continueToPayment
         /\ inFlight (createBookingMutation st) = 0%nat
         /\ inFlight (createBookingMutation st') = 1%nat).
Proof.
  intros Hrun.
  pose proof (single_flight_reachable E sp evs st effs Hrun) as Hinv.
  split; [destruct Hinv as [[_ Hn]|[_ Hn]]; lia|].
  split.
  - intros Hone. destruct Hinv as [[Hp _]|[_ Hn]]; [|congruence].
    split; [exact Hp|].
    unfold step. rewrite Hp. cbn [negb]. now rewrite andb_false_r.
  - intros ev st' eff body Hstep Hin.
    destruct ev; step_cases Hstep; tests_to_props;
      simpl in Hin;
      repeat match goal with
             | H : _ \/ _ |- _ => destruct H
             | H : False |- _ => contradiction
             | H : _ = Remote _ |- _ => inversion H; subst; clear H
             end.
    destruct Hinv as [[Hp _]|[_ Hn]]; [congruence|].
    split; [reflexivity|]. split; [exact Hn|].
    cbn [withCreateBookingMutation createBookingMutation mutate inFlight].
    now rewrite Hn.
Qed.

(** The statement of C6 applied to the sample flow when the guest
    presses "Continue to Payment", and just after. *)
Lemma create_booking_single_flight_witness :
  (exists st effs,
      exec sample_ctx sample_state (firstn 3 sample_run) = Some (st, effs)
      /\ inFlight (createBookingMutation st) = 1%nat
      /\ step sample_ctx st Click_continueToPayment = None)
  /\ exists st effs,
       exec sample_ctx sample_state (firstn 2 sample_run) = Some (st, effs)
       /\ inFlight (createBookingMutation st) = 0%nat.
Proof.
  split.
  - destruct (exec sample_ctx sample_state (firstn 3 sample_run))
      as [[st effs]|] eqn:Hrun; [|vm_compute in Hrun; discriminate Hrun].
    destruct (create_booking_single_flight sample_ctx sample_params _ st effs Hrun)
      as (_ & Hdisabled & _).
    assert (Hone : inFlight (createBookingMutation st) = 1%nat).
    { vm_compute in Hrun. inversion Hrun. reflexivity. }
    exists st, effs. split; [reflexivity|]. split; [exact Hone|].
    exact (proj2 (Hdisabled Hone)).
  - destruct (exec sample_ctx sample_state (firstn 2 sample_run))
      as [[st effs]|] eqn:Hrun; [|vm_compute in Hrun; discriminate Hrun].
    destruct (create_booking_single_flight sample_ctx sample_params _ st effs Hrun)
      as (_ & _ & Hcalls).
    destruct (step sample_ctx st Click_continueToPayment) as [[st' eff]|] eqn:Hstep;
      [|vm_compute in Hrun; inversion Hrun; subst; vm_compute in Hstep;
        discriminate Hstep].
    assert (Hin : exists body, In (Remote (Create_booking body)) eff).
    { vm_compute in Hrun. inversion Hrun; subst. vm_compute in Hstep.
      inversion Hstep. eexists. left. reflexivity. }
    destruct Hin as (body & Hin).
    destruct (Hcalls _ _ _ body Hstep Hin) as (_ & Hnone & _).
    exists st, effs. split; [reflexivity|exact Hnone].
Defined.

(** ** The two clicks of the payment step *)

(** C10 (as amended). When the pay button is pressed while no intent is
    held, the handler only asks for a payment intent: no card confirmation
    is attempted, and step and intent are as before.  When the state holds
    a booking record it sends one create-payment-intent call for that
    booking and the current total; when the intent arrives it is stored
    with the toast "Ready to process payment", still at the same step, and
    it is a second press of the button that submits the card against the
    new intent's client secret.  When the stored booking is [null] the
    request cannot be built: nothing is sent, the error is reported and
    the state is left as it was. *)
Theorem first_click_only_creates_intent
  (E : Ctx) (sp : SearchParams) (evs : list Event) (st st' : State)
  (effs eff : list Effect) (card : bool) :
  exec E (initialState E sp) evs = Some (st, effs) ->
  paymentIntent st = None ->
  step E st (Click_pay card) = Some (st', eff) ->
  (forall secret em, ~ In (Remote (Stripe_confirmCardPayment secret em)) eff)
  /\ (forall pi b, ~ In (Remote (Confirm_payment pi b)) eff)
  /\ currentStep st' = currentStep st
  /\ paymentIntent st' = None
  /\ match bookingData st with
     | Some bd =>
         eff = [Remote (Create_payment_intent (booking_id (booking bd))
                          (totalPrice E st) "gbp")]
         /\ forall d,
              exists st2,
                step E st' (Settled_createPaymentIntent (Data d))
                = Some (st2, [Toast_success (Lit "Ready to process payment")])
                /\ currentStep st2 = currentStep st
                /\ paymentIntent st2 = Some d
                /\ exists st3,
                     step E st2 (Click_pay true)
                     = Some (st3, [Remote (Stripe_confirmCardPayment (clientSecret d)
                                             (match user E with
                                              | Some u => email u
                                              | None => None
                                              end))])
     | None =>
         st' = st
         /\ eff = [Toast_error (Lit TypeError_booking);
                   Console_error "Payment error:" TypeError_booking;
                   Toast_error (Lit TypeError_booking)]
     end.
Proof.
  intros Hrun Hnone Hstep.
  pose proof (idle_when_not_processing E sp evs st effs Hrun) as Hidle.
  unfold step in Hstep.
  destruct ((currentStep st =? 3)
            && negb (isProcessing st || negb (stripe E) || negb (elements E))) eqn:Hen;
    [|discriminate Hstep].
  apply andb_true_iff in Hen. destruct Hen as [Hcur Hen].
  apply Z.eqb_eq in Hcur.
  apply negb_true_iff, orb_false_iff in Hen. destruct Hen as [Hen Helem].
  apply orb_false_iff in Hen. destruct Hen as [Hproc Hstripe].
  specialize (Hidle Hproc).
  unfold handlePaymentSubmit in Hstep.
  rewrite Hstripe, Helem, Hnone in Hstep. cbn [orb] in Hstep.
  destruct (bookingData st) as [bd|] eqn:Hbd.
  - rewrite Hidle in Hstep. cbn [app] in Hstep.
    inversion Hstep; subst st' eff; clear Hstep.
    split; [intros secret em [H|[]]; discriminate H|].
    split; [intros pi b [H|[]]; discriminate H|].
    split; [reflexivity|]. split; [exact Hnone|].
    split; [reflexivity|].
    intros d. eexists. split; [reflexivity|].
    split; [reflexivity|]. split; [reflexivity|].
    eexists. unfold step, handlePaymentSubmit.
    cbn [finally_payment setIsProcessing setPaymentIntent withPaymentTasks
           currentStep isProcessing paymentIntent].
    rewrite Hcur, Hstripe, Helem. reflexivity.
  - inversion Hstep; subst st' eff; clear Hstep.
    split; [intros secret em [H|[H|[H|[]]]]; discriminate H|].
    split; [intros pi b [H|[H|[H|[]]]]; discriminate H|].
    split; [reflexivity|]. split; [exact Hnone|].
    split; [|reflexivity].
    destruct st; cbn [isProcessing] in Hproc; subst; reflexivity.
Qed.

(** The statement of C10 applied to the sample run at its first press
    of the pay button. *)
Lemma first_click_only_creates_intent_witness :
  exists st effs st' eff,
    exec sample_ctx sample_state (firstn 4 sample_run) = Some (st, effs)
    /\ step sample_ctx st (Click_pay true) = Some (st', eff)
    /\ currentStep st' = currentStep st
    /\ paymentIntent st' = None.
Proof.
  destruct (exec sample_ctx sample_state (firstn 4 sample_run))
    as [[st effs]|] eqn:Hrun; [|vm_compute in Hrun; discriminate Hrun].
  destruct (step sample_ctx st (Click_pay true)) as [[st' eff]|] eqn:Hstep;
    [|vm_compute in Hrun; inversion Hrun; subst; vm_compute in Hstep;
      discriminate Hstep].
  assert (Hnone : paymentIntent st = None).
  { vm_compute in Hrun. inversion Hrun. reflexivity. }
  destruct (first_click_only_creates_intent sample_ctx sample_params _ st st'
              effs eff true Hrun Hnone Hstep) as (_ & _ & Hcur & Hkept & _).
  exists st, effs, st', eff. auto.
Defined.

(** C10 as stated fails in the state the flow reaches when create-booking
    succeeds with a [null] payload: no intent is held, and pressing the pay
    button creates none, since no remote call is made at all. *)
Lemma first_click_counterexample :
  exists st effs st' eff,
    exec sample_ctx sample_state
      (firstn 3 sample_run ++ [Settled_createBooking (Data None)]) = Some (st, effs)
    /\ paymentIntent st = None
    /\ step sample_ctx st (Click_pay true) = Some (st', eff)
    /\ filter (fun e => match e with Remote _ => true | _ => false end) eff = []
    /\ paymentIntent st' = None
    /\ paymentTasks st' = [].
Proof. do 4 eexists. compute_conjuncts. Qed.

(** ** Going back *)

(** C8. The back buttons of steps 2 and 3 change the current step, from
    3 to 2 or from 2 to 1, and nothing else: the dates, the occupancy
    (adults, children, infants, pets), the special requests, the booking
    and the payment intent are those of the state before, and nothing is
    sent or shown. *)
Theorem back_changes_only_the_step
  (E : Ctx) (st st' : State) (eff : list Effect) :
  step E st Click_back = Some (st', eff) ->
  (currentStep st = 3 /\ currentStep st' = 2
   \/ currentStep st = 2 /\ currentStep st' = 1)
  /\ st' = setCurrentStep (currentStep st') st
  /\ eff = []
  /\ startDate st' = startDate st
  /\ endDate st' = endDate st
  /\ adults st' = adults st
  /\ children st' = children st
  /\ infants st' = infants st
  /\ pets st' = pets st
  /\ specialRequests st' = specialRequests st
  /\ bookingData st' = bookingData st
  /\ paymentIntent st' = paymentIntent st.
Proof.
  intros Hstep. unfold step in Hstep.
  destruct (currentStep st =? 2) eqn:H2.
  - apply Z.eqb_eq in H2. inversion Hstep; subst st' eff.
    split; [right; split; [exact H2|reflexivity]|].
    repeat split; reflexivity.
  - destruct (currentStep st =? 3) eqn:H3; [|discriminate Hstep].
    apply Z.eqb_eq in H3. inversion Hstep; subst st' eff.
    split; [left; split; [exact H3|reflexivity]|].
    repeat split; reflexivity.
Qed.

(** The statement of C8 applied to the sample state at the payment step. *)
Lemma back_changes_only_the_step_witness :
  step sample_ctx sample_intent_held Click_back
  = Some (setCurrentStep 2 sample_intent_held, [])
  /\ adults (setCurrentStep 2 sample_intent_held) = adults sample_intent_held
  /\ specialRequests (setCurrentStep 2 sample_intent_held)
     = specialRequests sample_intent_held.
Proof.
  destruct (back_changes_only_the_step sample_ctx sample_intent_held
              (setCurrentStep 2 sample_intent_held) [] eq_refl)
    as (_ & _ & _ & _ & _ & Hadults & _ & _ & _ & Hreq & _).
  split; [reflexivity|]. split; [exact Hadults|exact Hreq].
Defined.

(** ** The default rate card *)






(** ** Remarks on the hypotheses *)

(** Why the refinement of rules (1) to (3) asks that the dates parse:
    two non-empty strings that are not dates compare false both ways, so
    [handleDateSubmit] reports nothing and calls check-availability. *)
Lemma unparseable_dates_are_submitted :
  let st := setEndDate "tomorrow" (setStartDate "today" sample_state) in
  spec_validate sample_ctx st = Some InvalidDateRangeError
  /\ snd (handleDateSubmit sample_ctx st)
     = [Remote (Check_availability "prop-1" "today" "tomorrow")].
Proof. split; reflexivity. Qed.

(** Why [single_flight] is about the booking mutation only: the date
    fields stay editable while the availability check is in flight. *)
Lemma dates_editable_while_checking :
  exists st effs,
    exec sample_ctx sample_state [Click_checkAvailability; Change_endDate "2025-05-01"]
    = Some (st, effs)
    /\ isPending (checkAvailabilityMutation st) = true
    /\ endDate st = "2025-05-01".
Proof. do 2 eexists. compute_conjuncts. Qed.

(** * Further properties of the booking flow *)

(** ** The availability gate *)

Lemma gate_inv_step (E : Ctx) (evs : list Event) (st st' : State)
  (ev : Event) (eff : list Effect) :
  gate_inv evs st ->
  step E st ev = Some (st', eff) ->
  gate_inv (evs ++ [ev]) st'.
Proof.
  intros (R & G) Hstep.
  assert (G' : 2 <= currentStep st
               \/ inFlight (createBookingMutation st) <> 0%nat
               \/ paymentTasks st <> []
               -> availability_confirmed (evs ++ [ev])).
  { intros H. apply in_or_app. left. now apply G. }
  destruct ev; step_cases Hstep; tests_to_props;
    (split;
     [ cbn [setStartDate setEndDate setAdults setChildren setInfants setPets
              setSpecialRequests setCurrentStep setBookingData setPaymentIntent
              setIsProcessing withCheckAvailabilityMutation
              withCreateBookingMutation withPaymentTasks finally_payment
              currentStep]; lia
     | ]).
  all: cbn [setStartDate setEndDate setAdults setChildren setInfants setPets
              setSpecialRequests setCurrentStep setBookingData setPaymentIntent
              setIsProcessing withCheckAvailabilityMutation
              withCreateBookingMutation withPaymentTasks finally_payment
              currentStep createBookingMutation paymentTasks
              mutate settle inFlight].
  all: try exact G'.
  all: try solve [ intros Hd; apply G';
                   first [ left; lia
                         | right; left; solve [lia | congruence]
                         | right; right; congruence
                         | destruct Hd as [Hd|[Hd|Hd]];
                           first [ left; lia
                                 | right; left; solve [lia | congruence]
                                 | right; right; congruence ] ] ].
  intros _. destruct d as [a]. cbn [available] in *. subst a.
  apply in_or_app. right. now left.
Qed.

Lemma gate_inv_reachable (E : Ctx) (sp : SearchParams) :
  forall evs st effs,
    exec E (initialState E sp) evs = Some (st, effs) -> gate_inv evs st.
Proof.
  apply run_invariant.
  - split; [simpl; lia|]. simpl. intros [H|[H|H]]; [lia|congruence|congruence].
  - intros evs st ev st' eff. apply gate_inv_step.
Qed.

(** X1. The current step is always one of 1, 2, 3, 4, and the flow is
    past step 1 only if an availability check of this run has answered
    that the property is available. *)
Theorem availability_gate
  (E : Ctx) (sp : SearchParams) (evs : list Event) (st : State)
  (effs : list Effect) :
  exec E (initialState E sp) evs = Some (st, effs) ->
  1 <= currentStep st <= 4
  /\ (2 <= currentStep st ->
      In (Settled_checkAvailability (Data {| available := true |})) evs).
Proof.
  intros Hrun.
  destruct (gate_inv_reachable E sp evs st effs Hrun) as (R & G).
  split; [exact R|]. intros Hge. apply G. now left.
Qed.

(** The statement of X1 applied to the sample run. *)
Lemma availability_gate_witness :
  In (Settled_checkAvailability (Data {| available := true |})) sample_run.
Proof.
  destruct (exec sample_ctx sample_state sample_run) as [[st effs]|] eqn:Hrun;
    [|vm_compute in Hrun; discriminate Hrun].
  destruct (availability_gate sample_ctx sample_params sample_run st effs Hrun)
    as [_ Hgate].
  apply Hgate. vm_compute in Hrun. inversion Hrun. simpl. lia.
Defined.

(** ** The processing flag *)

Lemma processing_inv_step (E : Ctx) (st st' : State) (ev : Event) (eff : list Effect) :
  processing_inv st ->
  step E st ev = Some (st', eff) ->
  processing_inv st'.
Proof.
  intros Hinv Hstep. unfold processing_inv in *.
  destruct ev; step_cases Hstep; tests_to_props;
    cbn [setStartDate setEndDate setAdults setChildren setInfants setPets
           setSpecialRequests setCurrentStep setBookingData setPaymentIntent
           setIsProcessing withCheckAvailabilityMutation withCreateBookingMutation
           withPaymentTasks finally_payment isProcessing paymentTasks];
    try exact Hinv;
    destruct Hinv as [(Hp & t & Ht)|(Hp & Ht)]; try congruence;
    try match type of Ht with
        | _ :: _ = [_] => inversion Ht; subst; clear Ht
        end;
    try rewrite Ht; cbn [app];
    solve [ right; split; reflexivity
          | left; split; [solve [reflexivity|assumption]|eexists; reflexivity] ].
Qed.

Lemma processing_inv_reachable (E : Ctx) (sp : SearchParams) :
  forall evs st effs,
    exec E (initialState E sp) evs = Some (st, effs) -> processing_inv st.
Proof.
  apply (run_invariant E (initialState E sp) (fun _ st => processing_inv st)).
  - right. split; reflexivity.
  - intros evs st ev st' eff. apply processing_inv_step.
Qed.

(** X2. The processing flag is set exactly while an execution of the
    payment handler is suspended on a remote answer, and at most one
    execution is suspended at a time.  So whenever the handler has
    finished, at step 3 with Stripe loaded, the pay button is enabled. *)
Theorem processing_flag_tracks_handler
  (E : Ctx) (sp : SearchParams) (evs : list Event) (st : State)
  (effs : list Effect) :
  exec E (initialState E sp) evs = Some (st, effs) ->
  (isProcessing st = true <-> paymentTasks st <> [])
  /\ (List.length (paymentTasks st) <= 1)%nat
  /\ (paymentTasks st = [] ->
      currentStep st = 3 -> stripe E = true -> elements E = true ->
      forall card, step E st (Click_pay card)
                   = Some (handlePaymentSubmit E st card)).
Proof.
  intros Hrun.
  destruct (processing_inv_reachable E sp evs st effs Hrun)
    as [(Hp & t & Ht)|(Hp & Ht)].
  - split; [split; intros _; [rewrite Ht; discriminate|exact Hp]|].
    split; [rewrite Ht; simpl; lia|]. intros Hnil. congruence.
  - split; [split; intros H; congruence|].
    split; [rewrite Ht; simpl; lia|].
    intros _ Hcur Hs He card. unfold step. now rewrite Hcur, Hp, Hs, He.
Qed.

(** The statement of X2 applied to the sample run after a declined card. *)
Lemma processing_flag_tracks_handler_witness :
  exists st effs,
    exec sample_ctx sample_state
      (firstn 7 sample_run
       ++ [Settled_confirmCardPayment (StripeError (Some "Your card was declined."))])
    = Some (st, effs)
    /\ step sample_ctx st (Click_pay true)
       = Some (handlePaymentSubmit sample_ctx st true).
Proof.
  destruct (exec sample_ctx sample_state
              (firstn 7 sample_run
               ++ [Settled_confirmCardPayment
                     (StripeError (Some "Your card was declined."))]))
    as [[st effs]|] eqn:Hrun; [|vm_compute in Hrun; discriminate Hrun].
  destruct (processing_flag_tracks_handler sample_ctx sample_params _ st effs Hrun)
    as (_ & _ & Henabled).
  exists st, effs. split; [reflexivity|].
  apply Henabled; vm_compute in Hrun; inversion Hrun; reflexivity.
Defined.

(** ** The availability check *)

Lemma availability_single_flight_step
  (E : Ctx) (st st' : State) (ev : Event) (eff : list Effect) :
  single_flight (checkAvailabilityMutation st) ->
  step E st ev = Some (st', eff) ->
  single_flight (checkAvailabilityMutation st').
Proof.
  intros Hinv Hstep.
  destruct ev; step_cases Hstep; tests_to_props;
    cbn [setStartDate setEndDate setAdults setChildren setInfants setPets
           setSpecialRequests setCurrentStep setBookingData setPaymentIntent
           setIsProcessing withCheckAvailabilityMutation withCreateBookingMutation
           withPaymentTasks finally_payment checkAvailabilityMutation];
    try exact Hinv;
    unfold single_flight, mutate, settle in *;
    cbn [isPending inFlight] in *;
    destruct Hinv as [[Hp Hn]|[Hp Hn]]; try congruence;
    try (rewrite Hn in *); cbn [pred]; auto.
  all: match goal with
       | H : 1%nat = S ?n |- _ => inversion H; subst; auto
       end.
Qed.

Lemma availability_single_flight_reachable (E : Ctx) (sp : SearchParams) :
  forall evs st effs,
    exec E (initialState E sp) evs = Some (st, effs) ->
    single_flight (checkAvailabilityMutation st).
Proof.
  apply (run_invariant E (initialState E sp)
           (fun _ st => single_flight (checkAvailabilityMutation st))).
  - right. split; reflexivity.
  - intros evs st ev st' eff. apply availability_single_flight_step.
Qed.

Lemma truthy_str_nonempty (s : string) : truthy_str s = true -> s <> "".
Proof. destruct s; [discriminate|]. intros _. discriminate. Qed.

Lemma ge_false_lt (a b : Q) : ge (Num a) (Num b) = false -> (a < b)%Q.
Proof.
  unfold ge. intros H. apply Qnot_le_lt. intros Hle.
  apply Qle_bool_iff in Hle. congruence.
Qed.

Lemma lt_false_le (a b : Q) : lt (Num a) (Num b) = false -> (b <= a)%Q.
Proof.
  unfold lt. intros H. apply negb_false_iff in H. now apply Qle_bool_iff.
Qed.

(** A time value is within the range of the language. *)
Lemma Date_getTime_range (E : Ctx) (s : string) (a : Q) :
  Date_getTime E s = Num a -> (Qabs a <= inject_Z maxTime)%Q.
Proof.
  unfold Date_getTime, TimeClip.
  destruct (Date_parse E s) as [|[n d]|neg]; try discriminate.
  destruct (Qle_bool (Qabs (n # d)) (inject_Z maxTime)) eqn:Hle; [|discriminate].
  intros Heq. apply Num_inj in Heq. rewrite <- Heq.
  apply Qle_bool_iff in Hle.
  apply Qle_trans with (Qabs (n # d)); [|exact Hle].
  unfold Qabs, inject_Z, Qle. cbn [Qnum Qden].
  rewrite <- (Z.quot_abs n (Zpos d)) by discriminate.
  change (Z.abs (Zpos d)) with (Zpos d).
  rewrite Z.quot_div_nonneg by lia.
  rewrite Z.mul_1_r, Z.mul_comm. apply Z.mul_div_le. reflexivity.
Qed.

(** X3. Every check-availability call is made by the check button at
    step 1 with no other check in flight; it names the page's property
    and carries the two dates of the form, both non-empty; and when the
    dates parse, check-out is after check-in and the stay is at least the
    minimum stay. *)
Theorem availability_call_is_validated
  (E : Ctx) (sp : SearchParams) (evs : list Event) (st st' : State)
  (effs eff : list Effect) (ev : Event) (p s e : string) :
  exec E (initialState E sp) evs = Some (st, effs) ->
  step E st ev = Some (st', eff) ->
  In (Remote (Check_availability p s e)) eff ->
  ev = Click_checkAvailability
  /\ currentStep st = 1
  /\ inFlight (checkAvailabilityMutation st) = 0%nat
  /\ p = property_id (property E)
  /\ s = startDate st /\ e = endDate st
  /\ s <> "" /\ e <> ""
  /\ forall a b,
       Date_getTime E s = Num a -> Date_getTime E e = Num b ->
       (a < b)%Q
       /\ (min_stay_nights (pricing E)
           <= inject_Z (Qceiling ((b - a) / inject_Z msPerDay)))%Q.
Proof.
  intros Hrun Hstep Hin.
  pose proof (availability_single_flight_reachable E sp evs st effs Hrun) as Hsf.
  destruct ev; step_cases Hstep; tests_to_props;
    simpl in Hin;
    repeat match goal with
           | H : _ \/ _ |- _ => destruct H
           | H : False |- _ => contradiction
           | H : _ = Remote _ |- _ => inversion H; subst; clear H
           end.
  apply negb_false_iff in H2, H3.
  split; [reflexivity|]. split; [exact H|].
  split.
  { destruct Hsf as [[Hp _]|[_ Hn]]; [congruence|exact Hn]. }
  split; [reflexivity|]. split; [reflexivity|]. split; [reflexivity|].
  split; [now apply truthy_str_nonempty|].
  split; [now apply truthy_str_nonempty|].
  intros a b Ha Hb.
  pose proof (Date_getTime_range E _ a Ha) as Hra.
  pose proof (Date_getTime_range E _ b Hb) as Hrb.
  rewrite Ha, Hb in Heqb1.
  assert (Hlt : (a < b)%Q) by now apply ge_false_lt.
  split; [exact Hlt|].
  set (n := Qceiling ((b - a) / inject_Z msPerDay)).
  assert (HD : (0 < inject_Z msPerDay)%Q) by reflexivity.
  assert (Hcover : (b - a <= inject_Z (n * msPerDay))%Q).
  { rewrite inject_Z_mult.
    pose proof (Qle_ceiling ((b - a) / inject_Z msPerDay)) as Hc. fold n in Hc.
    setoid_replace (b - a)%Q with ((b - a) / inject_Z msPerDay * inject_Z msPerDay)%Q
      by (field; lra).
    apply Qmult_le_r; [exact HD|exact Hc]. }
  assert (Hn : n <= 200000000).
  { rewrite <- (Qceiling_Z 200000000). apply Qceiling_resp_le.
    apply Qle_shift_div_r; [exact HD|].
    apply Qabs_Qle_condition in Hra, Hrb.
    change (inject_Z 200000000 * inject_Z msPerDay)%Q
      with (inject_Z maxTime + inject_Z maxTime)%Q.
    lra. }
  destruct (nights_upper E st a b n H2 H3 Ha Hb Hlt Hcover) as (k & Hk & _ & Hkn); [lia|].
  rewrite Hk in Heqb2. apply lt_false_le in Heqb2.
  apply Qle_trans with (inject_Z k); [exact Heqb2|]. now rewrite <- Zle_Qle.
Qed.

(** The statement of X3 applied to the first click of the sample run. *)
Lemma availability_call_is_validated_witness :
  (inject_Z 1748736000000 < inject_Z 1748995200000)%Q
  /\ (min_stay_nights (pricing sample_ctx) <= inject_Z 3)%Q.
Proof.
  destruct (availability_call_is_validated sample_ctx sample_params [] sample_state
              (withCheckAvailabilityMutation (mutate idle) sample_state) []
              [Remote (Check_availability "prop-1" "2025-06-01" "2025-06-04")]
              Click_checkAvailability "prop-1" "2025-06-01" "2025-06-04"
              eq_refl eq_refl (or_introl eq_refl))
    as (_ & _ & _ & _ & _ & _ & _ & _ & Hdates).
  apply (Hdates (inject_Z 1748736000000) (inject_Z 1748995200000));
    vm_compute; reflexivity.
Defined.

(** ** The create-booking call *)

(** X4. Every create-booking call is made by the continue button at
    step 2, for a logged-in user, after an availability check of this run
    has answered that the property is available.  Its body is the form as
    it stands (dates, party, special requests) with the page's property
    and rate card; the sum of adults and children, as the code computes
    it, is not above the berths, and when adults and children are whole
    numbers whose sum has fewer than 54 bits (the sums that are computed
    exactly) that sum is at most the berths; and it carries pets only for
    a pet-friendly property. *)
Theorem create_booking_call_is_guarded
  (E : Ctx) (sp : SearchParams) (evs : list Event) (st st' : State)
  (effs eff : list Effect) (ev : Event) (body : BookingRequest) :
  exec E (initialState E sp) evs = Some (st, effs) ->
  step E st ev = Some (st', eff) ->
  In (Remote (Create_booking body)) eff ->
  ev = Click_continueToPayment
  /\ currentStep st = 2
  /\ user E <> None
  /\ In (Settled_checkAvailability (Data {| available := true |})) evs
  /\ body = {| req_property_id := property_id (property E);
               req_start_date := startDate st;
               req_end_date := endDate st;
               req_adults := adults st;
               req_children := children st;
               req_infants := infants st;
               req_pets := pets st;
               req_special_requests := specialRequests st;
               req_pricing := pricing E |}
  /\ gt (add (adults st) (children st)) (Num (berths (property E))) = false
  /\ (forall a c : Z,
         denotes (adults st) (inject_Z a) -> denotes (children st) (inject_Z c) ->
         Z.abs (a + c) < 2 ^ 53 ->
         (inject_Z (a + c) <= berths (property E))%Q)
  /\ (gt (req_pets body) (of_Z 0) = true -> pet_friendly (property E) = true).
Proof.
  intros Hrun Hstep Hin.
  destruct (gate_inv_reachable E sp evs st effs Hrun) as (_ & G).
  pose proof (pets_need_pet_friendly E sp evs st effs Hrun) as Hpets.
  destruct ev; step_cases Hstep; tests_to_props;
    simpl in Hin;
    repeat match goal with
           | H : _ \/ _ |- _ =>
               lazymatch type of H with
               | pets _ = _ \/ _ => fail
               | _ => destruct H
               end
           | H : False |- _ => contradiction
           | H : _ = Remote _ |- _ => inversion H; subst; clear H
           end.
  split; [reflexivity|]. split; [exact H|]. split; [discriminate|].
  split; [apply G; left; lia|]. split; [reflexivity|].
  split; [reflexivity|].
  split.
  - intros a c Ha Hc Hsmall.
    rewrite (occupancy_test _ _ a c _ Ha Hc Hsmall) in Heqb0.
    apply negb_false_iff in Heqb0. now apply Qle_bool_iff.
  - cbn [req_pets]. intros Hgt.
    destruct Hpets as [H0'|Hpf]; [|exact Hpf].
    rewrite H0' in Hgt. discriminate Hgt.
Qed.

(** The statement of X4 applied to the sample run when the guest
    presses "Continue to Payment". *)
Lemma create_booking_call_is_guarded_witness :
  exists st effs,
    exec sample_ctx sample_state (firstn 2 sample_run) = Some (st, effs)
    /\ currentStep st = 2
    /\ ((inject_Z (2 + 0) <= berths (property sample_ctx))%Q).
Proof.
  destruct (exec sample_ctx sample_state (firstn 2 sample_run))
    as [[st effs]|] eqn:Hrun; [|vm_compute in Hrun; discriminate Hrun].
  destruct (step sample_ctx st Click_continueToPayment) as [[st' eff]|] eqn:Hstep;
    [|vm_compute in Hrun; inversion Hrun; subst; vm_compute in Hstep;
      discriminate Hstep].
  assert (Hin : exists body, In (Remote (Create_booking body)) eff).
  { vm_compute in Hrun. inversion Hrun; subst. vm_compute in Hstep.
    inversion Hstep. eexists. left. reflexivity. }
  destruct Hin as (body & Hin).
  destruct (create_booking_call_is_guarded sample_ctx sample_params _ st st'
              effs eff _ body Hrun Hstep Hin)
    as (_ & Hcur & _ & _ & _ & _ & Hocc & _).
  exists st, effs. split; [reflexivity|]. split; [exact Hcur|].
  apply (Hocc 2 0); vm_compute in Hrun; inversion Hrun; vm_compute; reflexivity.
Defined.

(** ** Toasts *)

Lemma or_str_nonempty (m d : string) : d <> "" -> or_str m d <> "".
Proof.
  intros Hd. unfold or_str. destruct m; simpl; [exact Hd|discriminate].
Qed.

(** X5. No event shows an error toast with an empty text.  When a
    remote call fails, each place that catches the error shows the
    error's message, or its own fallback text when the message is empty:
    "Failed to check availability", "Failed to create booking", "Failed
    to create payment intent" and then "Payment failed" for the intent
    (the mutation's handler and the payment handler both report), and
    "Payment failed" for the card and for confirm-payment. *)
Theorem error_toasts_have_text
  (E : Ctx) (st st' : State) (ev : Event) (eff : list Effect) :
  step E st ev = Some (st', eff) ->
  (forall s, In (Toast_error (Lit s)) eff -> s <> "")
  /\ (forall m fallbacks,
         caught ev = Some (m, fallbacks) ->
         error_texts eff = map (fun d => Lit (or_str m d)) fallbacks
         /\ (m = "" -> error_texts eff = map Lit fallbacks)
         /\ (m <> "" -> error_texts eff = map (fun _ => Lit m) fallbacks)
         /\ match ev with
            | Settled_checkAvailability _ =>
                fallbacks = ["Failed to check availability"]
            | Settled_createBooking _ =>
                fallbacks = ["Failed to create booking"]
            | Settled_createPaymentIntent _ =>
                fallbacks = ["Failed to create payment intent"; "Payment failed"]
            | _ => fallbacks = ["Payment failed"]
            end).
Proof.
  intros Hstep. split.
  - intros s Hin.
    destruct ev; step_cases Hstep; unfold catch_payment in Hin; simpl in Hin;
      repeat match goal with
             | H : _ \/ _ |- _ => destruct H
             | H : False |- _ => contradiction
             | H : _ = Toast_error _ |- _ => inversion H; subst; clear H
             end;
      try discriminate;
      try (apply or_str_nonempty; discriminate).
  - intros m fallbacks Hcaught.
    assert (Hmain : error_texts eff = map (fun d => Lit (or_str m d)) fallbacks
                    /\ match ev with
                       | Settled_checkAvailability _ =>
                           fallbacks = ["Failed to check availability"]
                       | Settled_createBooking _ =>
                           fallbacks = ["Failed to create booking"]
                       | Settled_createPaymentIntent _ =>
                           fallbacks = ["Failed to create payment intent"; "Payment failed"]
                       | _ => fallbacks = ["Payment failed"]
                       end).
    { destruct ev; try discriminate Hcaught;
        destruct r; try discriminate Hcaught;
        inversion Hcaught; subst m fallbacks; clear Hcaught;
        step_cases Hstep; split; reflexivity. }
    destruct Hmain as [Htexts Hfall].
    split; [exact Htexts|]. split; [|split; [|exact Hfall]].
    + intros ->. rewrite Htexts. reflexivity.
    + intros Hm. rewrite Htexts. apply map_ext. intros d.
      destruct m; [contradiction|reflexivity].
Qed.

(** The statement of X5 applied to a confirm-payment call that fails
    without a message. *)
Lemma error_toasts_have_text_witness :
  error_texts (catch_payment "") = [Lit "Payment failed"].
Proof.
  destruct (error_toasts_have_text sample_ctx
              (withPaymentTasks [AwaitConfirm (Some sample_booking)]
                 (setIsProcessing true sample_intent_held))
              sample_intent_held
              (Settled_confirmPayment (FunctionsError ""))
              (catch_payment "") eq_refl) as [_ Hcaught].
  destruct (Hcaught "" ["Payment failed"] eq_refl) as (_ & Hempty & _).
  exact (Hempty eq_refl).
Defined.

(** ** What the price depends on *)

(** X6. The total depends only on the two dates, on whether there is
    any pet, and on the nightly rate, cleaning fee and pet fee.  It is the
    same for one pet and for three, for any number of adults, children and
    infants, and whatever the security deposit and the minimum stay. *)
Theorem total_price_frame (E E' : Ctx) (st st' : State) :
  Date_getTime E (startDate st) = Date_getTime E' (startDate st') ->
  Date_getTime E (endDate st) = Date_getTime E' (endDate st') ->
  truthy_str (startDate st) = truthy_str (startDate st') ->
  truthy_str (endDate st) = truthy_str (endDate st') ->
  gt (pets st) (of_Z 0) = gt (pets st') (of_Z 0) ->
  base_price_per_night (pricing E) = base_price_per_night (pricing E') ->
  cleaning_fee (pricing E) = cleaning_fee (pricing E') ->
  pet_fee (pricing E) = pet_fee (pricing E') ->
  nights E st = nights E' st'
  /\ basePrice E st = basePrice E' st'
  /\ serviceFee E st = serviceFee E' st'
  /\ totalPrice E st = totalPrice E' st'.
Proof.
  intros Hs He Hts Hte Hpets Hrate Hclean Hpet.
  assert (Hn : nights E st = nights E' st').
  { unfold nights. now rewrite Hs, He, Hts, Hte. }
  assert (Hb : basePrice E st = basePrice E' st').
  { unfold basePrice. now rewrite Hn, Hrate. }
  assert (Hf : serviceFee E st = serviceFee E' st').
  { unfold serviceFee. now rewrite Hb. }
  split; [exact Hn|]. split; [exact Hb|]. split; [exact Hf|].
  unfold totalPrice, cleaningFee, petFee.
  now rewrite Hb, Hf, Hclean, Hpets, Hpet.
Qed.

(** The statement of X6 applied to the sample stay with one pet and with
    three pets and a larger party. *)
Lemma total_price_frame_witness :
  totalPrice sample_ctx (setPets (of_Z 1) sample_state)
  = totalPrice sample_ctx
      (setPets (of_Z 3) (setAdults (of_Z 4) (setInfants (of_Z 2) sample_state))).
Proof.
  apply (total_price_frame sample_ctx sample_ctx
           (setPets (of_Z 1) sample_state)
           (setPets (of_Z 3) (setAdults (of_Z 4) (setInfants (of_Z 2) sample_state))));
    reflexivity.
Defined.

Lemma add_round64_zero (q : Q) : add (round64 q) (of_Z 0) = round64 q.
Proof.
  destruct (round64 q) as [|r|s] eqn:H; try reflexivity.
  cbn [add of_Z].
  rewrite (round64_eq (r + inject_Z 0) r) by (change (inject_Z 0) with 0%Q; ring).
  exact (round64_idempotent q r H).
Qed.

(** X7. While a date is missing the stay has no nights: base price and
    service fee are zero, and the total is the cleaning fee plus the pet
    fee when there is a pet, added as binary64 values; without a pet it
    is the cleaning fee. *)
Theorem no_dates_no_nights (E : Ctx) (st : State) :
  startDate st = "" \/ endDate st = "" ->
  binary64 (cleaning_fee (pricing E)) ->
  binary64 (pet_fee (pricing E)) ->
  nights E st = of_Z 0
  /\ basePrice E st = of_Z 0
  /\ serviceFee E st = of_Z 0
  /\ totalPrice E st
     = round64 (cleaning_fee (pricing E)
                + if gt (pets st) (of_Z 0) then pet_fee (pricing E) else 0)
  /\ (gt (pets st) (of_Z 0) = false ->
      denotes (totalPrice E st) (cleaning_fee (pricing E))).
Proof.
  intros Hmissing Hcf Hpf.
  assert (Hn : nights E st = of_Z 0).
  { unfold nights. destruct Hmissing as [H|H]; rewrite H; cbn [truthy_str andb];
      [reflexivity|now rewrite andb_false_r]. }
  assert (Hbp : basePrice E st = of_Z 0).
  { unfold basePrice. rewrite Hn. cbn [mul of_Z].
    rewrite (round64_eq (base_price_per_night (pricing E) * inject_Z 0) 0)
      by (change (inject_Z 0) with 0%Q; ring).
    reflexivity. }
  assert (Hfee : serviceFee E st = of_Z 0).
  { unfold serviceFee. rewrite Hbp. vm_compute. reflexivity. }
  assert (Hclean : add (of_Z 0) (cleaningFee E) = Num (Qred (cleaning_fee (pricing E)))).
  { rewrite <- (round64_binary64 _ Hcf).
    pose proof (denotes_or_zero (cleaning_fee (pricing E))) as Hd.
    unfold cleaningFee.
    destruct (or (Num (cleaning_fee (pricing E))) (of_Z 0)) as [|x|s];
      cbn [denotes] in Hd; try contradiction.
    cbn [add of_Z]. apply round64_eq. rewrite Hd.
    change (inject_Z 0) with 0%Q. ring. }
  assert (Hpet : denotes (petFee E st)
                   (if gt (pets st) (of_Z 0) then pet_fee (pricing E) else 0)).
  { unfold petFee. destruct (gt (pets st) (of_Z 0)).
    - apply denotes_or_zero.
    - cbn [of_Z denotes]. reflexivity. }
  assert (Htot : totalPrice E st
                 = round64 (cleaning_fee (pricing E)
                            + if gt (pets st) (of_Z 0)
                              then pet_fee (pricing E) else 0)).
  { unfold totalPrice. rewrite Hbp, Hfee, Hclean.
    destruct (petFee E st) as [|y|s]; cbn [denotes] in Hpet; try contradiction.
    cbn [add].
    rewrite (round64_eq (Qred (cleaning_fee (pricing E)) + y)
               (cleaning_fee (pricing E)
                + if gt (pets st) (of_Z 0) then pet_fee (pricing E) else 0))
      by (rewrite Qred_correct, Hpet; reflexivity).
    apply add_round64_zero. }
  split; [exact Hn|]. split; [exact Hbp|]. split; [exact Hfee|].
  split; [exact Htot|].
  intros Hnopet. rewrite Htot, Hnopet.
  rewrite (round64_eq (cleaning_fee (pricing E) + 0) (cleaning_fee (pricing E)))
    by ring.
  rewrite (round64_binary64 _ Hcf). cbn [denotes]. apply Qred_correct.
Qed.

(** The statement of X7 applied to the form opened without dates. *)
Lemma no_dates_no_nights_witness :
  denotes (totalPrice sample_ctx (setStartDate "" sample_state)) 25.
Proof.
  destruct (no_dates_no_nights sample_ctx (setStartDate "" sample_state)
              (or_introl eq_refl)) as (_ & _ & _ & _ & Htot).
  - apply (binary64_of_Z 25). reflexivity.
  - apply (binary64_of_Z 15). reflexivity.
  - apply Htot. reflexivity.
Defined.

(** X8. Two non-empty date strings of which one is not a date pass
    the checks of the date handler: every comparison with the invalid
    time value is false, so no error is reported and check-availability is
    called with those strings, while the breakdown shows no number. *)
Theorem invalid_dates_pass_validation (E : Ctx) (st : State) :
  truthy_str (startDate st) = true ->
  truthy_str (endDate st) = true ->
  Date_getTime E (startDate st) = NaN \/ Date_getTime E (endDate st) = NaN ->
  handleDateSubmit E st
  = (withCheckAvailabilityMutation (mutate (checkAvailabilityMutation st)) st,
     [Remote (Check_availability (property_id (property E))
                (startDate st) (endDate st))])
  /\ nights E st = NaN
  /\ totalPrice E st = NaN.
Proof.
  intros Hs He Hnan.
  assert (Hn : nights E st = NaN).
  { unfold nights. rewrite Hs, He. cbn [andb].
    destruct Hnan as [H|H]; rewrite H;
      [destruct (Date_getTime E (endDate st)) as [|x|[|]]|]; reflexivity. }
  split.
  - unfold handleDateSubmit. rewrite Hs, He, Hn. cbn [negb orb].
    assert (Hge : ge (Date_getTime E (startDate st)) (Date_getTime E (endDate st))
                  = false).
    { destruct Hnan as [H|H]; rewrite H;
        [|destruct (Date_getTime E (startDate st)) as [|x|[|]]]; reflexivity. }
    rewrite Hge. reflexivity.
  - split; [exact Hn|].
    unfold totalPrice, serviceFee, basePrice. rewrite Hn. reflexivity.
Qed.

(** The statement of X8 applied to a form opened with two words for
    dates. *)
Lemma invalid_dates_pass_validation_witness :
  snd (handleDateSubmit sample_ctx
         (setEndDate "tomorrow" (setStartDate "today" sample_state)))
  = [Remote (Check_availability "prop-1" "today" "tomorrow")].
Proof.
  destruct (invalid_dates_pass_validation sample_ctx
              (setEndDate "tomorrow" (setStartDate "today" sample_state))
              eq_refl eq_refl (or_introl eq_refl)) as (Hsubmit & _).
  rewrite Hsubmit. reflexivity.
Defined.

(** * The pages around the booking form *)

(** ** Strings and search parameters *)

Lemma occurs_append (c : ascii) (a b : string) :
  Browser.occurs c (a ++ b) = Browser.occurs c a || Browser.occurs c b.
Proof.
  induction a as [|x a IH]; simpl; [reflexivity|].
  now rewrite IH, orb_assoc.
Qed.

Lemma split_absent (c : ascii) (s : string) :
  Browser.occurs c s = false -> Browser.split c s = [s].
Proof.
  induction s as [|x s IH]; simpl; [reflexivity|].
  intros H. apply orb_false_iff in H. destruct H as [Hx Hs].
  now rewrite Hx, (IH Hs).
Qed.

Lemma split_at (c : ascii) (a b : string) :
  Browser.occurs c a = false ->
  Browser.split c (a ++ String c b) = a :: Browser.split c b.
Proof.
  induction a as [|x a IH]; simpl.
  - intros _. now rewrite Ascii.eqb_refl.
  - intros H. apply orb_false_iff in H. destruct H as [Hx Ha].
    now rewrite Hx, (IH Ha).
Qed.

Lemma after_first_at (c : ascii) (a b : string) :
  Browser.occurs c a = false ->
  Browser.after_first c (a ++ String c b) = Some b.
Proof.
  induction a as [|x a IH]; simpl.
  - intros _. now rewrite Ascii.eqb_refl.
  - intros H. apply orb_false_iff in H. destruct H as [Hx Ha].
    now rewrite Hx, (IH Ha).
Qed.

Lemma get_absent (ps : Browser.URLSearchParams) (name : string) :
  ~ In name (map fst ps) -> Browser.get ps name = None.
Proof.
  induction ps as [|[k v] ps IH]; simpl; [reflexivity|].
  intros H. destruct (String.eqb k name) eqn:Hk.
  - apply String.eqb_eq in Hk. tauto.
  - apply IH. tauto.
Qed.

Lemma get_remove_all_other (ps : Browser.URLSearchParams) (name other : string) :
  name <> other ->
  Browser.get (Browser.remove_all name ps) other = Browser.get ps other.
Proof.
  intros Hne. induction ps as [|[k v] ps IH]; simpl; [reflexivity|].
  destruct (String.eqb k name) eqn:Hk; simpl.
  - apply String.eqb_eq in Hk. subst k.
    apply String.eqb_neq in Hne. now rewrite Hne.
  - destruct (String.eqb k other); [reflexivity|exact IH].
Qed.

(** Lookup after [set]: the value set for that name, the old value for
    any other. *)
Lemma get_set_same (ps : Browser.URLSearchParams) (name value : string) :
  Browser.get (Browser.set name value ps) name = Some value.
Proof.
  induction ps as [|[k v] ps IH]; simpl.
  - now rewrite String.eqb_refl.
  - destruct (String.eqb k name) eqn:Hk; simpl.
    + now rewrite String.eqb_refl.
    + now rewrite Hk.
Qed.

Lemma get_set_other (ps : Browser.URLSearchParams) (name value other : string) :
  name <> other ->
  Browser.get (Browser.set name value ps) other = Browser.get ps other.
Proof.
  intros Hne. induction ps as [|[k v] ps IH]; simpl.
  - apply String.eqb_neq in Hne. now rewrite Hne.
  - destruct (String.eqb k name) eqn:Hk; simpl.
    + apply String.eqb_eq in Hk. subst k.
      pose proof Hne as Hne'. apply String.eqb_neq in Hne'. rewrite Hne'.
      now apply get_remove_all_other.
    + destruct (String.eqb k other); [reflexivity|exact IH].
Qed.

(** ** The route to the booking page *)

Lemma match_segments_names (pattern path : list string) :
  forall params,
    Browser.match_segments pattern path = Some params ->
    map fst params = Browser.param_names pattern.
Proof.
  revert path.
  induction pattern as [|p pattern IH]; intros [|x path] params H; simpl in H;
    try discriminate.
  - now inversion H.
  - simpl. destruct (Browser.param_of p) as [name|].
    + destruct (truthy_str x); [|discriminate].
      destruct (Browser.match_segments pattern path) as [ps|] eqn:Hm;
        [|discriminate].
      inversion H; subst. simpl. f_equal. eauto.
    + destruct (Browser.eqb_nocase p x); [|discriminate]. eauto.
Qed.

(** Whatever path a pattern matches, the parameters are those the
    pattern names. *)
Lemma matchPath_names (pattern path : string) (params : list (string * string)) :
  Browser.matchPath pattern path = Some params ->
  map fst params
  = Browser.param_names
      (Browser.segments (Browser.strip_leading "/" (Browser.strip_trailing "/" pattern))).
Proof.
  unfold Browser.matchPath. destruct path as [|a rest]; [discriminate|].
  destruct (Ascii.eqb a "/"); [|discriminate].
  apply match_segments_names.
Qed.

(** X9. No URL that the application routes to the booking page makes
    it show the booking form.  The route binds the parameter [id] while
    the page reads [propertyId], so the property query is never enabled
    and, having no data, the page renders the spinner or "Property Not
    Found".  This holds for every path the route's pattern matches, with
    or without trailing slashes and in any letter case, and more generally
    for any parameters whose only name is the one the pattern binds. *)
Theorem booking_route_never_shows_form
  (pattern : string) (params : list (string * string)) (q : QueryResult) :
  In (pattern, BookingPage_route) App_routes ->
  ((exists path, Browser.matchPath pattern path = Some params)
   \/ (forall name, In name (map fst params) ->
         In name (Browser.param_names
                    (Browser.segments
                       (Browser.strip_leading "/"
                          (Browser.strip_trailing "/" pattern)))))) ->
  (BookingPage_enabled params = false -> query_data q = None) ->
  (forall name, In name (map fst params) -> name = "id")
  /\ BookingPage_propertyId params = None
  /\ BookingPage_enabled params = false
  /\ forall p r, BookingPage_render q <> Render_BookingForm p r.
Proof.
  intros Hroute Hparams Hquery.
  assert (Hpattern : pattern = "/booking/:id").
  { simpl in Hroute.
    repeat match goal with
           | H : _ \/ _ |- _ => destruct H
           | H : (_, _) = (_, _) |- _ => inversion H; clear H
           | H : False |- _ => contradiction
           end; reflexivity. }
  subst pattern.
  assert (Hnames : forall name, In name (map fst params) -> name = "id").
  { intros name Hin.
    assert (H : In name (Browser.param_names
                           (Browser.segments
                              (Browser.strip_leading "/"
                                 (Browser.strip_trailing "/" "/booking/:id"))))).
    { destruct Hparams as [(path & Hmatch)|Hall].
      - now rewrite <- (matchPath_names _ _ _ Hmatch).
      - now apply Hall. }
    simpl in H. destruct H as [H|[]]. now symmetry. }
  assert (Hid : BookingPage_propertyId params = None).
  { apply get_absent. intros Hin. apply Hnames in Hin. discriminate Hin. }
  assert (Hen : BookingPage_enabled params = false).
  { unfold BookingPage_enabled. now rewrite Hid. }
  split; [exact Hnames|]. split; [exact Hid|]. split; [exact Hen|].
  intros p r. unfold BookingPage_render. rewrite (Hquery Hen).
  destruct (query_isLoading q); discriminate.
Qed.

(** The statement of X9 applied to three URLs of property 42 that the
    router sends to the booking page. *)
Lemma booking_route_never_shows_form_witness :
  Browser.matchPath "/booking/:id" "/booking/42" = Some [("id", "42")]
  /\ Browser.matchPath "/booking/:id" "/booking/42/" = Some [("id", "42")]
  /\ Browser.matchPath "/booking/:id" "/Booking/42" = Some [("id", "42")]
  /\ BookingPage_propertyId [("id", "42")] = None
  /\ BookingPage_render {| query_data := None; query_isLoading := false |}
     = Render_PropertyNotFound.
Proof.
  destruct (booking_route_never_shows_form "/booking/:id"
              [("id", "42")] {| query_data := None; query_isLoading := false |}
              (or_intror (or_intror (or_intror (or_introl eq_refl))))
              (or_introl (ex_intro _ "/booking/42/" eq_refl))
              (fun _ => eq_refl)) as (_ & Hid & _ & _).
  split; [reflexivity|]. split; [reflexivity|]. split; [reflexivity|].
  split; [exact Hid|reflexivity].
Defined.

(** ** From the property page to the booking form *)

Lemma string_app_assoc (a b c : string) : ((a ++ b) ++ c = a ++ (b ++ c))%string.
Proof. induction a as [|x a IH]; simpl; [reflexivity|now rewrite IH]. Qed.

Lemma split_head_absent (c : ascii) (s : string) :
  Browser.occurs c s = false -> Browser.split_head c s = s.
Proof. intros H. unfold Browser.split_head. now rewrite split_absent. Qed.

Lemma split_head_at (c : ascii) (a b : string) :
  Browser.occurs c a = false ->
  Browser.split_head c (a ++ String c b) = a.
Proof. intros H. unfold Browser.split_head. now rewrite split_at. Qed.

Lemma url_safe_parts (s : string) :
  Browser.url_safe s = true ->
  Browser.occurs "?" s = false /\ Browser.occurs "#" s = false
  /\ Browser.occurs "&" s = false.
Proof.
  unfold Browser.url_safe. intros H.
  apply negb_true_iff, orb_false_iff in H. destruct H as [H Hamp].
  apply orb_false_iff in H. tauto.
Qed.

(** X10. "Book now" leaves the page only for a signed-in user with both
    dates chosen.  The URL it opens has the path of the booking page and
    the parameters checkin, checkout and guests; the booking form reads
    start_date, end_date, adults and children, so it opens with no dates,
    two adults and no children whatever the guest chose. *)
Theorem book_now_choices_do_not_reach_the_form
  (Number_toString : number -> string) (st : PropertyDetailPage.State)
  (href : string) :
  In (Location_href href) (PropertyDetailPage.handleBookNow Number_toString st) ->
  Browser.url_safe (PropertyDetailPage.template_id (PropertyDetailPage.id st)) = true ->
  Browser.url_safe (PropertyDetailPage.checkIn st) = true ->
  Browser.url_safe (PropertyDetailPage.checkOut st) = true ->
  Browser.url_safe (Number_toString (PropertyDetailPage.guests st)) = true ->
  PropertyDetailPage.user st <> None
  /\ PropertyDetailPage.checkIn st <> "" /\ PropertyDetailPage.checkOut st <> ""
  /\ Browser.pathname href
     = ("/booking/" ++ PropertyDetailPage.template_id (PropertyDetailPage.id st))%string
  /\ map fst (Browser.parse_query (Browser.search href))
     = ["checkin"; "checkout"; "guests"]
  /\ BookingForm_searchParams (Browser.parse_query (Browser.search href))
     = {| sp_start_date := None; sp_end_date := None;
          sp_adults := None; sp_children := None |}
  /\ forall E : Ctx,
       let form := initialState E
                     (BookingForm_searchParams
                        (Browser.parse_query (Browser.search href))) in
       startDate form = "" /\ endDate form = ""
       /\ adults form = parseInt E "2" /\ children form = parseInt E "0".
Proof.
  intros Hin Hid Hci Hco Hg.
  unfold PropertyDetailPage.handleBookNow in Hin.
  destruct (PropertyDetailPage.user st) as [u|] eqn:Hu;
    [|cbn [In] in Hin; destruct Hin as [H|[]]; discriminate H].
  destruct (negb (truthy_str (PropertyDetailPage.checkIn st))
            || negb (truthy_str (PropertyDetailPage.checkOut st))) eqn:Hdates;
    [cbn [In] in Hin; destruct Hin as [H|[]]; discriminate H|].
  cbn [In] in Hin. destruct Hin as [Hhref|[]]. injection Hhref as Hh.
  apply orb_false_iff in Hdates. destruct Hdates as [Hd1 Hd2].
  apply negb_false_iff in Hd1, Hd2.
  destruct (url_safe_parts _ Hid) as (Hid1 & Hid2 & _).
  destruct (url_safe_parts _ Hci) as (_ & Hci2 & Hci3).
  destruct (url_safe_parts _ Hco) as (_ & Hco2 & Hco3).
  destruct (url_safe_parts _ Hg) as (_ & Hg2 & Hg3).
  set (i := PropertyDetailPage.template_id (PropertyDetailPage.id st)) in *.
  set (ci := PropertyDetailPage.checkIn st) in *.
  set (co := PropertyDetailPage.checkOut st) in *.
  set (g := Number_toString (PropertyDetailPage.guests st)) in *.
  set (query := ("checkin=" ++ ci ++ "&checkout=" ++ co ++ "&guests=" ++ g)%string).
  assert (Hshape : href = (("/booking/" ++ i) ++ String "?" query)%string).
  { rewrite <- Hh. unfold query. now rewrite string_app_assoc. }
  assert (Hnohash : Browser.occurs "#" href = false).
  { rewrite Hshape. unfold query.
    repeat first [rewrite occurs_append | progress cbn [Browser.occurs]].
    rewrite Hid2, Hci2, Hco2, Hg2. reflexivity. }
  assert (Hpath : Browser.pathname href = ("/booking/" ++ i)%string).
  { unfold Browser.pathname. rewrite (split_head_absent _ _ Hnohash), Hshape.
    apply split_head_at. rewrite occurs_append, Hid1. reflexivity. }
  assert (Hsearch : Browser.search href = query).
  { unfold Browser.search. rewrite (split_head_absent _ _ Hnohash), Hshape.
    rewrite after_first_at; [reflexivity|].
    rewrite occurs_append, Hid1. reflexivity. }
  assert (Hpieces : Browser.split "&" query
                    = [("checkin=" ++ ci)%string; ("checkout=" ++ co)%string;
                       ("guests=" ++ g)%string]).
  { unfold query.
    change ("checkin=" ++ ci ++ "&checkout=" ++ co ++ "&guests=" ++ g)%string
      with ("checkin=" ++ (ci ++ String "&" ("checkout=" ++ (co ++ String "&" ("guests=" ++ g)))))%string.
    rewrite <- (string_app_assoc "checkin=" ci).
    rewrite split_at by (rewrite occurs_append, Hci3; reflexivity).
    rewrite <- (string_app_assoc "checkout=" co).
    rewrite split_at by (rewrite occurs_append, Hco3; reflexivity).
    rewrite split_absent by (rewrite occurs_append, Hg3; reflexivity).
    reflexivity. }
  assert (Hnames : map fst (Browser.parse_query (Browser.search href))
                   = ["checkin"; "checkout"; "guests"]).
  { rewrite Hsearch. unfold Browser.parse_query. rewrite Hpieces. reflexivity. }
  assert (Hform : BookingForm_searchParams (Browser.parse_query (Browser.search href))
                  = {| sp_start_date := None; sp_end_date := None;
                       sp_adults := None; sp_children := None |}).
  { unfold BookingForm_searchParams.
    rewrite !get_absent; [reflexivity|..]; rewrite Hnames; simpl;
      intros H; repeat destruct H as [H|H]; try discriminate H; exact H. }
  split; [discriminate|].
  split; [now apply truthy_str_nonempty|].
  split; [now apply truthy_str_nonempty|].
  split; [exact Hpath|]. split; [exact Hnames|]. split; [exact Hform|].
  intros E form. subst form. rewrite Hform. repeat split; reflexivity.
Qed.

(** The statement of X10 applied to a guest who chose 2025-06-01 to
    2025-06-04 for two on property 42. *)
Lemma book_now_choices_do_not_reach_the_form_witness :
  Browser.pathname "/booking/42?checkin=2025-06-01&checkout=2025-06-04&guests=2"
  = "/booking/42"
  /\ BookingForm_searchParams
       (Browser.parse_query
          (Browser.search
             "/booking/42?checkin=2025-06-01&checkout=2025-06-04&guests=2"))
     = {| sp_start_date := None; sp_end_date := None;
          sp_adults := None; sp_children := None |}.
Proof.
  destruct (book_now_choices_do_not_reach_the_form (fun _ => "2")
              {| PropertyDetailPage.id := Some "42";
                 PropertyDetailPage.user := Some sample_user;
                 PropertyDetailPage.checkIn := "2025-06-01";
                 PropertyDetailPage.checkOut := "2025-06-04";
                 PropertyDetailPage.guests := of_Z 2 |}
              "/booking/42?checkin=2025-06-01&checkout=2025-06-04&guests=2"
              (or_introl eq_refl) eq_refl eq_refl eq_refl eq_refl)
    as (_ & _ & _ & Hpath & _ & Hform & _).
  split; [exact Hpath|exact Hform].
Defined.

(** ** From the home page to the search page *)

(** X11. A search from the home page reaches the search page with the
    location and the two dates exactly as entered, an empty field
    arriving empty; the number of guests arrives as its decimal text read
    back, or as 2 when it was 0 or not a number; and the pet-friendly
    filter is off. *)
Theorem home_search_reaches_the_filters
  (parse_int : string -> number)
  (toString : number -> string) (st : HomePage.State) :
  exists params,
    HomePage.handleSearch toString st = [Location_search "/search" params]
    /\ Browser.matchPath "/search" "/search" = Some []
    /\ let f := SearchPage.initialFilters parse_int params in
       SearchPage.location f = HomePage.searchLocation st
       /\ SearchPage.checkIn f = HomePage.checkIn st
       /\ SearchPage.checkOut f = HomePage.checkOut st
       /\ SearchPage.guests f
          = parse_int (if truthy (HomePage.guests st)
                       then or_str (toString (HomePage.guests st)) "2"
                       else "2")
       /\ SearchPage.petFriendly f = false.
Proof.
  eexists. split; [reflexivity|]. split; [reflexivity|].
  unfold SearchPage.initialFilters, HomePage.set_if.
  cbn [SearchPage.location SearchPage.checkIn SearchPage.checkOut
         SearchPage.guests SearchPage.petFriendly].
  destruct st as [loc ci co g]. cbn [HomePage.searchLocation HomePage.checkIn
                                       HomePage.checkOut HomePage.guests].
  destruct loc as [|l0 loc], ci as [|c0 ci], co as [|o0 co], (truthy g);
    repeat split; reflexivity.
Qed.

(** * The dashboard *)

Lemma get_or_nonempty (v : option string) (d : string) : d <> "" -> get_or v d <> "".
Proof.
  intros Hd. destruct v as [s|]; simpl; [now apply or_str_nonempty|exact Hd].
Qed.

Lemma get_or_some (s d : string) : s <> "" -> get_or (Some s) d = s.
Proof. destruct s; [congruence|reflexivity]. Qed.

(** X12. Choosing a section writes it to the URL, and a dashboard opened
    from that URL starts in the chosen section; without a section it
    starts in the overview.  The five navigation ids show five different
    pages, any other section shows the overview, and the owner dashboard
    is rendered only for a signed-in owner, so its own sign-in prompt is
    never what the page shows. *)
Theorem dashboard_sections :
  (forall s, s <> "" ->
             Dashboard.initialSection (snd (Dashboard.handleSectionChange s))
             = fst (Dashboard.handleSectionChange s)
             /\ fst (Dashboard.handleSectionChange s) = s)
  /\ Dashboard.initialSection [] = "overview"
  /\ Dashboard.initialSection (snd (Dashboard.handleSectionChange "")) = "overview"
  /\ NoDup (map Dashboard.renderContent Dashboard.ownerNavigation)
  /\ (forall s, ~ In s Dashboard.ownerNavigation ->
                Dashboard.renderContent s = Dashboard.DashboardOverview)
  /\ (forall loading profileLoading user profile s v,
         Dashboard.render loading profileLoading user profile s = Dashboard.OwnerView v ->
         v = Dashboard.Content (Dashboard.renderContent s)
         /\ Dashboard.isOwner profile user = true
         /\ user <> None
         /\ loading = false /\ profileLoading = false).
Proof.
  split.
  { intros s Hs. split; [|reflexivity].
    unfold Dashboard.initialSection, Dashboard.handleSectionChange.
    cbn [snd fst Browser.get]. rewrite String.eqb_refl. now apply get_or_some. }
  split; [reflexivity|]. split; [reflexivity|].
  split.
  { simpl. repeat constructor; simpl; intuition discriminate. }
  split.
  { intros s Hs. unfold Dashboard.renderContent.
    repeat match goal with
           | |- context [String.eqb s ?k] =>
               destruct (String.eqb s k) eqn:?
           end;
      try reflexivity;
      exfalso; apply Hs;
      repeat match goal with
             | H : String.eqb s _ = true |- _ => apply String.eqb_eq in H; subst s
             end;
      simpl; tauto. }
  intros loading profileLoading user profile s v Hrender.
  unfold Dashboard.render in Hrender.
  destruct (loading || profileLoading) eqn:Hload; [discriminate Hrender|].
  apply orb_false_iff in Hload.
  destruct user as [u|]; [|discriminate Hrender].
  destruct (Dashboard.isOwner profile (Some u)) eqn:Howner; [|discriminate Hrender].
  inversion Hrender; subst v.
  split; [reflexivity|]. split; [reflexivity|]. split; [discriminate|exact Hload].
Qed.

(** The statement of X12 applied to the bookings tab of an owner. *)
Lemma dashboard_sections_witness :
  Dashboard.initialSection (snd (Dashboard.handleSectionChange "bookings")) = "bookings"
  /\ Dashboard.renderContent "reviews" = Dashboard.DashboardOverview
  /\ Dashboard.isOwner None
       (Some {| Dashboard.email := None;
                Dashboard.metadata_full_name := None;
                Dashboard.metadata_user_type := Some "owner";
                Dashboard.metadata_role := None |}) = true.
Proof.
  destruct dashboard_sections as (Hround & _ & _ & _ & Hother & Howner).
  split; [|split].
  - destruct (Hround "bookings") as [H _]; [discriminate|exact H].
  - apply Hother. simpl. intuition discriminate.
  - exact (proj1 (proj2 (Howner false false
                           (Some {| Dashboard.email := None;
                                    Dashboard.metadata_full_name := None;
                                    Dashboard.metadata_user_type := Some "owner";
                                    Dashboard.metadata_role := None |})
                           None "bookings"
                           (Dashboard.Content Dashboard.OwnerBookingsPage)
                           eq_refl))).
Defined.

(** X13. The name in the guest's welcome line is never empty.  It is
    the profile's full name when that is present and non-empty; failing
    both names it is the part of the e-mail address before the first
    ["@"], and "User" when that too is missing or empty. *)
Theorem welcome_name_is_never_empty
  (profile : option Dashboard.UserProfile) (user : Dashboard.AuthUser) :
  Dashboard.welcomeName profile user <> ""
  /\ (forall p n, profile = Some p -> Dashboard.full_name p = Some n -> n <> "" ->
                  Dashboard.welcomeName profile user = n)
  /\ ((profile = None \/ exists p, profile = Some p
                                   /\ (Dashboard.full_name p = None
                                       \/ Dashboard.full_name p = Some "")) ->
      (Dashboard.metadata_full_name user = None
       \/ Dashboard.metadata_full_name user = Some "") ->
      Dashboard.welcomeName profile user
      = match Dashboard.email user with
        | Some e => if truthy_str (Browser.split_head "@" e)
                    then Browser.split_head "@" e else "User"
        | None => "User"
        end).
Proof.
  split; [|split].
  - unfold Dashboard.welcomeName.
    repeat apply get_or_nonempty. discriminate.
  - intros p n Hp Hn Hne. unfold Dashboard.welcomeName.
    rewrite Hp, Hn. now apply get_or_some.
  - intros Hprofile Hmeta. unfold Dashboard.welcomeName.
    assert (H1 : match profile with
                 | Some p => Dashboard.full_name p
                 | None => None
                 end = None
                 \/ match profile with
                    | Some p => Dashboard.full_name p
                    | None => None
                    end = Some "").
    { destruct Hprofile as [H|(p & H & [Hf|Hf])]; rewrite H; auto. }
    destruct H1 as [H1|H1]; rewrite H1;
      destruct Hmeta as [H2|H2]; rewrite H2;
      destruct (Dashboard.email user); reflexivity.
Qed.

(** The statement of X13 applied to a guest known only by e-mail. *)
Lemma welcome_name_is_never_empty_witness :
  Dashboard.welcomeName None
    {| Dashboard.email := Some "sam@example.com";
       Dashboard.metadata_full_name := None;
       Dashboard.metadata_user_type := None;
       Dashboard.metadata_role := None |} = "sam".
Proof.
  destruct (welcome_name_is_never_empty None
              {| Dashboard.email := Some "sam@example.com";
                 Dashboard.metadata_full_name := None;
                 Dashboard.metadata_user_type := None;
                 Dashboard.metadata_role := None |}) as (_ & _ & Hemail).
  rewrite Hemail; [reflexivity|now left|now left].
Defined.

(** * The media gallery *)

Lemma filter_id_absent (l : list Media.MediaFile) (i : string) :
  ~ In i (map Media.id l) ->
  filter (fun m => String.eqb (Media.id m) i) l = [].
Proof.
  induction l as [|a l IH]; simpl; [reflexivity|].
  intros H. destruct (String.eqb (Media.id a) i) eqn:Ha.
  - apply String.eqb_eq in Ha. tauto.
  - apply IH. tauto.
Qed.

Lemma filter_id_unique (l : list Media.MediaFile) (i : string) :
  NoDup (map Media.id l) -> In i (map Media.id l) ->
  List.length (filter (fun m => String.eqb (Media.id m) i) l) = 1%nat.
Proof.
  induction l as [|a l IH]; simpl; [tauto|].
  intros Hnd Hin. inversion Hnd as [|x xs Hnotin Hnd']; subst.
  destruct (String.eqb (Media.id a) i) eqn:Ha.
  - apply String.eqb_eq in Ha. subst i.
    now rewrite (filter_id_absent l _ Hnotin).
  - apply String.eqb_neq in Ha. destruct Hin as [H|H]; [congruence|].
    now apply IH.
Qed.

Lemma setPrimary_primaries (l : list Media.MediaFile) (i : string) :
  filter Media.isPrimary (Media.setPrimary l i)
  = map (Media.withPrimary true) (filter (fun m => String.eqb (Media.id m) i) l).
Proof.
  induction l as [|a l IH]; simpl; [reflexivity|].
  destruct (String.eqb (Media.id a) i); simpl; now rewrite IH.
Qed.

(** X14. Marking an item as primary changes nothing but the primary
    flags: every item is primary exactly if it has the chosen id.  When
    the ids are distinct and the id is in the gallery, exactly one item is
    primary afterwards; when the id is not in the gallery, none is. *)
Theorem set_primary_selects_one (media : list Media.MediaFile) (i : string) :
  map Media.id (Media.setPrimary media i) = map Media.id media
  /\ map Media.url (Media.setPrimary media i) = map Media.url media
  /\ map Media.caption (Media.setPrimary media i) = map Media.caption media
  /\ map Media.type (Media.setPrimary media i) = map Media.type media
  /\ (forall m, In m (Media.setPrimary media i) ->
                Media.isPrimary m = String.eqb (Media.id m) i)
  /\ (NoDup (map Media.id media) -> In i (map Media.id media) ->
      List.length (filter Media.isPrimary (Media.setPrimary media i)) = 1%nat)
  /\ (~ In i (map Media.id media) ->
      filter Media.isPrimary (Media.setPrimary media i) = []).
Proof.
  unfold Media.setPrimary.
  repeat split; try (rewrite map_map; apply map_ext; reflexivity).
  - intros m Hm. apply in_map_iff in Hm. destruct Hm as (x & Hx & _).
    now subst m.
  - intros Hnd Hin. fold (Media.setPrimary media i).
    rewrite setPrimary_primaries, length_map. now apply filter_id_unique.
  - intros Hnot. fold (Media.setPrimary media i).
    now rewrite setPrimary_primaries, filter_id_absent.
Qed.

(** The statement of X14 applied to a gallery of two photos. *)
Lemma set_primary_selects_one_witness :
  List.length
    (filter Media.isPrimary
       (Media.setPrimary
          [ {| Media.id := "a"; Media.url := "u1"; Media.type := Media.image;
               Media.caption := ""; Media.isPrimary := true |};
            {| Media.id := "b"; Media.url := "u2"; Media.type := Media.image;
               Media.caption := ""; Media.isPrimary := false |} ] "b")) = 1%nat.
Proof.
  apply (set_primary_selects_one _ "b").
  - simpl. repeat constructor; simpl; intuition discriminate.
  - simpl. tauto.
Defined.

Lemma existsb_false_filter {A : Type} (f : A -> bool) (l : list A) :
  existsb f l = false -> filter f l = [].
Proof.
  induction l as [|a l IH]; simpl; [reflexivity|].
  intros H. apply orb_false_iff in H. destruct H as [Ha Hl].
  now rewrite Ha, (IH Hl).
Qed.

Lemma filter_filter_length {A : Type} (f g : A -> bool) (l : list A) :
  (List.length (filter f (filter g l)) <= List.length (filter f l))%nat.
Proof.
  induction l as [|a l IH]; simpl; [lia|].
  destruct (g a); simpl; destruct (f a); simpl; lia.
Qed.

Lemma map_id_filter (l : list Media.MediaFile) (i : string) :
  map Media.id (filter (fun m => negb (String.eqb (Media.id m) i)) l)
  = filter (fun k => negb (String.eqb k i)) (map Media.id l).
Proof.
  induction l as [|a l IH]; simpl; [reflexivity|].
  destruct (String.eqb (Media.id a) i); simpl; now rewrite IH.
Qed.

(** X15. Removing an id removes every item with that id and keeps the
    others in their order, with their URLs, types and captions.  If
    anything is left, something is primary afterwards: when no kept item
    is primary the first kept item is promoted, and otherwise every kept
    item is as it was; the items after the first are never changed.
    Removal never raises the number of primary items above one or above
    what it was. *)
Theorem remove_media_keeps_a_primary (media : list Media.MediaFile) (i : string) :
  let kept := filter (fun m => negb (String.eqb (Media.id m) i)) media in
  map Media.id (Media.removeMedia media i)
  = filter (fun k => negb (String.eqb k i)) (map Media.id media)
  /\ ~ In i (map Media.id (Media.removeMedia media i))
  /\ (Media.removeMedia media i <> [] ->
      existsb Media.isPrimary (Media.removeMedia media i) = true)
  /\ (List.length (filter Media.isPrimary (Media.removeMedia media i))
      <= Nat.max 1 (List.length (filter Media.isPrimary media)))%nat
  /\ map Media.url (Media.removeMedia media i) = map Media.url kept
  /\ map Media.type (Media.removeMedia media i) = map Media.type kept
  /\ map Media.caption (Media.removeMedia media i) = map Media.caption kept
  /\ tl (Media.removeMedia media i) = tl kept
  /\ (existsb Media.isPrimary kept = true -> Media.removeMedia media i = kept)
  /\ (forall first,
         existsb Media.isPrimary kept = false ->
         hd_error kept = Some first ->
         hd_error (Media.removeMedia media i) = Some (Media.withPrimary true first)).
Proof.
  intros kept.
  assert (Hids : map Media.id (Media.removeMedia media i)
                 = filter (fun k => negb (String.eqb k i)) (map Media.id media)).
  { unfold Media.removeMedia. rewrite <- map_id_filter.
    destruct (filter _ media) as [|first rest]; [reflexivity|].
    cbn [List.length Nat.ltb Nat.leb andb].
    destruct (negb (existsb Media.isPrimary (first :: rest))); reflexivity. }
  split; [exact Hids|]. split.
  { rewrite Hids. intros Hin. apply filter_In in Hin. destruct Hin as [_ H].
    now rewrite String.eqb_refl in H. }
  unfold Media.removeMedia. fold kept.
  assert (Hle : (List.length (filter Media.isPrimary kept)
                 <= List.length (filter Media.isPrimary media))%nat)
    by apply filter_filter_length.
  destruct kept as [|first rest] eqn:Hupd.
  - split; [intros H; now contradiction H|].
    split; [cbn -[Nat.max]; lia|].
    repeat split; try reflexivity. intros first _ H. discriminate H.
  - cbn [List.length Nat.ltb Nat.leb andb].
    destruct (existsb Media.isPrimary (first :: rest)) eqn:Hsome; cbn [negb].
    + split; [intros _; exact Hsome|]. split; [lia|].
      repeat split; try reflexivity. intros f H. discriminate H.
    + split; [intros _; reflexivity|].
      pose proof (existsb_false_filter _ _ Hsome) as Hnone.
      simpl in Hsome. apply orb_false_iff in Hsome. destruct Hsome as [_ Hrest].
      split.
      { cbn [filter Media.withPrimary Media.isPrimary].
        rewrite (existsb_false_filter _ _ Hrest). cbn [List.length]. lia. }
      repeat split; try reflexivity; try discriminate.
      intros f _ H. cbn [hd_error] in *. now inversion H.
Qed.

(** X16. Dropped files are appended after the items already there,
    which are not changed.  On an empty gallery every dropped file is
    marked primary, so dropping several at once leaves several primary
    items; on a gallery that has items none of the dropped files is
    primary. *)
Theorem on_drop_primary_flags
  (media : list Media.MediaFile) (acceptedFiles : list Media.DroppedFile) :
  firstn (List.length media) (Media.onDrop media acceptedFiles) = media
  /\ map Media.id (Media.onDrop media acceptedFiles)
     = map Media.id media ++ map Media.generated_id acceptedFiles
  /\ (media = [] ->
      List.length (filter Media.isPrimary (Media.onDrop media acceptedFiles))
      = List.length acceptedFiles)
  /\ (media <> [] ->
      filter Media.isPrimary (Media.onDrop media acceptedFiles)
      = filter Media.isPrimary media).
Proof.
  unfold Media.onDrop. split; [|split; [|split]].
  - rewrite firstn_app, Nat.sub_diag, firstn_all. simpl. now rewrite app_nil_r.
  - rewrite map_app, map_map. reflexivity.
  - intros ->. simpl.
    induction acceptedFiles as [|f fs IH]; simpl; [reflexivity|now rewrite IH].
  - intros Hne. rewrite filter_app.
    destruct media as [|m media]; [congruence|]. cbn [List.length Nat.eqb].
    assert (Hnone : forall fs : list Media.DroppedFile,
               filter Media.isPrimary
                 (map (fun file =>
                         {| Media.id := Media.generated_id file;
                            Media.url := Media.object_url file;
                            Media.type := if String.prefix "video/" (Media.file_type file)
                                          then Media.video else Media.image;
                            Media.caption := "";
                            Media.isPrimary := false |}) fs) = []).
    { induction fs as [|f fs IH]; simpl; [reflexivity|exact IH]. }
    rewrite Hnone. now rewrite app_nil_r.
Qed.

(** The statement of X16 applied to two photos dropped on an empty
    gallery. *)
Lemma on_drop_primary_flags_witness :
  List.length
    (filter Media.isPrimary
       (Media.onDrop []
          [ {| Media.generated_id := "1"; Media.object_url := "blob:1";
               Media.file_type := "image/png" |};
            {| Media.generated_id := "2"; Media.object_url := "blob:2";
               Media.file_type := "image/png" |} ])) = 2%nat.
Proof.
  destruct (on_drop_primary_flags []
              [ {| Media.generated_id := "1"; Media.object_url := "blob:1";
                   Media.file_type := "image/png" |};
                {| Media.generated_id := "2"; Media.object_url := "blob:2";
                   Media.file_type := "image/png" |} ]) as (_ & _ & Hall & _).
  exact (Hall eq_refl).
Defined.

(** The statement of X15 applied to a gallery whose primary photo is
    removed: the photo that is left becomes the primary one. *)
Lemma remove_media_keeps_a_primary_witness :
  existsb Media.isPrimary
    (Media.removeMedia
       [ {| Media.id := "a"; Media.url := "u1"; Media.type := Media.image;
            Media.caption := ""; Media.isPrimary := true |};
         {| Media.id := "b"; Media.url := "u2"; Media.type := Media.image;
            Media.caption := ""; Media.isPrimary := false |} ] "a") = true
  /\ hd_error
       (Media.removeMedia
          [ {| Media.id := "a"; Media.url := "u1"; Media.type := Media.image;
               Media.caption := ""; Media.isPrimary := true |};
            {| Media.id := "b"; Media.url := "u2"; Media.type := Media.image;
               Media.caption := ""; Media.isPrimary := false |} ] "a")
     = Some {| Media.id := "b"; Media.url := "u2"; Media.type := Media.image;
               Media.caption := ""; Media.isPrimary := true |}.
Proof.
  destruct (remove_media_keeps_a_primary
              [ {| Media.id := "a"; Media.url := "u1"; Media.type := Media.image;
                   Media.caption := ""; Media.isPrimary := true |};
                {| Media.id := "b"; Media.url := "u2"; Media.type := Media.image;
                   Media.caption := ""; Media.isPrimary := false |} ] "a")
    as (_ & _ & Hsome & _ & _ & _ & _ & _ & _ & Hfirst).
  split.
  - apply Hsome. discriminate.
  - apply (Hfirst {| Media.id := "b"; Media.url := "u2"; Media.type := Media.image;
                     Media.caption := ""; Media.isPrimary := false |});
      reflexivity.
Defined.

(** X17. Editing a caption changes nothing but captions: ids, URLs,
    types and primary flags stay as they are, in the same order; every
    item with the chosen id has the new caption; every other item is left
    as it is; and an id that is not in the gallery changes nothing. *)
Theorem update_caption_frame
  (media : list Media.MediaFile) (i caption' : string) :
  map Media.id (Media.updateCaption media i caption') = map Media.id media
  /\ map Media.url (Media.updateCaption media i caption') = map Media.url media
  /\ map Media.type (Media.updateCaption media i caption') = map Media.type media
  /\ map Media.isPrimary (Media.updateCaption media i caption')
     = map Media.isPrimary media
  /\ (forall m, In m (Media.updateCaption media i caption') ->
                Media.id m = i -> Media.caption m = caption')
  /\ (forall k m, nth_error media k = Some m -> Media.id m <> i ->
                  nth_error (Media.updateCaption media i caption') k = Some m)
  /\ (~ In i (map Media.id media) ->
      Media.updateCaption media i caption' = media).
Proof.
  unfold Media.updateCaption.
  repeat split;
    try (rewrite map_map; apply map_ext; intros m;
         destruct (String.eqb (Media.id m) i); reflexivity).
  - intros m Hm Hid. apply in_map_iff in Hm. destruct Hm as (x & Hx & _).
    destruct (String.eqb (Media.id x) i) eqn:He; subst m; [reflexivity|].
    apply String.eqb_neq in He. contradiction.
  - intros k m Hk Hid. rewrite nth_error_map, Hk. cbn [option_map].
    apply String.eqb_neq in Hid. now rewrite Hid.
  - intros Hnot. rewrite <- (map_id media) at 2. apply map_ext_in.
    intros m Hm. destruct (String.eqb (Media.id m) i) eqn:He; [|reflexivity].
    apply String.eqb_eq in He. exfalso. apply Hnot. subst i. now apply in_map.
Qed.

(** The statement of X17 applied to a caption typed for a photo removed
    since. *)
Lemma update_caption_frame_witness :
  Media.updateCaption
    [ {| Media.id := "a"; Media.url := "u1"; Media.type := Media.image;
         Media.caption := "Front"; Media.isPrimary := true |} ] "gone" "Side"
  = [ {| Media.id := "a"; Media.url := "u1"; Media.type := Media.image;
         Media.caption := "Front"; Media.isPrimary := true |} ].
Proof.
  destruct (update_caption_frame
              [ {| Media.id := "a"; Media.url := "u1"; Media.type := Media.image;
                   Media.caption := "Front"; Media.isPrimary := true |} ]
              "gone" "Side") as (_ & _ & _ & _ & _ & _ & Hsame).
  apply Hsame. simpl. intuition discriminate.
Defined.

(** ** Reordering *)

Lemma findIndex_found {A : Type} (test : A -> bool) (l : list A) :
  existsb test l = true ->
  exists k x, Media.findIndex test l = Z.of_nat k
              /\ nth_error l k = Some x /\ test x = true.
Proof.
  induction l as [|a l IH]; simpl; [discriminate|].
  destruct (test a) eqn:Ha.
  - intros _. exists 0%nat, a. auto.
  - simpl. intros H. destruct (IH H) as (k & x & Hk & Hx & Ht).
    exists (S k), x. rewrite Hk.
    destruct (Z.of_nat k <? 0) eqn:Hneg; [apply Z.ltb_lt in Hneg; lia|].
    split; [lia|]. auto.
Qed.

Lemma findIndex_absent {A : Type} (test : A -> bool) (l : list A) :
  existsb test l = false -> Media.findIndex test l = -1.
Proof.
  induction l as [|a l IH]; simpl; [reflexivity|].
  destruct (test a); simpl; [discriminate|].
  intros H. now rewrite (IH H).
Qed.

Lemma existsb_id (media : list Media.MediaFile) (i : string) :
  existsb (fun m => String.eqb (Media.id m) i) media = true
  <-> In i (map Media.id media).
Proof.
  rewrite existsb_exists, in_map_iff. split.
  - intros (m & Hm & He). apply String.eqb_eq in He. eauto.
  - intros (m & He & Hm). exists m. split; [exact Hm|]. now apply String.eqb_eq.
Qed.

Lemma splice_start_nat (len k : nat) :
  (k <= len)%nat -> Media.splice_start len (Z.of_nat k) = k.
Proof.
  intros H. unfold Media.splice_start.
  destruct (Z.of_nat k <? 0) eqn:Hneg; [apply Z.ltb_lt in Hneg; lia|].
  rewrite Nat2Z.id. lia.
Qed.

Lemma at_index_nat {A : Type} (l : list A) (k : nat) :
  Media.at_index l (Z.of_nat k) = nth_error l k.
Proof.
  unfold Media.at_index.
  destruct (Z.of_nat k <? 0) eqn:Hneg; [apply Z.ltb_lt in Hneg; lia|].
  now rewrite Nat2Z.id.
Qed.

Lemma firstn_length_app {A : Type} (l1 l2 : list A) :
  firstn (List.length l1) (l1 ++ l2) = l1.
Proof. induction l1 as [|a l1 IH]; simpl; [now destruct l2|now rewrite IH]. Qed.

Lemma skipn_length_app {A : Type} (l1 l2 : list A) :
  skipn (List.length l1) (l1 ++ l2) = l2.
Proof. induction l1 as [|a l1 IH]; simpl; [reflexivity|exact IH]. Qed.

Lemma delete_at {A : Type} (l1 l2 : list A) (x : A) :
  firstn (List.length l1) (l1 ++ x :: l2)
  ++ skipn (S (List.length l1)) (l1 ++ x :: l2) = l1 ++ l2.
Proof. induction l1 as [|a l1 IH]; simpl; [reflexivity|f_equal; exact IH]. Qed.

(** X18. Dragging an item that is in the gallery onto an item that is
    in the gallery rearranges the gallery without losing, duplicating or
    changing any item, and the dragged item ends at the position the item
    it was dropped on had. *)
Theorem reorder_is_a_permutation
  (media : list Media.MediaFile) (dragId hoverId : string) :
  In dragId (map Media.id media) ->
  In hoverId (map Media.id media) ->
  exists (arranged : list Media.MediaFile) (position : nat) (dragged : Media.MediaFile),
    Media.reorderMedia media dragId hoverId = map Some arranged
    /\ Permutation arranged media
    /\ Media.findIndex (fun m => String.eqb (Media.id m) hoverId) media
       = Z.of_nat position
    /\ nth_error arranged position = Some dragged
    /\ Media.id dragged = dragId.
Proof.
  intros Hdrag Hhover.
  apply existsb_id in Hdrag, Hhover.
  destruct (findIndex_found _ _ Hdrag) as (k & m & Hk & Hm & Hmid).
  destruct (findIndex_found _ _ Hhover) as (h & x & Hh & Hx & _).
  apply String.eqb_eq in Hmid.
  assert (Hhlt : (h < List.length media)%nat).
  { apply nth_error_Some. congruence. }
  destruct (nth_error_split media k Hm) as (l1 & l2 & Hsplit & Hlen).
  set (rest := l1 ++ l2).
  assert (Hrest : (List.length rest = List.length media - 1)%nat).
  { unfold rest. rewrite Hsplit, !length_app. simpl. lia. }
  exists (firstn h rest ++ m :: skipn h rest), h, m.
  split; [|split; [|split; [exact Hh|split; [|exact Hmid]]]].
  - unfold Media.reorderMedia. rewrite Hk, Hh, at_index_nat.
    rewrite nth_error_map, Hm. cbn [option_map].
    assert (Hdel : Media.splice_delete1 (Z.of_nat k) (map Some media) = map Some rest).
    { unfold Media.splice_delete1.
      rewrite splice_start_nat
        by (rewrite length_map, Hsplit, length_app; simpl; lia).
      rewrite Hsplit, <- Hlen. unfold rest.
      rewrite !map_app. cbn [map].
      rewrite <- (length_map Some l1). apply delete_at. }
    rewrite Hdel. unfold Media.splice_insert.
    rewrite splice_start_nat by (rewrite length_map, Hrest; lia).
    rewrite map_app. cbn [map]. now rewrite firstn_map, skipn_map.
  - rewrite Hsplit.
    transitivity (m :: rest).
    + symmetry. rewrite <- (firstn_skipn h rest) at 1. apply Permutation_middle.
    + unfold rest. apply Permutation_middle.
  - rewrite nth_error_app2 by (rewrite length_firstn; lia).
    rewrite length_firstn.
    replace (h - Nat.min h (List.length rest))%nat with 0%nat by lia.
    reflexivity.
Qed.

(** The statement of X18 applied to the second of three photos dragged
    onto the first. *)
Lemma reorder_is_a_permutation_witness :
  exists arranged,
    Media.reorderMedia
      [ {| Media.id := "a"; Media.url := "u1"; Media.type := Media.image;
           Media.caption := ""; Media.isPrimary := true |};
        {| Media.id := "b"; Media.url := "u2"; Media.type := Media.image;
           Media.caption := ""; Media.isPrimary := false |};
        {| Media.id := "c"; Media.url := "u3"; Media.type := Media.video;
           Media.caption := ""; Media.isPrimary := false |} ] "b" "a"
    = map Some arranged
    /\ map Media.id arranged = ["b"; "a"; "c"].
Proof.
  destruct (reorder_is_a_permutation
              [ {| Media.id := "a"; Media.url := "u1"; Media.type := Media.image;
                   Media.caption := ""; Media.isPrimary := true |};
                {| Media.id := "b"; Media.url := "u2"; Media.type := Media.image;
                   Media.caption := ""; Media.isPrimary := false |};
                {| Media.id := "c"; Media.url := "u3"; Media.type := Media.video;
                   Media.caption := ""; Media.isPrimary := false |} ] "b" "a")
    as (arranged & position & dragged & Hre & _).
  - simpl. tauto.
  - simpl. tauto.
  - exists arranged. split; [exact Hre|].
    vm_compute in Hre.
    destruct arranged as [|x1 [|x2 [|x3 [|x4 tl]]]]; try discriminate Hre.
    inversion Hre. reflexivity.
Defined.

(** X19. When the dragged id is not in the gallery, reordering loses
    the last item and puts an undefined entry at the position of the item
    dropped on: the number of entries is unchanged and one of them is
    undefined. *)
Theorem reorder_with_unknown_id_loses_the_last
  (media kept : list Media.MediaFile) (last : Media.MediaFile)
  (dragId hoverId : string) :
  media = kept ++ [last] ->
  ~ In dragId (map Media.id media) ->
  Media.reorderMedia media dragId hoverId
  = Media.splice_insert
      (Media.findIndex (fun m => String.eqb (Media.id m) hoverId) media)
      None (map Some kept)
  /\ In None (Media.reorderMedia media dragId hoverId)
  /\ List.length (Media.reorderMedia media dragId hoverId) = List.length media.
Proof.
  intros Hmedia Hnot.
  assert (Habsent : existsb (fun m => String.eqb (Media.id m) dragId) media = false).
  { destruct (existsb _ media) eqn:He; [|reflexivity].
    apply existsb_id in He. contradiction. }
  assert (Hre : Media.reorderMedia media dragId hoverId
                = Media.splice_insert
                    (Media.findIndex (fun m => String.eqb (Media.id m) hoverId) media)
                    None (map Some kept)).
  { unfold Media.reorderMedia. rewrite (findIndex_absent _ _ Habsent).
    cbn [Media.at_index Z.ltb Z.compare].
    assert (Hdel : Media.splice_delete1 (-1) (map Some media) = map Some kept).
    { unfold Media.splice_delete1, Media.splice_start.
      cbn [Z.ltb Z.compare].
      rewrite Hmedia, map_app, length_app, !length_map. cbn [map List.length].
      replace (Z.to_nat (Z.max (Z.of_nat (List.length kept + 1) + -1) 0))
        with (List.length (map Some kept))
        by (rewrite length_map; lia).
      rewrite delete_at. apply app_nil_r. }
    now rewrite Hdel. }
  split; [exact Hre|]. rewrite Hre. unfold Media.splice_insert. split.
  - apply in_or_app. right. now left.
  - rewrite length_app. cbn [List.length].
    rewrite length_firstn, length_skipn, Hmedia, length_app, !length_map.
    simpl. lia.
Qed.

(** The statement of X19 applied to a drag that started on a photo
    removed since. *)
Lemma reorder_with_unknown_id_loses_the_last_witness :
  Media.reorderMedia
    [ {| Media.id := "a"; Media.url := "u1"; Media.type := Media.image;
         Media.caption := ""; Media.isPrimary := true |};
      {| Media.id := "b"; Media.url := "u2"; Media.type := Media.image;
         Media.caption := ""; Media.isPrimary := false |} ] "gone" "a"
  = [ None;
      Some {| Media.id := "a"; Media.url := "u1"; Media.type := Media.image;
              Media.caption := ""; Media.isPrimary := true |} ].
Proof.
  destruct (reorder_with_unknown_id_loses_the_last
              [ {| Media.id := "a"; Media.url := "u1"; Media.type := Media.image;
                   Media.caption := ""; Media.isPrimary := true |};
                {| Media.id := "b"; Media.url := "u2"; Media.type := Media.image;
                   Media.caption := ""; Media.isPrimary := false |} ]
              [ {| Media.id := "a"; Media.url := "u1"; Media.type := Media.image;
                   Media.caption := ""; Media.isPrimary := true |} ]
              {| Media.id := "b"; Media.url := "u2"; Media.type := Media.image;
                 Media.caption := ""; Media.isPrimary := false |}
              "gone" "a" eq_refl) as (Hre & _).
  - simpl. intuition discriminate.
  - rewrite Hre. reflexivity.
Defined.

(** ** Files prepared for upload *)

Lemma prepare_from_spec (fileToBase64 : Upload.File -> option string)
  (captions : list string) (files : list Upload.File) :
  forall (i : nat) (mediaFiles : list Upload.PreparedFile),
    List.length mediaFiles = i ->
    match Upload.prepare_from fileToBase64 captions i files mediaFiles with
    | None => exists file, In file files /\ fileToBase64 file = None
    | Some prepared =>
        (forall file, In file files -> fileToBase64 file <> None)
        /\ List.length prepared = (i + List.length files)%nat
        /\ forall j,
             nth_error prepared j
             = if (j <? i)%nat then nth_error mediaFiles j
               else match nth_error files (j - i) with
                    | Some file =>
                        option_map
                          (fun base64Data =>
                             Upload.prepare base64Data captions j file)
                          (fileToBase64 file)
                    | None => None
                    end
    end.
Proof.
  induction files as [|file files IH]; intros i acc Hlen; cbn [Upload.prepare_from].
  - split; [intros ? []|]. split; [simpl; lia|].
    intros j. destruct (j <? i)%nat eqn:Hj; [reflexivity|].
    apply Nat.ltb_ge in Hj.
    destruct (j - i)%nat; simpl; apply nth_error_None; lia.
  - destruct (fileToBase64 file) as [base64Data|] eqn:Hread.
    + specialize (IH (S i) (acc ++ [Upload.prepare base64Data captions i file])).
      rewrite length_app in IH. simpl in IH.
      specialize (IH ltac:(lia)).
      destruct (Upload.prepare_from _ _ _ _ _) as [prepared|].
      * destruct IH as (Hall & Hl & Hnth). split; [|split].
        -- intros f [<-|Hin]; [congruence|now apply Hall].
        -- simpl. lia.
        -- intros j. rewrite Hnth.
           destruct (Nat.ltb_spec j (S i)) as [HjS|HjS];
             destruct (Nat.ltb_spec j i) as [Hj|Hj]; try lia.
           ++ apply nth_error_app1. lia.
           ++ assert (j = i) by lia. subst j.
              rewrite nth_error_app2 by lia.
              rewrite Hlen, Nat.sub_diag.
              cbn [nth_error]. now rewrite Hread.
           ++ replace (j - i)%nat with (S (j - S i)) by lia. reflexivity.
      * destruct IH as (f & Hin & Hf). exists f. split; [now right|exact Hf].
    + exists file. split; [now left|exact Hread].
Qed.

(** X20. Preparing files for upload fails as a whole as soon as one
    file cannot be read, and returns nothing of the files read before.
    When every file is read, the result has one entry per file, in the
    order of the files; entry [i] is built from file [i] and caption [i];
    only the first entry is primary; and an entry without a caption of its
    own has the empty caption. *)
Theorem prepared_files_follow_the_input
  (fileToBase64 : Upload.File -> option string)
  (files : list Upload.File) (captions : list string) :
  (Upload.prepareMediaFiles fileToBase64 files captions = None
   <-> exists file, In file files /\ fileToBase64 file = None)
  /\ forall prepared,
       Upload.prepareMediaFiles fileToBase64 files captions = Some prepared ->
       List.length prepared = List.length files
       /\ (forall i,
             nth_error prepared i
             = match nth_error files i with
               | Some file =>
                   option_map
                     (fun base64Data => Upload.prepare base64Data captions i file)
                     (fileToBase64 file)
               | None => None
               end)
       /\ (forall p, In p prepared -> Upload.isPrimary p = true ->
                     nth_error prepared 0 = Some p)
       /\ (forall i p, nth_error prepared i = Some p ->
                       (List.length captions <= i)%nat ->
                       Upload.caption p = "").
Proof.
  pose proof (prepare_from_spec fileToBase64 captions files 0 [] eq_refl) as Hspec.
  unfold Upload.prepareMediaFiles.
  destruct (Upload.prepare_from fileToBase64 captions 0 files [])
    as [prepared|] eqn:Hrun.
  - destruct Hspec as (Hall & Hlen & Hnth). split.
    + split; [discriminate|].
      intros (file & Hin & Hnone). now destruct (Hall file Hin).
    + intros prepared' Heq. inversion Heq; subst prepared'; clear Heq.
      assert (Hnth' : forall i,
                 nth_error prepared i
                 = match nth_error files i with
                   | Some file =>
                       option_map
                         (fun base64Data =>
                            Upload.prepare base64Data captions i file)
                         (fileToBase64 file)
                   | None => None
                   end).
      { intros i. rewrite Hnth. cbn [Nat.ltb Nat.leb]. now rewrite Nat.sub_0_r. }
      split; [exact Hlen|]. split; [exact Hnth'|]. split.
      * intros p Hin Hprim.
        destruct (In_nth_error _ _ Hin) as (i & Hi).
        pose proof Hi as Hi'. rewrite Hnth' in Hi'.
        destruct (nth_error files i) as [file|]; [|discriminate Hi'].
        destruct (fileToBase64 file) as [d|]; [|discriminate Hi'].
        cbn [option_map] in Hi'. injection Hi' as Hp. rewrite <- Hp in Hprim.
        cbn [Upload.isPrimary Upload.prepare] in Hprim.
        apply Nat.eqb_eq in Hprim. rewrite <- Hprim. exact Hi.
      * intros i p Hi Hcap. rewrite Hnth' in Hi.
        destruct (nth_error files i) as [file|]; [|discriminate Hi].
        destruct (fileToBase64 file) as [d|]; [|discriminate Hi].
        cbn [option_map] in Hi. injection Hi as Hp. rewrite <- Hp.
        cbn [Upload.caption Upload.prepare].
        apply nth_error_None in Hcap. now rewrite Hcap.
  - split.
    + split; [intros _; exact Hspec|reflexivity].
    + discriminate.
Qed.

(** The statement of X20 applied to a photo and a video of which the
    second cannot be read. *)
Lemma prepared_files_follow_the_input_witness :
  Upload.prepareMediaFiles
    (fun file => if String.eqb (Upload.name file) "b.mp4" then None
                 else Some "data:")
    [ {| Upload.name := "a.png"; Upload.type := "image/png" |};
      {| Upload.name := "b.mp4"; Upload.type := "video/mp4" |} ]
    [ "Front" ] = None.
Proof.
  apply (proj1 (prepared_files_follow_the_input _ _ _)).
  exists {| Upload.name := "b.mp4"; Upload.type := "video/mp4" |}.
  split; [right; left; reflexivity|reflexivity].
Defined.

(** ** Amenities of the property form *)

Lemma existsb_eqb_In (a : string) (l : list string) :
  existsb (String.eqb a) l = true <-> In a l.
Proof.
  rewrite existsb_exists. split.
  - intros (x & Hx & He). apply String.eqb_eq in He. now subst.
  - intros H. exists a. split; [exact H|apply String.eqb_refl].
Qed.

Lemma filter_absent (a : string) (l : list string) :
  ~ In a l -> filter (fun x => negb (String.eqb x a)) l = l.
Proof.
  induction l as [|x l IH]; simpl; [reflexivity|].
  intros Hnot. destruct (String.eqb x a) eqn:He.
  - apply String.eqb_eq in He. subst. tauto.
  - simpl. rewrite IH; tauto.
Qed.

(** X21. Toggling an amenity changes the selection for that amenity
    only: it becomes selected exactly when it was not; every other amenity
    keeps its state; a selection without repetitions stays so; and
    selecting an amenity and then toggling it again gives back the
    selection. *)
Theorem amenity_toggle_flips_one (amenityName : string) (prev : list string) :
  (In amenityName (handleAmenityToggle amenityName prev)
   <-> ~ In amenityName prev)
  /\ (forall a, a <> amenityName ->
        (In a (handleAmenityToggle amenityName prev) <-> In a prev))
  /\ (NoDup prev -> NoDup (handleAmenityToggle amenityName prev))
  /\ (~ In amenityName prev ->
      handleAmenityToggle amenityName (handleAmenityToggle amenityName prev)
      = prev).
Proof.
  unfold handleAmenityToggle at 1 2 3.
  destruct (existsb (String.eqb amenityName) prev) eqn:He.
  - apply existsb_eqb_In in He. split; [|split; [|split]].
    + rewrite filter_In. split; [|tauto].
      intros (_ & Hneq). rewrite String.eqb_refl in Hneq. discriminate.
    + intros a Hneq. rewrite filter_In. split; [tauto|].
      intros Hin. split; [exact Hin|].
      apply negb_true_iff. now apply String.eqb_neq.
    + apply NoDup_filter.
    + tauto.
  - assert (Hnot : ~ In amenityName prev).
    { intros Hin. apply existsb_eqb_In in Hin. congruence. }
    split; [|split; [|split]].
    + split; [tauto|]. intros _. apply in_or_app. right. now left.
    + intros a Hneq. rewrite in_app_iff. simpl. split; [|tauto].
      intros [H|[H|[]]]; [exact H|congruence].
    + intros Hnd. apply NoDup_app; [exact Hnd|repeat constructor; simpl; tauto|].
      intros a Ha [Hb|[]]. subst. tauto.
    + intros _. unfold handleAmenityToggle.
      rewrite He.
      assert (Hex : existsb (String.eqb amenityName) (prev ++ [amenityName]) = true).
      { apply existsb_eqb_In. apply in_or_app. right. now left. }
      rewrite Hex, filter_app, (filter_absent _ _ Hnot). simpl.
      rewrite String.eqb_refl. simpl. apply app_nil_r.
Qed.

(** The statement of X21 applied to a selection of two amenities. *)
Lemma amenity_toggle_flips_one_witness :
  NoDup (handleAmenityToggle "WiFi" ["WiFi"; "Heating"])
  /\ handleAmenityToggle "Shower" (handleAmenityToggle "Shower" ["WiFi"; "Heating"])
     = ["WiFi"; "Heating"].
Proof.
  split.
  - apply (proj1 (proj2 (proj2 (amenity_toggle_flips_one "WiFi" ["WiFi"; "Heating"])))).
    repeat constructor; simpl; intuition discriminate.
  - apply (proj2 (proj2 (proj2 (amenity_toggle_flips_one "Shower" ["WiFi"; "Heating"])))).
    simpl. intuition discriminate.
Defined.
